(** * SleepSense: signal normalisation and respiratory-event analysis

    A shallow embedding of

    - [SignalProcessor.normalize]          (src/data/signal_processor.py),
    - [OSAAnalysis.detect_respiratory_events] (src/analysis/osa_analysis.py),
    - [SleepAnalysis.analyze_full_study]   (src/analysis/sleep_analysis.py),

    and of the other methods of the three classes, followed by the
    properties of the specification that concern them.

    Numbers.  Python floats and numpy float64 values are idealised as exact
    rationals ([Q]); the three non-finite float values that the code tests
    for ([inf], [-inf], [nan]) are kept as constructors of [float64].
    Rounding error is therefore not modelled.  Overflow is: the signal
    processor, which receives raw channels, computes with the operations
    [fadd], [fsub], [fmul] and [fdiv], whose result is an infinity once
    it leaves the range of float64, and the differences of an int64
    channel wrap around.  The analyses receive normalised channels and
    compute with the exact operations; the stamps of the time axis, which
    is not normalised, are checked against the range of pandas
    timestamps, and the product of line 41 against the range of float64.
    Python integers are [Z] or [nat].  Exceptions are values of the
    [result] type. *)

From Stdlib Require Import QArith Qround ZArith Lia Lqa String Sorted.
From stdpp Require Import gmap list.

Open Scope Q_scope.

(** ** Exceptions *)

Inductive exn : Type :=
| TypeError
| IndexError
| ZeroDivisionError
| ValueError
| OverflowError
| OutOfBoundsDatetime.

Inductive result (A : Type) : Type :=
| Ok (a : A)
| Raise (e : exn).
Arguments Ok {A} a.
Arguments Raise {A} e.

Definition bind {A B : Type} (r : result A) (k : A -> result B) : result B :=
  match r with
  | Ok a => k a
  | Raise e => Raise e
  end.

Notation "x <- r ;; k" := (bind r (fun x => k))
  (at level 100, r at next level, right associativity).

(** [try: body except Exception: handler] *)
Definition try_except {A : Type} (body : result A) (handler : exn -> result A)
  : result A :=
  match body with
  | Ok a => Ok a
  | Raise e => handler e
  end.

(** ** Python and numpy scalars *)

Definition Qltb (x y : Q) : bool := negb (Qle_bool y x).

(** [int(x)] on a float: truncation towards zero. *)
Definition py_int (x : Q) : Z := Z.quot (Qnum x) (Z.pos (Qden x)).

Definition Q_of_nat (n : nat) : Q := inject_Z (Z.of_nat n).

Module Float.

(** A float64: a finite value, or one of [inf], [-inf], [nan]. *)
Inductive float64 : Type :=
| Fin (q : Q)
| PInf
| NInf
| NaN.

Definition isna (x : float64) : bool :=
  match x with NaN => true | _ => false end.

(** IEEE comparisons: every comparison with [nan] is false. *)
Definition leb (x y : float64) : bool :=
  match x, y with
  | NaN, _ | _, NaN => false
  | NInf, _ => true
  | _, PInf => true
  | Fin a, Fin b => Qle_bool a b
  | _, _ => false
  end.

Definition eqb (x y : float64) : bool :=
  match x, y with
  | Fin a, Fin b => Qeq_bool a b
  | PInf, PInf => true
  | NInf, NInf => true
  | _, _ => false
  end.

Definition ltb (x y : float64) : bool := leb x y && negb (eqb x y).

Definition add (x y : float64) : float64 :=
  match x, y with
  | NaN, _ | _, NaN => NaN
  | Fin a, Fin b => Fin (a + b)
  | PInf, NInf | NInf, PInf => NaN
  | PInf, _ | _, PInf => PInf
  | NInf, _ | _, NInf => NInf
  end.

Definition opp (x : float64) : float64 :=
  match x with
  | Fin a => Fin (- a)
  | PInf => NInf
  | NInf => PInf
  | NaN => NaN
  end.

Definition sub (x y : float64) : float64 := add x (opp y).

Definition sign (a : Q) : comparison := (Qnum a ?= 0)%Z.

Definition mul (x y : float64) : float64 :=
  match x, y with
  | NaN, _ | _, NaN => NaN
  | Fin a, Fin b => Fin (a * b)
  | Fin a, PInf | PInf, Fin a =>
      match sign a with Eq => NaN | Gt => PInf | Lt => NInf end
  | Fin a, NInf | NInf, Fin a =>
      match sign a with Eq => NaN | Gt => NInf | Lt => PInf end
  | PInf, PInf | NInf, NInf => PInf
  | PInf, NInf | NInf, PInf => NInf
  end.

(** numpy division: a zero divisor gives [nan] or an infinity (with a
    warning), never an exception. *)
Definition div (x y : float64) : float64 :=
  match x, y with
  | NaN, _ | _, NaN => NaN
  | Fin a, Fin b =>
      if Qeq_bool b 0
      then match sign a with Eq => NaN | Gt => PInf | Lt => NInf end
      else Fin (a / b)
  | Fin _, (PInf | NInf) => Fin 0
  | (PInf | NInf), (PInf | NInf) => NaN
  | PInf, Fin b => if Qle_bool 0 b then PInf else NInf
  | NInf, Fin b => if Qle_bool 0 b then NInf else PInf
  end.

(** [np.clip(x, lo, hi)]; [nan] stays [nan]. *)
Definition clip (lo hi : Q) (x : float64) : float64 :=
  match x with
  | NaN => NaN
  | PInf => Fin hi
  | NInf => Fin lo
  | Fin a => if Qltb a lo then Fin lo else if Qltb hi a then Fin hi else Fin a
  end.

Definition min2 (x y : float64) : float64 := if leb y x then y else x.
Definition max2 (x y : float64) : float64 := if leb x y then y else x.

Definition dropna (l : list float64) : list float64 :=
  filter (fun x => isna x = false) l.

(** [Series.min()] / [Series.max()], [skipna=True]: [nan] when no value
    is left. *)
Definition series_min (l : list float64) : float64 :=
  match dropna l with
  | [] => NaN
  | x :: xs => foldl min2 x xs
  end.

Definition series_max (l : list float64) : float64 :=
  match dropna l with
  | [] => NaN
  | x :: xs => foldl max2 x xs
  end.

Fixpoint insert_sorted (x : float64) (l : list float64) : list float64 :=
  match l with
  | [] => [x]
  | y :: l' => if leb x y then x :: l else y :: insert_sorted x l'
  end.

Definition sort (l : list float64) : list float64 :=
  foldr insert_sorted [] l.

(** [Series.median()], [skipna=True]: the middle of the sorted valid
    values, the mean of the two middle ones for an even count, [nan]
    when there is none. *)
Definition median (l : list float64) : float64 :=
  let s := sort (dropna l) in
  let n := length s in
  match n with
  | O => NaN
  | _ =>
      if Nat.even n
      then div (add (nth (n / 2 - 1) s NaN) (nth (n / 2) s NaN)) (Fin 2)
      else nth (n / 2) s NaN
  end.

Definition sum (l : list float64) : float64 := foldl add (Fin 0) l.

(** [Series.mean()]: [nan] on an empty series. *)
Definition mean (l : list float64) : float64 :=
  div (sum (dropna l)) (Fin (Q_of_nat (length (dropna l)))).

Definition of_Q (l : list Q) : list float64 := map Fin l.

(** *** Overflow

    The largest float64, [(2 - 2^-52) * 2^1023]; a result beyond it is an
    infinity. *)
Definition max_float : Q := inject_Z ((2 ^ 53 - 1) * 2 ^ 971).

Definition overflow (x : float64) : float64 :=
  match x with
  | Fin q =>
      if Qltb max_float q then PInf
      else if Qltb q (- max_float) then NInf
      else Fin q
  | _ => x
  end.

Definition fadd (x y : float64) : float64 := overflow (add x y).
Definition fsub (x y : float64) : float64 := overflow (sub x y).
Definition fmul (x y : float64) : float64 := overflow (mul x y).
Definition fdiv (x y : float64) : float64 := overflow (div x y).

(** The median with the overflow of the sum of the two middle values
    (numpy and pandas take their mean). *)
Definition fmedian (l : list float64) : float64 :=
  let s := sort (dropna l) in
  let n := length s in
  match n with
  | O => NaN
  | _ =>
      if Nat.even n
      then fdiv (fadd (nth (n / 2 - 1) s NaN) (nth (n / 2) s NaN)) (Fin 2)
      else nth (n / 2) s NaN
  end.

Definition fsum (l : list float64) : float64 := foldl fadd (Fin 0) l.

End Float.

Import Float.

(** ** SignalProcessor.normalize *)

Module SignalProcessor.

(** An element of an object-dtype series: a float, a string, or an
    object that [pd.to_numeric] turns into [nan]. *)
Inductive pyobj : Type :=
| ONumber (x : float64)
| OStr (s : string)
| OOther.

(** A pandas series: float64 dtype, int64 dtype (the entries are int64
    values), or object dtype. *)
Inductive Series : Type :=
| NumericSeries (l : list float64)
| IntSeries (l : list Z)
| ObjectSeries (l : list pyobj).

(** What a caller can pass as [series]. *)
Inductive pyvalue : Type :=
| PyNone
| PyFloat (x : float64)
| PySeries (s : Series).

Section Normalize.

(** The string parser inside [pd.to_numeric]; [NaN] stands for a string
    that does not parse. *)
Variable str_to_float : string -> float64.

(** [len(series)]: a bare number has no length. *)
Definition py_len (v : pyvalue) : result nat :=
  match v with
  | PyNone => Raise TypeError
  | PyFloat _ => Raise TypeError
  | PySeries (NumericSeries l) => Ok (length l)
  | PySeries (IntSeries l) => Ok (length l)
  | PySeries (ObjectSeries l) => Ok (length l)
  end.

(** [pd.to_numeric(series, errors='coerce')] *)
Definition coerce (o : pyobj) : float64 :=
  match o with
  | ONumber x => x
  | OStr s => str_to_float s
  | OOther => NaN
  end.

(** The number an int64 entry holds. *)
Definition of_int (z : Z) : float64 := Fin (inject_Z z).

(** Lines 36-37: non-numeric dtypes go through [pd.to_numeric]; a numeric
    dtype is left as it is (an int64 entry is read as the number it
    holds). *)
Definition to_numeric (s : Series) : list float64 :=
  match s with
  | NumericSeries l => l
  | IntSeries l => map of_int l
  | ObjectSeries l => map coerce l
  end.

(** Line 39: [series.replace([np.inf, -np.inf], np.nan)] *)
Definition replace_inf (x : float64) : float64 :=
  match x with
  | PInf | NInf => NaN
  | _ => x
  end.

Definition fillna (m : float64) (l : list float64) : list float64 :=
  map (fun x => if isna x then m else x) l.

(** Lines 41-45. *)
Definition fill_missing (l : list float64) : list float64 :=
  if existsb isna l then
    let median_val := fmedian l in
    let median_val := if isna median_val then Fin 0 else median_val in
    fillna median_val l
  else l.

(** Lines 36-45: the cleaned series. *)
Definition clean (s : Series) : list float64 :=
  fill_missing (map replace_inf (to_numeric s)).

Definition default_series : list float64 := replicate 100 (Fin 0.5).

(** Lines 47-53 on a float64 series. *)
Definition rescale (l : list float64) : list float64 :=
  let min_val := series_min l in
  let max_val := series_max l in
  if eqb min_val max_val then replicate (length l) (Fin 0.5)
  else map (fun x => clip 0 1 (fdiv (fsub x min_val) (fsub max_val min_val))) l.

(** int64 arithmetic wraps around. *)
Definition wrap_int64 (z : Z) : Z := ((z + 2 ^ 63) mod 2 ^ 64 - 2 ^ 63)%Z.

(** Lines 47-53 on an int64 series, which lines 39-45 leave as it is: the
    two subtractions are int64 subtractions, the division is a float64
    division. *)
Definition rescale_int (l : list Z) : list float64 :=
  match l with
  | [] => []
  | z :: l' =>
      let min_val := foldl Z.min z l' in
      let max_val := foldl Z.max z l' in
      if (min_val =? max_val)%Z then replicate (length l) (Fin 0.5)
      else
        map (fun x => clip 0 1 (fdiv (of_int (wrap_int64 (x - min_val)))
                                     (of_int (wrap_int64 (max_val - min_val)))))
            l
  end.

(** The body of the [try]. *)
Definition normalize_body (v : pyvalue) : result (list float64) :=
  match v with
  | PyNone => Ok default_series
  | _ =>
      n <- py_len v ;;
      if Nat.eqb n 0 then Ok default_series
      else
        match v with
        | PySeries (IntSeries l) => Ok (rescale_int l)
        | PySeries s => Ok (rescale (clean s))
        | _ => Raise TypeError
        end
  end.

Definition normalize (v : pyvalue) : result (list float64) :=
  try_except (normalize_body v) (fun _ => Ok default_series).

End Normalize.

(** ** The other methods of SignalProcessor *)

(** The processor object: [self.sample_rate], 10.0 after [__init__]. *)
Record t : Type := { sample_rate : float64 }.

Definition new : t := {| sample_rate := Fin 10 |}.

(** [np.diff(t)] *)
Fixpoint np_diff (t : list float64) : list float64 :=
  match t with
  | x :: ((y :: _) as t') => fsub y x :: np_diff t'
  | _ => []
  end.

Definition has_nan (l : list float64) : bool := existsb isna l.

(** [np.median], [np.min], [np.max]: a [nan] anywhere gives [nan]. *)
Definition np_median (l : list float64) : float64 :=
  if has_nan l then NaN else fmedian l.

Definition np_min (l : list float64) : float64 :=
  if has_nan l then NaN else series_min l.

Definition np_max (l : list float64) : float64 :=
  if has_nan l then NaN else series_max l.

(** Lines 18-26, the body of the [try]; [None] stands for an exception
    ([time_series] is [None] and has no [values]). *)
Definition compute_sampling_rate_body (time_series : option (list float64))
  : option float64 :=
  match time_series with
  | None => None
  | Some t =>
      if (length t <? 3)%nat then Some (Fin 10)
      else
        let dt := np_median (np_diff t) in
        if leb dt (Fin 0) then Some (Fin 10)
        else Some (fdiv (Fin 1) dt)
  end.

(** Lines 15-28: the new state of the processor. *)
Definition compute_sampling_rate (self : t) (time_series : option (list float64))
  : t :=
  match compute_sampling_rate_body time_series with
  | Some rate => {| sample_rate := rate |}
  | None => {| sample_rate := Fin 10 |}
  end.

(** Lines 62-66: the window length, at least 3 and odd. *)
Definition odd_window (window_samples : Q) : nat :=
  let w := py_int window_samples in
  let w := if (w <? 3)%Z then 3%Z else w in
  let w := if (w mod 2 =? 0)%Z then (w + 1)%Z else w in
  Z.to_nat w.

(** The products [arr[m - k] * kernel[k]] that enter entry [m] of the
    full convolution. *)
Definition conv_term (arr : list float64) (m k : nat) (c : float64)
  : list float64 :=
  if (k <=? m)%nat then
    match arr !! (m - k)%nat with
    | Some x => [fmul x c]
    | None => []
    end
  else [].

Definition convolve_full_at (arr kernel : list float64) (m : nat) : float64 :=
  fsum (concat (imap (conv_term arr m) kernel)).

(** [np.convolve(arr, kernel, mode='same')]: the middle
    [max(len(arr), len(kernel))] entries of the full convolution; an empty
    argument raises. *)
Definition np_convolve_same (arr kernel : list float64) : option (list float64) :=
  match arr, kernel with
  | [], _ | _, [] => None
  | _, _ =>
      let start := ((Nat.min (length arr) (length kernel) - 1) / 2)%nat in
      Some (map (convolve_full_at arr kernel)
              (seq start (Nat.max (length arr) (length kernel))))
  end.

(** [pd.Series(values, index=series.index)]: the lengths must agree. *)
Definition series_with_index (values series : list float64)
  : option (list float64) :=
  if (length values =? length series)%nat then Some values else None.

(** Lines 62-74, the body of the [try]; [None] stands for an exception. *)
Definition apply_moving_average_body (series : list float64) (window_samples : Q)
  : option (list float64) :=
  let w := odd_window window_samples in
  let kernel := replicate w (fdiv (Fin 1) (Fin (Q_of_nat w))) in
  match np_convolve_same series kernel with
  | None => None
  | Some smoothed =>
      let mn := np_min smoothed in
      let mx := np_max smoothed in
      if leb (fsub mx mn) (Fin 0) then
        series_with_index (replicate (length smoothed) (Fin 0.5)) series
      else
        series_with_index
          (map (fun x => fdiv (fsub x mn) (fsub mx mn)) smoothed) series
  end.

(** Lines 59-76. *)
Definition apply_moving_average (series : list float64) (window_samples : Q)
  : list float64 :=
  match apply_moving_average_body series window_samples with
  | Some smoothed => smoothed
  | None => series
  end.

(** ** Dictionaries of signals

    A Python [dict] with string keys, in insertion order: assigning to a
    key that is present replaces its value in place, a new key goes
    last. *)
Definition dict (V : Type) : Type := list (string * V).

Fixpoint dict_set {V : Type} (key : string) (v : V) (d : dict V) : dict V :=
  match d with
  | [] => [(key, v)]
  | (k, x) :: d' =>
      if String.eqb k key then (k, v) :: d' else (k, x) :: dict_set key v d'
  end.

Fixpoint dict_get {V : Type} (key : string) (d : dict V) : option V :=
  match d with
  | [] => None
  | (k, x) :: d' => if String.eqb k key then Some x else dict_get key d'
  end.

Definition dict_keys {V : Type} (d : dict V) : list string := map fst d.

(** [int(x)] of a float: [nan] and the infinities raise. *)
Definition py_int_float (x : float64) : option Z :=
  match x with
  | Fin q => Some (py_int q)
  | _ => None
  end.

Definition series_value (l : list float64) : pyvalue := PySeries (NumericSeries l).

Section NormalizeAll.

Variable str_to_float : string -> float64.

(** [series.values.astype(float)] on an object-dtype series; [None]
    stands for an exception. *)
Variable astype_float : list pyobj -> option (list float64).

(** Lines 84-88, one iteration; [None] stands for an exception. *)
Definition normalize_entry (normalized_signals : dict pyvalue)
    (item : string * pyvalue) : option (dict pyvalue) :=
  let '(key, signal) := item in
  if negb (String.eqb key "time") then
    match normalize str_to_float signal with
    | Ok normalized =>
        Some (dict_set (String.append key "_n") (series_value normalized)
                normalized_signals)
    | Raise _ => None
    end
  else Some (dict_set key signal normalized_signals).

(** Lines 84-88, the loop over [signals.items()]. *)
Fixpoint normalize_entries (items : list (string * pyvalue))
    (normalized_signals : dict pyvalue) : option (dict pyvalue) :=
  match items with
  | [] => Some normalized_signals
  | item :: items' =>
      match normalize_entry normalized_signals item with
      | Some normalized_signals' => normalize_entries items' normalized_signals'
      | None => None
      end
  end.

(** [apply_moving_average] on whatever the dictionary holds: what has no
    [values], or does not convert to floats, comes back unchanged through
    the [except] of line 75. *)
Definition apply_moving_average_value (series : pyvalue) (window_samples : Q)
  : pyvalue :=
  match series with
  | PySeries (NumericSeries l) => series_value (apply_moving_average l window_samples)
  | PySeries (IntSeries l) =>
      match apply_moving_average_body (map of_int l) window_samples with
      | Some smoothed => series_value smoothed
      | None => series
      end
  | PySeries (ObjectSeries l) =>
      match astype_float l with
      | Some arr =>
          match apply_moving_average_body arr window_samples with
          | Some smoothed => series_value smoothed
          | None => series
          end
      | None => series
      end
  | _ => series
  end.

(** Lines 81-97, the body of the [try]; [None] stands for an exception.
    (Half of a float64 is a float64: the product of line 95 does not
    overflow.) *)
Definition normalize_all_signals_body (self : t) (signals : dict pyvalue)
  : option (dict pyvalue) :=
  match normalize_entries signals [] with
  | None => None
  | Some normalized_signals =>
      match dict_get "flow_n" normalized_signals with
      | Some flow_n =>
          match py_int_float (mul (sample_rate self) (Fin 0.5)) with
          | Some n =>
              Some (dict_set "flow_plot"
                      (apply_moving_average_value flow_n (inject_Z (Z.max 3 n)))
                      normalized_signals)
          | None => None
          end
      | None => Some normalized_signals
      end
  end.

(** Lines 110-114, one iteration. *)
Definition fallback_entry (zero_series : pyvalue) (fallback_signals : dict pyvalue)
    (item : string * pyvalue) : dict pyvalue :=
  let '(key, signal) := item in
  if String.eqb key "time" then dict_set key signal fallback_signals
  else dict_set (String.append key "_n") zero_series fallback_signals.

(** Line 107: [len(signals.get('time', pd.Series([0])))]; a [time] entry
    that is no series has no length. *)
Definition zero_series_length (signals : dict pyvalue) : result nat :=
  py_len (default (series_value [Fin 0]) (dict_get "time" signals)).

(** Lines 103-116. *)
Definition create_normalized_fallback_signals (signals : dict pyvalue)
  : result (dict pyvalue) :=
  n <- zero_series_length signals ;;
  let zero_series := series_value (replicate n (Fin 0)) in
  Ok (foldl (fallback_entry zero_series) [] signals).

(** Lines 78-101. *)
Definition normalize_all_signals (self : t) (signals : dict pyvalue)
  : result (dict pyvalue) :=
  match normalize_all_signals_body self signals with
  | Some normalized_signals => Ok normalized_signals
  | None => create_normalized_fallback_signals signals
  end.

End NormalizeAll.

End SignalProcessor.


(** ** The study handed to the analyses

    The [signals] dictionary, with the keys the two analyses read.  All
    channels but [time] are outputs of the normaliser.  The channels hold
    numbers: a study with a [nan] in a channel is not among the studies
    considered here. *)

Record Signals : Type := {
  time : list Q;
  flow_n : list Q;
  body_pos_n : list Q;
  activity_n : list Q;
  spo2_n : list Q;
  snore_n : list Q;
  pulse_n : list Q
}.

Inductive EventType : Type := Apnea | Hypopnea.

(** [series.iloc[i]] and [series.iloc[-1]] *)
Definition iloc {A : Type} (l : list A) (i : nat) : result A :=
  match l !! i with
  | Some x => Ok x
  | None => Raise IndexError
  end.

Definition iloc_last {A : Type} (l : list A) : result A :=
  match last l with
  | Some x => Ok x
  | None => Raise IndexError
  end.

(** [series.iloc[lo:hi]]: slices never raise, they clip. *)
Definition iloc_slice {A : Type} (l : list A) (lo hi : nat) : list A :=
  take (hi - lo) (drop lo l).

Definition count_if {A : Type} (p : A -> bool) (l : list A) : nat :=
  length (List.filter p l).

(** ** OSAAnalysis.detect_respiratory_events (windowed mode) *)

Module OSAAnalysis.

Record RespiratoryEvent : Type := {
  type : EventType;
  start_time : Q;
  end_time : Q;
  duration : Q
}.

Record t : Type := {
  sample_rate : Q;
  detected_events : list RespiratoryEvent
}.

(** [Series.searchsorted(v, side=...)] on an ascending series:
    the insertion point, that is the number of leading entries that are
    [< v] for [side='left'] and [<= v] for [side='right']. *)
Fixpoint searchsorted_left (a : list Q) (v : Q) : nat :=
  match a with
  | [] => O
  | x :: a' => if Qltb x v then S (searchsorted_left a' v) else O
  end.

Fixpoint searchsorted_right (a : list Q) (v : Q) : nat :=
  match a with
  | [] => O
  | x :: a' => if Qle_bool x v then S (searchsorted_right a' v) else O
  end.

Definition flow_threshold_apnea : Q := 0.1.
Definition flow_threshold_hypopnea : Q := 0.3.
Definition min_duration : Q := 10.

(** The three loop variables [in_event], [event_start], [event_type] are
    always assigned together: [(False, None, None)] or
    [(True, time_val, type)]. *)
Inductive episode : Type :=
| Idle
| InEvent (event_start : Q) (event_type : EventType).

(** One iteration of the loop of lines 37-60, on the pair
    [(time_val, flow_val)]; the list is [self.detected_events]. *)
Definition scan_step (st : episode * list RespiratoryEvent) (sample : Q * Q)
  : episode * list RespiratoryEvent :=
  let '(ep, events) := st in
  let '(time_val, flow_val) := sample in
  match ep with
  | Idle =>
      if Qltb flow_val flow_threshold_apnea then
        (InEvent time_val Apnea, events)
      else if Qltb flow_val flow_threshold_hypopnea then
        (InEvent time_val Hypopnea, events)
      else (Idle, events)
  | InEvent event_start event_type =>
      if Qltb flow_threshold_hypopnea flow_val then
        let event_duration := time_val - event_start in
        (Idle,
         if Qle_bool min_duration event_duration then
           events ++ [{| type := event_type;
                         start_time := event_start;
                         end_time := time_val;
                         duration := event_duration |}]
         else events)
      else (ep, events)
  end.

(** Lines 20-26: the samples the loop scans. *)
Definition window (signals : Signals) (start_time end_time : Q) : list (Q * Q) :=
  let time_series := time signals in
  let start_idx := searchsorted_left time_series start_time in
  let end_idx := searchsorted_right time_series end_time in
  let flow_data := iloc_slice (flow_n signals) start_idx end_idx in
  let time_data := iloc_slice time_series start_idx end_idx in
  zip time_data flow_data.

Definition scan (samples : list (Q * Q)) : episode * list RespiratoryEvent :=
  foldl scan_step (Idle, []) samples.

(** The method: the object's event list is cleared, refilled and
    returned. *)
Definition detect_respiratory_events (self : t) (signals : Signals)
    (start_time end_time : Q) : t * list RespiratoryEvent :=
  let events := snd (scan (window signals start_time end_time)) in
  ({| sample_rate := sample_rate self; detected_events := events |}, events).

(** Lines 64-66. *)
Definition clear_detected_events (self : t) : t :=
  {| sample_rate := sample_rate self; detected_events := [] |}.

(** [e['type'] == name] *)
Definition has_type (name : EventType) (e : RespiratoryEvent) : bool :=
  match type e, name with
  | Apnea, Apnea | Hypopnea, Hypopnea => true
  | _, _ => false
  end.

Record EventSummary : Type := {
  total_events : nat;
  apnea_count : nat;
  hypopnea_count : nat
}.

(** Lines 68-78. *)
Definition get_event_summary (self : t) : EventSummary :=
  let event_count := length (detected_events self) in
  let apnea_count := length (List.filter (has_type Apnea) (detected_events self)) in
  let hypopnea_count :=
    length (List.filter (has_type Hypopnea) (detected_events self)) in
  {| total_events := event_count;
     apnea_count := apnea_count;
     hypopnea_count := hypopnea_count |}.

(** The test of lines 82-83 on one event. *)
Definition event_within (lo hi : Q) (event : RespiratoryEvent) : bool :=
  Qle_bool lo (start_time event) && Qle_bool (end_time event) hi.

(** Lines 80-83. *)
Definition get_events_in_timeframe (self : t) (start_time end_time : Q)
  : list RespiratoryEvent :=
  List.filter (event_within start_time end_time) (detected_events self).

End OSAAnalysis.

(** ** SleepAnalysis.analyze_full_study (whole-study mode) *)

Module SleepAnalysis.

Definition is_apnea (f : Q) : bool := Qltb f 0.1.
Definition is_hypopnea (f : Q) : bool := Qle_bool 0.1 f && Qltb f 0.3.
Definition is_flow_limitation (f : Q) : bool := Qle_bool 0.3 f && Qltb f 0.5.

(** [in_event], [event_start_index], [event_type]; the last two are only
    read while [in_event] holds. *)
Inductive episode : Type :=
| Idle
| InEvent (event_start_index : nat) (event_type : EventType).

(** The local variables of the scanning loop.  [closed] is a ghost
    variable, not in the source: the episodes that passed the duration
    gate, as [(type, event_start_index, i)], in order. *)
Record Locals : Type := {
  apneas : nat;
  hypopneas : nat;
  flow_limitations : nat;
  apnea_durations : list Q;
  hypopnea_durations : list Q;
  max_apnea_duration : Q;
  max_hypopnea_duration : Q;
  in_event : episode;
  position_counts : gmap Z nat;
  supine_apneas : nat;
  supine_hypopneas : nat;
  non_supine_apneas : nat;
  non_supine_hypopneas : nat;
  rem_apneas : nat;
  rem_hypopneas : nat;
  nrem_apneas : nat;
  nrem_hypopneas : nat;
  closed : list (EventType * nat * nat)
}.

Definition init : Locals := {|
  apneas := 0; hypopneas := 0; flow_limitations := 0;
  apnea_durations := []; hypopnea_durations := [];
  max_apnea_duration := 0; max_hypopnea_duration := 0;
  in_event := Idle;
  position_counts := ∅;
  supine_apneas := 0; supine_hypopneas := 0;
  non_supine_apneas := 0; non_supine_hypopneas := 0;
  rem_apneas := 0; rem_hypopneas := 0;
  nrem_apneas := 0; nrem_hypopneas := 0;
  closed := []
|}.

Definition set_in_event (ep : episode) (s : Locals) : Locals := {|
  apneas := apneas s; hypopneas := hypopneas s;
  flow_limitations := flow_limitations s;
  apnea_durations := apnea_durations s;
  hypopnea_durations := hypopnea_durations s;
  max_apnea_duration := max_apnea_duration s;
  max_hypopnea_duration := max_hypopnea_duration s;
  in_event := ep;
  position_counts := position_counts s;
  supine_apneas := supine_apneas s; supine_hypopneas := supine_hypopneas s;
  non_supine_apneas := non_supine_apneas s;
  non_supine_hypopneas := non_supine_hypopneas s;
  rem_apneas := rem_apneas s; rem_hypopneas := rem_hypopneas s;
  nrem_apneas := nrem_apneas s; nrem_hypopneas := nrem_hypopneas s;
  closed := closed s
|}.

(** Lines 59-61. *)
Definition count_position (pos : Z) (s : Locals) : Locals := {|
  apneas := apneas s; hypopneas := hypopneas s;
  flow_limitations := flow_limitations s;
  apnea_durations := apnea_durations s;
  hypopnea_durations := hypopnea_durations s;
  max_apnea_duration := max_apnea_duration s;
  max_hypopnea_duration := max_hypopnea_duration s;
  in_event := in_event s;
  position_counts :=
    <[pos := S (default O (position_counts s !! pos))]> (position_counts s);
  supine_apneas := supine_apneas s; supine_hypopneas := supine_hypopneas s;
  non_supine_apneas := non_supine_apneas s;
  non_supine_hypopneas := non_supine_hypopneas s;
  rem_apneas := rem_apneas s; rem_hypopneas := rem_hypopneas s;
  nrem_apneas := nrem_apneas s; nrem_hypopneas := nrem_hypopneas s;
  closed := closed s
|}.

(** Lines 107-108. *)
Definition count_flow_limitation (s : Locals) : Locals := {|
  apneas := apneas s; hypopneas := hypopneas s;
  flow_limitations := S (flow_limitations s);
  apnea_durations := apnea_durations s;
  hypopnea_durations := hypopnea_durations s;
  max_apnea_duration := max_apnea_duration s;
  max_hypopnea_duration := max_hypopnea_duration s;
  in_event := in_event s;
  position_counts := position_counts s;
  supine_apneas := supine_apneas s; supine_hypopneas := supine_hypopneas s;
  non_supine_apneas := non_supine_apneas s;
  non_supine_hypopneas := non_supine_hypopneas s;
  rem_apneas := rem_apneas s; rem_hypopneas := rem_hypopneas s;
  nrem_apneas := nrem_apneas s; nrem_hypopneas := nrem_hypopneas s;
  closed := closed s
|}.

Definition incr_if (b : bool) (n : nat) : nat := if b then S n else n.

(** Python's [max(a, b)]: the first argument unless the second is larger. *)
Definition py_max (a b : Q) : Q := if Qltb a b then b else a.

(** Lines 73-88: an apnea passed the gate at sample [i]. *)
Definition record_apnea (start i : nat) (event_duration : Q) (pos : Z)
    (rem : bool) (s : Locals) : Locals := {|
  apneas := S (apneas s); hypopneas := hypopneas s;
  flow_limitations := flow_limitations s;
  apnea_durations := apnea_durations s ++ [event_duration];
  hypopnea_durations := hypopnea_durations s;
  max_apnea_duration := py_max (max_apnea_duration s) event_duration;
  max_hypopnea_duration := max_hypopnea_duration s;
  in_event := Idle;
  position_counts := position_counts s;
  supine_apneas := incr_if (Z.eqb pos 0) (supine_apneas s);
  supine_hypopneas := supine_hypopneas s;
  non_supine_apneas := incr_if (negb (Z.eqb pos 0)) (non_supine_apneas s);
  non_supine_hypopneas := non_supine_hypopneas s;
  rem_apneas := incr_if rem (rem_apneas s);
  rem_hypopneas := rem_hypopneas s;
  nrem_apneas := incr_if (negb rem) (nrem_apneas s);
  nrem_hypopneas := nrem_hypopneas s;
  closed := closed s ++ [(Apnea, start, i)]
|}.

(** Lines 90-104: a hypopnea passed the gate at sample [i]. *)
Definition record_hypopnea (start i : nat) (event_duration : Q) (pos : Z)
    (rem : bool) (s : Locals) : Locals := {|
  apneas := apneas s; hypopneas := S (hypopneas s);
  flow_limitations := flow_limitations s;
  apnea_durations := apnea_durations s;
  hypopnea_durations := hypopnea_durations s ++ [event_duration];
  max_apnea_duration := max_apnea_duration s;
  max_hypopnea_duration := py_max (max_hypopnea_duration s) event_duration;
  in_event := Idle;
  position_counts := position_counts s;
  supine_apneas := supine_apneas s;
  supine_hypopneas := incr_if (Z.eqb pos 0) (supine_hypopneas s);
  non_supine_apneas := non_supine_apneas s;
  non_supine_hypopneas := incr_if (negb (Z.eqb pos 0)) (non_supine_hypopneas s);
  rem_apneas := rem_apneas s;
  rem_hypopneas := incr_if rem (rem_hypopneas s);
  nrem_apneas := nrem_apneas s;
  nrem_hypopneas := incr_if (negb rem) (nrem_hypopneas s);
  closed := closed s ++ [(Hypopnea, start, i)]
|}.

(** Python's [int / float]: a zero divisor raises. *)
Definition py_div (a b : Q) : result Q :=
  if Qeq_bool b 0 then Raise ZeroDivisionError else Ok (a / b).

(** The latest pandas timestamp, in seconds since the epoch: its count
    of nanoseconds is the largest int64. *)
Definition timestamp_max : Q := inject_Z (2 ^ 63 - 1) / 1000000000.

Definition in_timestamp_range (t : Q) : bool :=
  Qle_bool (- timestamp_max) t && Qle_bool t timestamp_max.

(** [pd.to_datetime(t, unit='s')]: a stamp whose nanoseconds do not fit
    in an int64 raises.  The timestamp is kept as exact seconds. *)
Definition to_datetime (t : Q) : result Q :=
  if in_timestamp_range t then Ok t else Raise OutOfBoundsDatetime.

(** The difference of two timestamps, a [Timedelta], under the same
    bound; [total_seconds()] of it is the number kept here. *)
Definition timestamp_sub (a b : Q) : result Q :=
  if in_timestamp_range (a - b) then Ok (a - b) else Raise OutOfBoundsDatetime.

(** [int(x)] of a float: an infinity raises. *)
Definition int_of_float (x : float64) : result Z :=
  match x with
  | Fin q => Ok (py_int q)
  | NaN => Raise ValueError
  | _ => Raise OverflowError
  end.

Section Loop.

Variable sample_rate : Q.
Variable signals : Signals.

(** Line 41, when the product is a float64. *)
Definition min_samples : Z := py_int (10 * sample_rate).

(** Line 41: the product of a large rate is an infinity, which [int]
    rejects; otherwise the value is [min_samples]. *)
Definition checked_min_samples : result Z :=
  int_of_float (fmul (Fin 10) (Fin sample_rate)).

(** Line 58. *)
Definition position_at (i : nat) : Z :=
  match body_pos_n signals !! i with
  | Some p => py_int p
  | None => 0%Z
  end.

(** Lines 49 and 85: [rem_periods.iloc[i]]. *)
Definition rem_periods : list bool :=
  map (fun a => Qltb a 0.2) (activity_n signals).

(** Lines 57-108: the body of the loop, at index [i] with [f = flow[i]]. *)
Definition loop_body (i : nat) (f : Q) (s : Locals) : result Locals :=
  let pos := position_at i in
  let s := count_position pos s in
  let in_band := is_apnea f || is_hypopnea f in
  s <- match in_event s with
       | Idle =>
           if in_band
           then Ok (set_in_event
                      (InEvent i (if is_apnea f then Apnea else Hypopnea)) s)
           else Ok s
       | InEvent event_start_index event_type =>
           if negb in_band then
             let s := set_in_event Idle s in
             event_duration <-
               py_div (Q_of_nat (i - event_start_index)) sample_rate ;;
             if (min_samples <=? Z.of_nat (i - event_start_index))%Z then
               rem <- iloc rem_periods i ;;
               match event_type with
               | Apnea =>
                   Ok (record_apnea event_start_index i event_duration pos rem s)
               | Hypopnea =>
                   Ok (record_hypopnea event_start_index i event_duration pos rem s)
               end
             else Ok s
           else Ok s
       end ;;
  Ok (if is_flow_limitation f then count_flow_limitation s else s).

(** [for i in range(len(flow))], entered at index [i] with the rest of the
    flow channel. *)
Fixpoint loop (i : nat) (flow : list Q) (s : Locals) : result Locals :=
  match flow with
  | [] => Ok s
  | f :: flow' => s' <- loop_body i f s ;; loop (S i) flow' s'
  end.

End Loop.

(** The [results] dictionary. *)
Module Results.

Record t : Type := {
  tib_hours : Q;
  patient_id : string;
  recording_date : string;
  ahi : Q;
  rdi : Q;
  obstructive_apneas : Z;
  central_apneas : Z;
  hypopneas : nat;
  total_apneas : nat;
  flow_limitations : nat;
  max_apnea_duration : Q;
  max_hypopnea_duration : Q;
  avg_apnea_duration : Q;
  avg_hypopnea_duration : Q;
  supine_percent : Q;
  left_percent : Q;
  right_percent : Q;
  prone_percent : Q;
  other_positions : gmap Z Q;
  supine_apneas : nat;
  supine_hypopneas : nat;
  non_supine_apneas : nat;
  non_supine_hypopneas : nat;
  rem_percent : float64;
  nrem_percent : float64;
  rem_apneas : nat;
  rem_hypopneas : nat;
  nrem_apneas : nat;
  nrem_hypopneas : nat;
  rem_ahi : float64;
  nrem_ahi : float64;
  artifact_percent : float64;
  min_spo2 : float64;
  avg_spo2 : float64;
  baseline_spo2 : float64;
  desat_count : nat;
  desat_index : Q;
  time_below_90 : float64;
  snore_index : Q;
  min_hr : float64;
  max_hr : float64;
  avg_hr : float64
}.

End Results.

Definition Qsum (l : list Q) : Q := foldl Qplus 0 l.

(** [np.mean(durations) if durations else 0] *)
Definition avg_duration (durations : list Q) : Q :=
  match durations with
  | [] => 0
  | _ => Qsum durations / Q_of_nat (length durations)
  end.

(** [(count / total_samples) * 100 if total_samples > 0 else 0] *)
Definition percent_of (count total_samples : nat) : Q :=
  if (0 <? total_samples)%nat
  then (Q_of_nat count / Q_of_nat total_samples) * 100
  else 0.

(** [x / tib_hours if tib_hours > 0 else 0] *)
Definition per_hour (x : nat) (tib_hours : Q) : Q :=
  if Qltb 0 tib_hours then Q_of_nat x / tib_hours else 0.

(** numpy's [(count / n) * 100] *)
Definition np_percent (count n : nat) : float64 :=
  mul (div (Fin (Q_of_nat count)) (Fin (Q_of_nat n))) (Fin 100).

(** [events / (tib_hours * pct / 100) if pct > 0 else 0] *)
Definition stage_ahi (events : nat) (tib_hours : Q) (pct : float64) : float64 :=
  if ltb (Fin 0) pct
  then div (Fin (Q_of_nat events)) (div (mul (Fin tib_hours) pct) (Fin 100))
  else Fin 0.

(** [series.diff()], without its leading [nan]. *)
Fixpoint diff (l : list Q) : list Q :=
  match l with
  | x :: ((y :: _) as l') => (y - x) :: diff l'
  | _ => []
  end.

Definition analyze_full_study (sample_rate : Q) (signals : Signals)
  : result Results.t :=
  (* lines 20-23 *)
  let time_series := time signals in
  t_last <- iloc_last time_series ;;
  d_last <- to_datetime t_last ;;
  t_first <- iloc time_series 0 ;;
  d_first <- to_datetime t_first ;;
  tib_duration_seconds <- timestamp_sub d_last d_first ;;
  let tib_hours := tib_duration_seconds / 3600 in
  let flow := flow_n signals in
  let body_pos := body_pos_n signals in
  (* lines 37-108 *)
  _ <- checked_min_samples sample_rate ;;
  s <- loop sample_rate signals 0 flow init ;;
  (* lines 111-129 *)
  let total_samples := length body_pos in
  let pct pos := percent_of (default O (position_counts s !! pos)) total_samples in
  let other_positions :=
    (fun count => percent_of count total_samples)
      <$> filter (fun kv => (3 < kv.1)%Z) (position_counts s) in
  let rem := rem_periods signals in
  let rem_percent := np_percent (count_if id rem) (length rem) in
  let nrem_percent := sub (Fin 100) rem_percent in
  (* lines 132-140 *)
  let total_events := (apneas s + hypopneas s)%nat in
  let obstructive := py_int (Q_of_nat (apneas s) * 0.75) in
  (* lines 171-193 *)
  let artifacts :=
    (count_if (fun f => Qltb 0.95 f) flow + count_if (fun f => Qltb f 0.05) flow)%nat in
  let spo2_original := map (fun x => 85 + x * 15) (spo2_n signals) in
  let desaturations := count_if (fun d => Qltb d (-3)) (diff spo2_original) in
  let snore_events := count_if (fun x => Qltb 0.7 x) (snore_n signals) in
  let pulse_original := map (fun x => 50 + x * 70) (pulse_n signals) in
  Ok {|
    Results.tib_hours := tib_hours;
    Results.patient_id := "11";
    Results.recording_date := "25-08-2025";
    Results.ahi := per_hour total_events tib_hours;
    Results.rdi := per_hour (total_events + flow_limitations s) tib_hours;
    Results.obstructive_apneas := obstructive;
    Results.central_apneas := (Z.of_nat (apneas s) - obstructive)%Z;
    Results.hypopneas := hypopneas s;
    Results.total_apneas := apneas s;
    Results.flow_limitations := flow_limitations s;
    Results.max_apnea_duration := max_apnea_duration s;
    Results.max_hypopnea_duration := max_hypopnea_duration s;
    Results.avg_apnea_duration := avg_duration (apnea_durations s);
    Results.avg_hypopnea_duration := avg_duration (hypopnea_durations s);
    Results.supine_percent := pct 0%Z;
    Results.left_percent := pct 1%Z;
    Results.right_percent := pct 2%Z;
    Results.prone_percent := pct 3%Z;
    Results.other_positions := other_positions;
    Results.supine_apneas := supine_apneas s;
    Results.supine_hypopneas := supine_hypopneas s;
    Results.non_supine_apneas := non_supine_apneas s;
    Results.non_supine_hypopneas := non_supine_hypopneas s;
    Results.rem_percent := rem_percent;
    Results.nrem_percent := nrem_percent;
    Results.rem_apneas := rem_apneas s;
    Results.rem_hypopneas := rem_hypopneas s;
    Results.nrem_apneas := nrem_apneas s;
    Results.nrem_hypopneas := nrem_hypopneas s;
    Results.rem_ahi :=
      stage_ahi (rem_apneas s + rem_hypopneas s) tib_hours rem_percent;
    Results.nrem_ahi :=
      stage_ahi (nrem_apneas s + nrem_hypopneas s) tib_hours nrem_percent;
    Results.artifact_percent := np_percent artifacts (length flow);
    Results.min_spo2 := series_min (of_Q spo2_original);
    Results.avg_spo2 := mean (of_Q spo2_original);
    Results.baseline_spo2 := median (of_Q spo2_original);
    Results.desat_count := desaturations;
    Results.desat_index := per_hour desaturations tib_hours;
    Results.time_below_90 :=
      np_percent (count_if (fun x => Qltb x 90) spo2_original)
                 (length spo2_original);
    Results.snore_index := per_hour snore_events tib_hours;
    Results.min_hr := series_min (of_Q pulse_original);
    Results.max_hr := series_max (of_Q pulse_original);
    Results.avg_hr := mean (of_Q pulse_original)
  |}.

(** The episodes the whole-study scan counts, read off the ghost trace. *)
Definition counted_events (sample_rate : Q) (signals : Signals)
  : result (list (EventType * nat * nat)) :=
  s <- loop sample_rate signals 0 (flow_n signals) init ;;
  Ok (closed s).

End SleepAnalysis.

(** * Vocabulary of the specification *)

(** [np.clip] on a finite value, as a function on rationals. *)
Definition clamp (lo hi a : Q) : Q :=
  if Qltb a lo then lo else if Qltb hi a then hi else a.

(** The affine map of line 52 followed by the clip of line 53. *)
Definition rescaled (mn mx x : Q) : Q := clamp 0 1 ((x - mn) / (mx - mn)).

Definition finite (x : float64) : Prop := exists q, x = Fin q.
Definition finite_or_nan (x : float64) : Prop := x = NaN \/ finite x.
Definition in_unit_interval (x : float64) : Prop :=
  exists q, x = Fin q /\ 0 <= q <= 1.

Definition is_finite (x : float64) : bool :=
  match x with Fin _ => true | _ => false end.

(** The entries of a channel that are numbers. *)
Definition valid_values (l : list float64) : list float64 :=
  List.filter is_finite l.

(** At least one entry is, after coercion, a finite number. *)
Definition has_valid_value (parse : string -> float64)
    (s : SignalProcessor.Series) : Prop :=
  exists q, In (Fin q) (SignalProcessor.to_numeric parse s).

(** Lines 42-44 on a series whose infinities are already [nan]. *)
Definition fill_value (l : list float64) : float64 :=
  if isna (fmedian l) then Fin 0 else fmedian l.

(** What a missing entry is replaced with: the median of the valid
    entries, [0.0] when there is none. *)
Definition missing_fill (l : list float64) : float64 :=
  let m := fmedian (valid_values l) in
  if isna m then Fin 0 else m.

(** "The minimum value maps to 0", for one channel. *)
Definition maps_min_to_zero (parse : string -> float64)
    (s : SignalProcessor.Series) : Prop :=
  forall out mn i,
    SignalProcessor.normalize parse (SignalProcessor.PySeries s) = Ok out ->
    series_min (SignalProcessor.clean parse s) = Fin mn ->
    SignalProcessor.clean parse s !! i = Some (Fin mn) ->
    exists y, out !! i = Some (Fin y) /\ y == 0.

(** Every channel has one entry per entry of the time axis. *)
Definition aligned (sig : Signals) : Prop :=
  length (flow_n sig) = length (time sig) /\
  length (body_pos_n sig) = length (time sig) /\
  length (activity_n sig) = length (time sig) /\
  length (spo2_n sig) = length (time sig) /\
  length (snore_n sig) = length (time sig) /\
  length (pulse_n sig) = length (time sig).

(** The sample lies in the apnea band or in the hypopnea band. *)
Definition in_band (f : Q) : bool :=
  SleepAnalysis.is_apnea f || SleepAnalysis.is_hypopnea f.

Definition band_type (f : Q) : EventType :=
  if SleepAnalysis.is_apnea f then Apnea else Hypopnea.

(** The episode automaton inside the whole-study loop: what one iteration
    does to [in_event] and to the trace of counted episodes. *)
Definition episode_step (min_samples : Z)
    (st : SleepAnalysis.episode * list (EventType * nat * nat)) (i : nat) (f : Q)
  : SleepAnalysis.episode * list (EventType * nat * nat) :=
  match fst st with
  | SleepAnalysis.Idle =>
      if in_band f then (SleepAnalysis.InEvent i (band_type f), snd st)
      else (SleepAnalysis.Idle, snd st)
  | SleepAnalysis.InEvent start ty =>
      if in_band f then st
      else (SleepAnalysis.Idle,
            if (min_samples <=? Z.of_nat (i - start))%Z
            then snd st ++ [(ty, start, i)] else snd st)
  end.

Fixpoint episode_run (min_samples : Z) (i : nat) (flow : list Q)
    (st : SleepAnalysis.episode * list (EventType * nat * nat))
  : SleepAnalysis.episode * list (EventType * nat * nat) :=
  match flow with
  | [] => st
  | f :: flow' =>
      episode_run min_samples (S i) flow' (episode_step min_samples st i f)
  end.

(** The integer position code of every sample, as line 58 reads it. *)
Definition position_codes (sig : Signals) : list Z := map py_int (body_pos_n sig).

Definition code_count (c : Z) (sig : Signals) : nat :=
  count_if (Z.eqb c) (position_codes sig).

(** The share of the samples with position code [c], in percent. *)
Definition code_share (c : Z) (sig : Signals) : Q :=
  Q_of_nat (code_count c sig) / Q_of_nat (length (position_codes sig)) * 100.

(** Lines 59-61, over a list of codes. *)
Definition tally_positions (codes : list Z) (m : gmap Z nat) : gmap Z nat :=
  foldl (fun m c => <[c := S (default O (m !! c))]> m) m codes.

(** The sample lies in the closed window [[a, b]]. *)
Definition in_window (a b : Q) (sample : Q * Q) : bool :=
  Qle_bool a sample.1 && Qle_bool sample.1 b.

(** "The scan covers exactly the samples with [a <= t < b]". *)
Definition scans_half_open (sig : Signals) (a b : Q) : Prop :=
  forall t f,
    In (t, f) (OSAAnalysis.window sig a b) <->
    In (t, f) (zip (time sig) (flow_n sig)) /\ a <= t /\ t < b.

(** An ascending time axis. *)
Definition ascending (ts : list Q) : Prop := StronglySorted Qle ts.

(** A windowed-mode event and a counted whole-study episode are the same
    event: same type, and the episode's two indices carry the event's
    start and end times. *)
Definition same_event (time : list Q) (e : OSAAnalysis.RespiratoryEvent)
    (c : EventType * nat * nat) : Prop :=
  OSAAnalysis.type e = c.1.1 /\
  time !! c.1.2 = Some (OSAAnalysis.start_time e) /\
  time !! c.2 = Some (OSAAnalysis.end_time e).

(** The time axis is sampled at exactly [sr] samples per second. *)
Definition uniform_axis (sr t0 : Q) (time : list Q) : Prop :=
  forall i t, time !! i = Some t -> t == t0 + Q_of_nat i / sr.

(** The time axis is sampled at [sr] samples per second up to a quarter
    of a sampling period: every stamp lies within [1 / (4 sr)] of
    [t0 + i / sr]. *)
Definition near_uniform_axis (sr t0 : Q) (time : list Q) : Prop :=
  forall i t, time !! i = Some t ->
    t0 + Q_of_nat i / sr - 1 / (4 * sr) <= t /\
    t <= t0 + Q_of_nat i / sr + 1 / (4 * sr).

(** The window [[a, b]] contains every episode: every sample in a band,
    and the sample after it (which is where an episode closes). *)
Definition window_contains_episodes (sig : Signals) (a b : Q) : Prop :=
  forall i t f,
    time sig !! i = Some t -> flow_n sig !! i = Some f -> in_band f = true ->
    a <= t /\ t <= b /\ (forall t', time sig !! S i = Some t' -> t' <= b).

(** How the two scans correspond, before the sample of index [j]. *)
Definition episodes_related (time : list Q) (j : nat)
    (e1 : OSAAnalysis.episode) (e2 : SleepAnalysis.episode) : Prop :=
  match e1, e2 with
  | OSAAnalysis.Idle, SleepAnalysis.Idle => True
  | OSAAnalysis.InEvent ts ty, SleepAnalysis.InEvent s ty' =>
      ty = ty' /\ (s < j)%nat /\ time !! s = Some ts
  | _, _ => False
  end.

Definition scans_related (time : list Q) (j : nat)
    (st : OSAAnalysis.episode * list OSAAnalysis.RespiratoryEvent)
    (ws : SleepAnalysis.episode * list (EventType * nat * nat)) : Prop :=
  episodes_related time j st.1 ws.1 /\ Forall2 (same_event time) st.2 ws.2.

Definition is_apnea_type (ty : EventType) : bool :=
  match ty with Apnea => true | Hypopnea => false end.

Definition is_hypopnea_type (ty : EventType) : bool :=
  match ty with Apnea => false | Hypopnea => true end.

(** The duration line 70 gives a counted episode. *)
Definition episode_duration (sr : Q) (c : EventType * nat * nat) : Q :=
  Q_of_nat (c.2 - c.1.2) / sr.

Definition apnea_episodes (log : list (EventType * nat * nat))
  : list (EventType * nat * nat) :=
  List.filter (fun c => is_apnea_type c.1.1) log.

Definition hypopnea_episodes (log : list (EventType * nat * nat))
  : list (EventType * nat * nat) :=
  List.filter (fun c => is_hypopnea_type c.1.1) log.

(** The counters and duration lists of the loop agree with the trace of
    counted episodes. *)
Definition tallies_agree (sr : Q) (s : SleepAnalysis.Locals) : Prop :=
  SleepAnalysis.apneas s = length (apnea_episodes (SleepAnalysis.closed s)) /\
  SleepAnalysis.hypopneas s = length (hypopnea_episodes (SleepAnalysis.closed s)) /\
  SleepAnalysis.apnea_durations s
    = map (episode_duration sr) (apnea_episodes (SleepAnalysis.closed s)) /\
  SleepAnalysis.hypopnea_durations s
    = map (episode_duration sr) (hypopnea_episodes (SleepAnalysis.closed s)) /\
  SleepAnalysis.max_apnea_duration s
    = foldl SleepAnalysis.py_max 0 (SleepAnalysis.apnea_durations s) /\
  SleepAnalysis.max_hypopnea_duration s
    = foldl SleepAnalysis.py_max 0 (SleepAnalysis.hypopnea_durations s).

(** ** Concrete studies *)

Definition constant_channel (n : nat) (x : Q) : list Q := replicate n x.

(** A study with the given time axis and flow channel; the other channels
    are constant. *)
Definition study (time flow : list Q) : Signals := {|
  time := time;
  flow_n := flow;
  body_pos_n := constant_channel (length time) 0;
  activity_n := constant_channel (length time) 0.5;
  spo2_n := constant_channel (length time) 1;
  snore_n := constant_channel (length time) 0;
  pulse_n := constant_channel (length time) 0.5
|}.

(** 600 samples at 10 Hz. *)
Definition test_time : list Q := map (fun i => Q_of_nat i / 10) (seq 0 600).

(** Flow 1.0 everywhere but for samples 100..219 (12 s) at 0.05. *)
Definition test_flow : list Q :=
  replicate 100 1 ++ replicate 120 0.05 ++ replicate 380 1.

Definition test_signals : Signals := study test_time test_flow.

(** One sample per second, with a 17 s gap in the recording. *)
Definition gap_signals : Signals :=
  study [0; 1; 2; 3; 20; 21] [1; 0.05; 0.05; 0.05; 1; 1].

(** One sample every four seconds (0.25 Hz); a dip of two samples. *)
Definition slow_signals : Signals :=
  study [0; 4; 8; 12] [1; 0.05; 0.05; 1].

(** One sample per second; two dips of 5 s separated by one sample at
    exactly 0.3. *)
Definition boundary_signals : Signals :=
  study [0; 1; 2; 3; 4; 5; 6; 7; 8; 9; 10; 11; 12; 13]
        [1; 0.05; 0.05; 0.05; 0.05; 0.05; 0.3;
         0.05; 0.05; 0.05; 0.05; 0.05; 1; 1].

(** One sample per second, the second stamp 0.2 s late; a dip of ten
    samples that opens at the late stamp. *)
Definition jitter_signals : Signals :=
  study [0; 1.2; 2; 3; 4; 5; 6; 7; 8; 9; 10; 11; 12]
        [1; 0.05; 0.05; 0.05; 0.05; 0.05; 0.05; 0.05; 0.05; 0.05; 0.05; 1; 1].

(** A study without any sample. *)
Definition empty_signals : Signals := study [] [].

(** A series with one pulse of three samples. *)
Definition pulse_series : list Q := [0; 0; 1; 1; 1; 0; 0].



(** Three samples on an ascending axis. *)
Definition three_samples : Signals := study [0; 1; 2] [1; 1; 1].

(** Raw position codes of six samples, as [load_data] extracts them. *)
Definition raw_positions : list Z := [0; 1; 2; 3; 4; 4]%Z.

Definition osa (sr : Q) : OSAAnalysis.t :=
  {| OSAAnalysis.sample_rate := sr; OSAAnalysis.detected_events := [] |}.

(** Six samples whose position channel is the normalised channel of the
    raw codes 0, 1, 2, 3, 4, 4. *)
Definition position_signals : Signals := {|
  time := [0; 1; 2; 3; 4; 5];
  flow_n := constant_channel 6 1;
  body_pos_n := [0 # 4; 1 # 4; 2 # 4; 3 # 4; 4 # 4; 4 # 4];
  activity_n := constant_channel 6 0.5;
  spo2_n := constant_channel 6 1;
  snore_n := constant_channel 6 0;
  pulse_n := constant_channel 6 0.5
|}.

(** * Further vocabulary *)

(** The position and sleep-stage buckets split the counted events. *)
Definition buckets_partition (s : SleepAnalysis.Locals) : Prop :=
  (SleepAnalysis.supine_apneas s + SleepAnalysis.non_supine_apneas s
   = SleepAnalysis.apneas s)%nat /\
  (SleepAnalysis.rem_apneas s + SleepAnalysis.nrem_apneas s
   = SleepAnalysis.apneas s)%nat /\
  (SleepAnalysis.supine_hypopneas s + SleepAnalysis.non_supine_hypopneas s
   = SleepAnalysis.hypopneas s)%nat /\
  (SleepAnalysis.rem_hypopneas s + SleepAnalysis.nrem_hypopneas s
   = SleepAnalysis.hypopneas s)%nat.


(** Samples [s .. i-1] of the flow channel are a maximal stretch of
    samples in a band, and sample [i] is the first one after it. *)
Definition maximal_run (flow : list Q) (s i : nat) : Prop :=
  (s < i)%nat /\
  (forall j, (s <= j < i)%nat -> exists f, flow !! j = Some f /\ in_band f = true) /\
  (exists g, flow !! i = Some g /\ in_band g = false) /\
  (s = 0%nat \/ exists g, flow !! (s - 1)%nat = Some g /\ in_band g = false).

(** What the whole-study scan should count: a maximal run of at least
    [N] samples, typed by its first sample. *)
Definition counted_episode (N : Z) (flow : list Q) (c : EventType * nat * nat) : Prop :=
  maximal_run flow c.1.2 c.2 /\
  (N <= Z.of_nat (c.2 - c.1.2))%Z /\
  exists f, flow !! c.1.2 = Some f /\ c.1.1 = band_type f.

(** The state of the episode automaton after the prefix [l] of the flow
    channel. *)
Definition episode_state_ok (l : list Q) (ep : SleepAnalysis.episode) : Prop :=
  match ep with
  | SleepAnalysis.Idle => forall g, last l = Some g -> in_band g = false
  | SleepAnalysis.InEvent s ty =>
      (s < length l)%nat /\
      (forall j, (s <= j < length l)%nat ->
                 exists f, l !! j = Some f /\ in_band f = true) /\
      (s = 0%nat \/ exists g, l !! (s - 1)%nat = Some g /\ in_band g = false) /\
      exists f, l !! s = Some f /\ ty = band_type f
  end.

(** The event [e] of the windowed mode is the episode that opens at
    sample [s] of the scanned window and closes at sample [i]: sample [s]
    is in a band and gives the type, sample [i] is above 0.3, no sample
    in between is, and the event lasts at least 10 s. *)
Definition windowed_episode (samples : list (Q * Q))
    (e : OSAAnalysis.RespiratoryEvent) (p : nat * nat) : Prop :=
  (p.1 < p.2)%nat /\
  (exists f, samples !! p.1 = Some (OSAAnalysis.start_time e, f) /\ f < 0.3 /\
             OSAAnalysis.type e = (if Qltb f 0.1 then Apnea else Hypopnea)) /\
  (exists g, samples !! p.2 = Some (OSAAnalysis.end_time e, g) /\ 0.3 < g) /\
  (forall j t f, (p.1 < j < p.2)%nat -> samples !! j = Some (t, f) -> f <= 0.3) /\
  OSAAnalysis.duration e = OSAAnalysis.end_time e - OSAAnalysis.start_time e /\
  10 <= OSAAnalysis.duration e.

(** The state of the windowed scan after the prefix [l] of the window,
    [idx] being the index pairs of the events returned so far. *)
Definition scan_state_ok (l : list (Q * Q)) (idx : list (nat * nat))
    (ep : OSAAnalysis.episode) : Prop :=
  match ep with
  | OSAAnalysis.Idle => True
  | OSAAnalysis.InEvent ts ty =>
      exists s f,
        l !! s = Some (ts, f) /\ f < 0.3 /\
        ty = (if Qltb f 0.1 then Apnea else Hypopnea) /\
        (forall j t g, (s < j)%nat -> l !! j = Some (t, g) -> g <= 0.3) /\
        Forall (fun p : nat * nat => (p.2 < s)%nat) idx
  end.

(** A normalised channel: every value lies in [[0, 1]]. *)
Definition unit_channel (l : list Q) : Prop := Forall (fun x => 0 <= x /\ x <= 1) l.

(** A float64 that is a number between [lo] and [hi]. *)
Definition finite_between (lo hi : Q) (x : float64) : Prop :=
  exists q, x = Fin q /\ lo <= q /\ q <= hi.

(** The key under which the normaliser stores the signal read under
    [key]: the time axis keeps its key, every other key gets the suffix
    [_n]. *)
Definition normalized_key (key : string) : string :=
  if String.eqb key "time" then key else String.append key "_n".

(** The entry stored for an item of [signals] when nothing fails: the
    time axis as it is, every other signal normalised. *)
Definition normalized_item (parse : string -> float64)
    (item : string * SignalProcessor.pyvalue) : string * SignalProcessor.pyvalue :=
  (normalized_key item.1,
   if String.eqb item.1 "time" then item.2
   else match SignalProcessor.normalize parse item.2 with
        | Ok l => SignalProcessor.series_value l
        | Raise _ => item.2
        end).

(** The entry of the fallback dictionary: zeros in place of the signal. *)
Definition fallback_item (n : nat)
    (item : string * SignalProcessor.pyvalue) : string * SignalProcessor.pyvalue :=
  (normalized_key item.1,
   if String.eqb item.1 "time" then item.2
   else SignalProcessor.series_value (replicate n (Fin 0))).

(** [signals] is a dictionary: no key occurs twice. *)
Definition is_dict {V : Type} (d : SignalProcessor.dict V) : Prop :=
  List.NoDup (SignalProcessor.dict_keys d).

(** A dictionary of raw signals with a time axis and an airflow channel,
    and a processor whose sample rate is not a number. *)
Definition raw_signals : SignalProcessor.dict SignalProcessor.pyvalue :=
  [("time"%string, SignalProcessor.series_value [Fin 0; Fin 1; NaN; Fin 3]);
   ("flow"%string, SignalProcessor.series_value [Fin 2; Fin 4; Fin 6; Fin 8]);
   ("spo2"%string, SignalProcessor.series_value [Fin 95; Fin 96; Fin 97; Fin 98])].

Definition nan_rate : SignalProcessor.t := {| SignalProcessor.sample_rate := NaN |}.


(** The slow study with two samples of low activity (REM) and two of
    higher activity (NREM). *)
Definition staged_signals : Signals := {|
  time := [0; 4; 8; 12];
  flow_n := [1; 0.05; 0.05; 1];
  body_pos_n := constant_channel 4 0;
  activity_n := [0.1; 0.1; 0.5; 0.5];
  spo2_n := constant_channel 4 1;
  snore_n := constant_channel 4 0;
  pulse_n := constant_channel 4 0.5
|}.

(** Two channels hold the same numbers, position by position. *)
Definition same_values (l k : list float64) : Prop :=
  Forall2 (fun x y => exists a b, x = Fin a /\ y = Fin b /\ a == b) l k.

(** What line 58 reads off the normalised channel of the raw position
    codes [codes], whose least and greatest codes are [lo] and [hi]: 1
    off a sample with the greatest raw code, 0 off every other sample,
    and 0 off every sample when all raw codes are equal. *)
Definition reads_as_one (lo hi c : Z) : bool :=
  negb (lo =? hi)%Z && (c =? hi)%Z.

Definition collapsed_code (lo hi c : Z) : Z :=
  if reads_as_one lo hi c then 1%Z else 0%Z.

(** Raw codes small enough for the float64 quotients of their differences
    to be exact enough: a quotient below 1 is not rounded to 1. *)
Definition small_codes (codes : list Z) : Prop :=
  Forall (fun c => (Z.abs c < 2 ^ 52)%Z) codes.

(** The share, in percent, of the raw codes that satisfy [p]. *)
Definition raw_share (p : Z -> bool) (codes : list Z) : Q :=
  Q_of_nat (count_if p codes) / Q_of_nat (length codes) * 100.

(** ** Ranges *)

(** A number of magnitude at most [b]. *)
Definition bounded (b q : Q) : Prop := - b <= q /\ q <= b.

Definition bounded_float (b : Q) (x : float64) : Prop :=
  exists q, x = Fin q /\ bounded b q.

Definition bounded_or_nan (b : Q) (x : float64) : Prop :=
  x = NaN \/ bounded_float b x.

(** The size up to which the differences of line 52 of the normaliser are
    exact: half of the largest float64 for a float64 channel, [2^62 - 1]
    for a channel that is, or that [pd.to_numeric] may read as, an int64
    channel. *)
Definition range_bound (s : SignalProcessor.Series) : Q :=
  match s with
  | SignalProcessor.NumericSeries _ => max_float / 2
  | _ => inject_Z (2 ^ 62 - 1)
  end.

(** The valid values of the channel are of that size at most. *)
Definition within_range (parse : string -> float64)
    (s : SignalProcessor.Series) : Prop :=
  forall q, In (Fin q) (SignalProcessor.to_numeric parse s) ->
            bounded (range_bound s) q.

(** The same as a test, for concrete channels. *)
Definition boundedb (b q : Q) : bool := Qle_bool (- b) q && Qle_bool q b.

Definition within_rangeb (parse : string -> float64)
    (s : SignalProcessor.Series) : bool :=
  forallb (fun x => match x with
                    | Fin q => boundedb (range_bound s) q
                    | _ => true
                    end)
          (SignalProcessor.to_numeric parse s).

(** The same for whatever is handed to the normaliser. *)
Definition value_within_range (parse : string -> float64)
    (v : SignalProcessor.pyvalue) : Prop :=
  match v with
  | SignalProcessor.PySeries s => within_range parse s
  | _ => True
  end.

(** A stamp at most nine thousand million seconds from the epoch: a
    pandas timestamp, with a margin of two centuries to the last one. *)
Definition timestamp_safe : Q := 9000000000.

Definition in_safe_range (t : Q) : bool :=
  Qle_bool (- timestamp_safe) t && Qle_bool t timestamp_safe.

(** The first and the last stamp of the time axis lie in that range, and
    so does their difference: all three are pandas timestamps or
    timedeltas. *)
Definition datetimes_ok (time : list Q) : Prop :=
  match last time, time !! 0%nat with
  | Some t_last, Some t_first =>
      in_safe_range t_last && in_safe_range t_first
      && in_safe_range (t_last - t_first) = true
  | _, _ => True
  end.

(** Ten times the sample rate is a float64. *)
Definition rate_ok (sr : Q) : Prop := bounded max_float (10 * sr).

(** * Properties *)

(** ** Comparisons on rationals *)

Lemma Qltb_lt (x y : Q) : Qltb x y = true <-> x < y.
Proof.
  unfold Qltb. rewrite negb_true_iff, <- not_true_iff_false, Qle_bool_iff.
  split; intros H; lra.
Qed.

Lemma Qltb_ge (x y : Q) : Qltb x y = false <-> y <= x.
Proof.
  unfold Qltb. rewrite negb_false_iff, Qle_bool_iff. reflexivity.
Qed.

Lemma Qle_bool_gt (x y : Q) : Qle_bool x y = false <-> y < x.
Proof.
  rewrite <- not_true_iff_false, Qle_bool_iff. split; intros H; lra.
Qed.


Lemma clamp_bounds (lo hi a : Q) : lo <= hi -> lo <= clamp lo hi a <= hi.
Proof.
  intros Hle. unfold clamp.
  destruct (Qltb a lo) eqn:E1; [lra|].
  destruct (Qltb hi a) eqn:E2; [lra|].
  apply Qltb_ge in E1, E2. lra.
Qed.

Lemma clip_Fin (lo hi a : Q) : clip lo hi (Fin a) = Fin (clamp lo hi a).
Proof.
  unfold clip, clamp. destruct (Qltb a lo); [reflexivity|].
  destruct (Qltb hi a); reflexivity.
Qed.

(** ** Overflow *)

Lemma max_float_large : inject_Z (2 ^ 64) <= max_float.
Proof. apply Qle_bool_iff. vm_compute. reflexivity. Qed.

Lemma max_float_pos : 0 < max_float.
Proof.
  apply Qlt_le_trans with (inject_Z (2 ^ 64)); [|apply max_float_large].
  apply Qltb_lt. vm_compute. reflexivity.
Qed.

Lemma overflow_Fin (q : Q) : bounded max_float q -> overflow (Fin q) = Fin q.
Proof.
  intros [Hlo Hhi]. unfold overflow.
  assert (E1 : Qltb max_float q = false) by (apply Qltb_ge; exact Hhi).
  assert (E2 : Qltb q (- max_float) = false) by (apply Qltb_ge; exact Hlo).
  rewrite E1, E2. reflexivity.
Qed.

Lemma bounded_mono (b c q : Q) : b <= c -> bounded b q -> bounded c q.
Proof. intros Hbc [H1 H2]. split; lra. Qed.

Lemma int_bound_half : inject_Z (2 ^ 62 - 1) <= max_float / 2.
Proof.
  pose proof max_float_large as H.
  assert (E : inject_Z (2 ^ 62 - 1) <= inject_Z (2 ^ 64) / 2).
  { apply Qle_bool_iff. vm_compute. reflexivity. }
  assert (E2 : inject_Z (2 ^ 64) / 2 <= max_float / 2).
  { apply Qmult_le_compat_r; [exact H|]. apply Qle_bool_iff. reflexivity. }
  lra.
Qed.

Lemma range_bound_half (s : SignalProcessor.Series) :
  range_bound s <= max_float / 2.
Proof. destruct s; simpl; [lra|apply int_bound_half..]. Qed.

Lemma half_twice : max_float / 2 + max_float / 2 == max_float.
Proof. field. Qed.

Lemma half_pos : 0 < max_float / 2.
Proof.
  pose proof max_float_pos as H. pose proof half_twice as E.
  set (h := max_float / 2) in *. lra.
Qed.

Lemma fadd_bounded (a b : Q) :
  bounded (max_float / 2) a -> bounded (max_float / 2) b ->
  fadd (Fin a) (Fin b) = Fin (a + b).
Proof.
  intros [Ha1 Ha2] [Hb1 Hb2]. unfold fadd. simpl add. apply overflow_Fin.
  pose proof half_twice as E. set (h := max_float / 2) in *. split; lra.
Qed.

Lemma fsub_bounded (a b : Q) :
  bounded (max_float / 2) a -> bounded (max_float / 2) b ->
  fsub (Fin a) (Fin b) = Fin (a - b).
Proof.
  intros [Ha1 Ha2] [Hb1 Hb2]. unfold fsub, sub. simpl add.
  change (a + - b) with (a - b). apply overflow_Fin.
  pose proof half_twice as E. set (h := max_float / 2) in *. split; lra.
Qed.

Lemma fdiv_bounded (a b : Q) :
  ~ b == 0 -> bounded max_float (a / b) -> fdiv (Fin a) (Fin b) = Fin (a / b).
Proof.
  intros Hb Hq. unfold fdiv, div.
  assert (E : Qeq_bool b 0 = false).
  { apply not_true_iff_false. intros E. apply Hb, Qeq_bool_iff, E. }
  rewrite E. apply overflow_Fin, Hq.
Qed.

Lemma ratio_unit (a d : Q) : 0 <= a -> a <= d -> 0 < d -> 0 <= a / d /\ a / d <= 1.
Proof.
  intros Ha Had Hd. split.
  - apply Qle_shift_div_l; [exact Hd|]. lra.
  - apply Qle_shift_div_r; [exact Hd|]. lra.
Qed.

(** ** The normaliser *)

Lemma Forall_bounded_map (b : Q) (l : list float64) :
  Forall (bounded_float b) l ->
  exists vals, l = map Fin vals /\ Forall (bounded b) vals.
Proof.
  induction 1 as [|x l (q & -> & Hq) _ (vals & -> & Hv)].
  - exists []. split; [reflexivity|constructor].
  - exists (q :: vals). split; [reflexivity|constructor; assumption].
Qed.

Lemma Forall_finite_map (l : list float64) :
  Forall finite l -> exists vals, l = map Fin vals.
Proof.
  induction 1 as [|x l [q ->] _ [vals ->]].
  - exists []. reflexivity.
  - exists (q :: vals). reflexivity.
Qed.

Lemma dropna_bounded (b : Q) (l : list float64) :
  Forall (bounded_or_nan b) l -> Forall (bounded_float b) (dropna l).
Proof.
  intros H. apply Forall_forall. intros x Hx.
  apply list_elem_of_filter in Hx as [Hna Hx].
  rewrite Forall_forall in H. destruct (H x Hx) as [->|Hf]; [discriminate|exact Hf].
Qed.

Lemma dropna_map_Fin (vals : list Q) : dropna (map Fin vals) = map Fin vals.
Proof.
  induction vals as [|v vals IH]; [reflexivity|].
  simpl. unfold dropna in *. rewrite filter_cons_True by reflexivity.
  f_equal. exact IH.
Qed.

Lemma insert_sorted_Forall (P : float64 -> Prop) x l :
  P x -> Forall P l -> Forall P (insert_sorted x l).
Proof.
  intros Hx. induction 1 as [|y l Hy Hl IH]; simpl.
  - constructor; [exact Hx|constructor].
  - destruct (leb x y); repeat constructor; assumption.
Qed.

Lemma sort_Forall (P : float64 -> Prop) l : Forall P l -> Forall P (sort l).
Proof.
  induction 1 as [|x l Hx Hl IH]; simpl; [constructor|].
  apply insert_sorted_Forall; assumption.
Qed.

Lemma nth_Forall (P : float64 -> Prop) (l : list float64) (i : nat) d :
  Forall P l -> (i < length l)%nat -> P (nth i l d).
Proof.
  intros H. revert i. induction H as [|x l Hx Hl IH]; intros [|i] Hi; simpl in *;
    try lia; [exact Hx|apply IH; lia].
Qed.

(** The median of values of at most half the largest float64 does not
    overflow. *)
Lemma fmedian_bounded (l : list float64) :
  Forall (bounded_or_nan (max_float / 2)) l ->
  bounded_or_nan (max_float / 2) (fmedian l).
Proof.
  intros H. unfold fmedian.
  pose proof (sort_Forall _ _ (dropna_bounded _ _ H)) as Hs.
  set (s := sort (dropna l)) in *.
  destruct (length s) as [|n] eqn:Hn; [left; reflexivity|].
  right.
  assert (Hlt : (S n / 2 < length s)%nat).
  { rewrite Hn. apply Nat.div_lt; lia. }
  destruct (Nat.even (S n)).
  - destruct (nth_Forall _ s (S n / 2 - 1) NaN Hs ltac:(lia)) as (a & -> & Ha).
    destruct (nth_Forall _ s (S n / 2) NaN Hs Hlt) as (b & -> & Hb).
    rewrite (fadd_bounded a b Ha Hb).
    pose proof half_pos as Hpos. pose proof half_twice as Htw.
    destruct Ha as [Ha1 Ha2], Hb as [Hb1 Hb2].
    set (h := max_float / 2) in *.
    assert (Hq : bounded h ((a + b) / 2)).
    { split; [apply Qle_shift_div_l|apply Qle_shift_div_r];
        try reflexivity; lra. }
    rewrite fdiv_bounded.
    + exists ((a + b) / 2). split; [reflexivity|exact Hq].
    + intros E. revert E. unfold Qeq. simpl. lia.
    + apply (bounded_mono h); [lra|exact Hq].
  - apply nth_Forall; assumption.
Qed.

Lemma replace_inf_bounded parse (s : SignalProcessor.Series) :
  within_range parse s ->
  Forall (bounded_or_nan (max_float / 2))
    (map SignalProcessor.replace_inf (SignalProcessor.to_numeric parse s)).
Proof.
  intros Hr. apply Forall_forall. intros x Hx.
  apply list_elem_of_In, in_map_iff in Hx as [y [<- Hy]].
  destruct y as [q| | |]; simpl; [right|left..]; try reflexivity.
  exists q. split; [reflexivity|].
  apply (bounded_mono (range_bound s)); [apply range_bound_half|apply Hr, Hy].
Qed.

Lemma replace_inf_finite_or_nan parse (s : SignalProcessor.Series) :
  Forall finite_or_nan
    (map SignalProcessor.replace_inf (SignalProcessor.to_numeric parse s)).
Proof.
  apply Forall_forall. intros x Hx.
  apply list_elem_of_In, in_map_iff in Hx as [y [<- _]].
  destruct y; simpl; [right; eexists; reflexivity|left..]; reflexivity.
Qed.

Lemma existsb_isna_false (l : list float64) :
  Forall finite_or_nan l -> existsb isna l = false -> Forall finite l.
Proof.
  induction 1 as [|x l Hx Hl IH]; simpl; intros E; [constructor|].
  apply orb_false_iff in E as [E1 E2].
  constructor; [|apply IH, E2].
  destruct Hx as [->|Hx]; [discriminate|exact Hx].
Qed.

Lemma existsb_isna_bounded (b : Q) (l : list float64) :
  Forall (bounded_or_nan b) l -> existsb isna l = false ->
  Forall (bounded_float b) l.
Proof.
  induction 1 as [|x l Hx Hl IH]; simpl; intros E; [constructor|].
  apply orb_false_iff in E as [E1 E2].
  constructor; [|apply IH, E2].
  destruct Hx as [->|Hx]; [discriminate|exact Hx].
Qed.

Lemma fillna_bounded (b : Q) (m : float64) (l : list float64) :
  bounded_float b m -> Forall (bounded_or_nan b) l ->
  Forall (bounded_float b) (SignalProcessor.fillna m l).
Proof.
  intros Hm H. unfold SignalProcessor.fillna. apply List.Forall_map.
  eapply Forall_impl; [exact H|].
  intros x [->|(q & -> & Hq)]; simpl; [exact Hm|exists q; split; [reflexivity|exact Hq]].
Qed.

Lemma fill_value_bounded (l : list float64) :
  Forall (bounded_or_nan (max_float / 2)) l ->
  bounded_float (max_float / 2) (fill_value l).
Proof.
  intros H. unfold fill_value.
  destruct (fmedian_bounded l H) as [->|(q & -> & Hq)]; simpl.
  - exists 0. split; [reflexivity|]. pose proof half_pos.
    set (h := max_float / 2) in *. split; lra.
  - exists q. split; [reflexivity|exact Hq].
Qed.

Lemma fill_missing_bounded (l : list float64) :
  Forall (bounded_or_nan (max_float / 2)) l ->
  Forall (bounded_float (max_float / 2)) (SignalProcessor.fill_missing l).
Proof.
  intros H. unfold SignalProcessor.fill_missing.
  destruct (existsb isna l) eqn:E.
  - apply fillna_bounded; [apply (fill_value_bounded l H)|exact H].
  - apply existsb_isna_bounded; assumption.
Qed.

(** The cleaned channel of a channel within range holds numbers only,
    none beyond half the largest float64. *)
Lemma clean_bounded parse (s : SignalProcessor.Series) :
  within_range parse s ->
  exists vals, SignalProcessor.clean parse s = map Fin vals /\
               Forall (bounded (max_float / 2)) vals.
Proof.
  intros Hr. apply Forall_bounded_map, fill_missing_bounded, replace_inf_bounded, Hr.
Qed.

Import SignalProcessor.

Lemma foldl_min2_spec (vals : list Q) (v : Q) :
  exists m, foldl min2 (Fin v) (map Fin vals) = Fin m /\
            In m (v :: vals) /\ forall x, In x (v :: vals) -> m <= x.
Proof.
  revert v. induction vals as [|w vals IH]; intros v; simpl.
  - exists v. split; [reflexivity|]. split; [left; reflexivity|].
    intros x [<-|[]]. lra.
  - unfold min2 at 2. simpl. destruct (Qle_bool w v) eqn:E.
    + apply Qle_bool_iff in E.
      destruct (IH w) as (m & Hm & Hin & Hle). exists m.
      split; [exact Hm|]. split; [right; exact Hin|].
      intros x [<-|Hx]; [|apply Hle, Hx].
      specialize (Hle w (or_introl eq_refl)). lra.
    + apply Qle_bool_gt in E.
      destruct (IH v) as (m & Hm & Hin & Hle). exists m.
      split; [exact Hm|]. split; [destruct Hin as [<-|Hin]; [left|right; right]; auto|].
      intros x [<-|[<-|Hx]].
      * apply Hle. left. reflexivity.
      * specialize (Hle v (or_introl eq_refl)). lra.
      * apply Hle. right. exact Hx.
Qed.

Lemma foldl_max2_spec (vals : list Q) (v : Q) :
  exists m, foldl max2 (Fin v) (map Fin vals) = Fin m /\
            In m (v :: vals) /\ forall x, In x (v :: vals) -> x <= m.
Proof.
  revert v. induction vals as [|w vals IH]; intros v; simpl.
  - exists v. split; [reflexivity|]. split; [left; reflexivity|].
    intros x [<-|[]]. lra.
  - unfold max2 at 2. simpl. destruct (Qle_bool v w) eqn:E.
    + apply Qle_bool_iff in E.
      destruct (IH w) as (m & Hm & Hin & Hle). exists m.
      split; [exact Hm|]. split; [right; exact Hin|].
      intros x [<-|Hx]; [|apply Hle, Hx].
      specialize (Hle w (or_introl eq_refl)). lra.
    + apply Qle_bool_gt in E.
      destruct (IH v) as (m & Hm & Hin & Hle). exists m.
      split; [exact Hm|]. split; [destruct Hin as [<-|Hin]; [left|right; right]; auto|].
      intros x [<-|[<-|Hx]].
      * apply Hle. left. reflexivity.
      * specialize (Hle v (or_introl eq_refl)). lra.
      * apply Hle. right. exact Hx.
Qed.

Lemma series_min_spec (vals : list Q) :
  vals <> [] ->
  exists m, series_min (map Fin vals) = Fin m /\
            In m vals /\ forall x, In x vals -> m <= x.
Proof.
  intros Hne. unfold series_min. rewrite dropna_map_Fin.
  destruct vals as [|v vals]; [congruence|]. apply foldl_min2_spec.
Qed.

Lemma series_max_spec (vals : list Q) :
  vals <> [] ->
  exists m, series_max (map Fin vals) = Fin m /\
            In m vals /\ forall x, In x vals -> x <= m.
Proof.
  intros Hne. unfold series_max. rewrite dropna_map_Fin.
  destruct vals as [|v vals]; [congruence|]. apply foldl_max2_spec.
Qed.

(** On numbers of at most half the largest float64 neither difference of
    line 52 overflows, and the quotient lies between 0 and 1. *)
Lemma rescale_bounded (vals : list Q) (mn mx : Q) :
  Forall (bounded (max_float / 2)) vals ->
  series_min (map Fin vals) = Fin mn ->
  series_max (map Fin vals) = Fin mx ->
  In mn vals -> In mx vals -> (forall x, In x vals -> mn <= x <= mx) ->
  rescale (map Fin vals) =
    if Qeq_bool mn mx then replicate (length vals) (Fin 0.5)
    else map (fun x => Fin (rescaled mn mx x)) vals.
Proof.
  intros Hb Hmn Hmx Hmnin Hmxin Hle. unfold rescale. rewrite Hmn, Hmx. simpl eqb.
  destruct (Qeq_bool mn mx) eqn:E.
  - rewrite length_map. reflexivity.
  - rewrite map_map. apply map_ext_in. intros x Hx.
    rewrite List.Forall_forall in Hb.
    rewrite (fsub_bounded x mn (Hb x Hx) (Hb mn Hmnin)).
    rewrite (fsub_bounded mx mn (Hb mx Hmxin) (Hb mn Hmnin)).
    assert (Hd : 0 < mx - mn).
    { destruct (Hle mx Hmxin) as [H1 _].
      assert (Hne : ~ mn == mx).
      { intros Hq. apply Qeq_bool_iff in Hq. congruence. }
      lra. }
    destruct (Hle x Hx) as [Hx1 Hx2].
    destruct (ratio_unit (x - mn) (mx - mn)) as [Hr1 Hr2]; [lra..|].
    rewrite fdiv_bounded.
    + apply clip_Fin.
    + lra.
    + pose proof max_float_large. split; [|].
      * apply Qle_trans with 0; [|exact Hr1].
        pose proof max_float_pos. lra.
      * apply Qle_trans with 1; [exact Hr2|].
        apply Qle_trans with (inject_Z (2 ^ 64)); [|assumption].
        apply Qle_bool_iff. reflexivity.
Qed.

Lemma rescaled_unit (mn mx x : Q) : 0 <= rescaled mn mx x <= 1.
Proof. apply clamp_bounds. lra. Qed.

Lemma rescaled_min (mn mx x : Q) : x == mn -> rescaled mn mx x == 0.
Proof.
  intros Hx. unfold rescaled, clamp.
  assert (H0 : (x - mn) / (mx - mn) == 0).
  { assert (Hz : x - mn == 0) by lra. unfold Qdiv. rewrite Hz. apply Qmult_0_l. }
  destruct (Qltb _ 0) eqn:E1; [reflexivity|].
  destruct (Qltb 1 _) eqn:E2; [apply Qltb_lt in E2; lra|exact H0].
Qed.

Lemma rescaled_max (mn mx x : Q) : ~ mn == mx -> x == mx -> rescaled mn mx x == 1.
Proof.
  intros Hne Hx. unfold rescaled, clamp.
  assert (H1 : (x - mn) / (mx - mn) == 1).
  { assert (Hz : x - mn == mx - mn) by lra. rewrite Hz. field. lra. }
  destruct (Qltb _ 0) eqn:E1; [apply Qltb_lt in E1; lra|].
  destruct (Qltb 1 _) eqn:E2; [reflexivity|exact H1].
Qed.

Lemma clamp_Qeq (lo hi a b : Q) : a == b -> clamp lo hi a == clamp lo hi b.
Proof.
  intros E. unfold clamp.
  assert (E1 : Qltb a lo = Qltb b lo).
  { destruct (Qltb b lo) eqn:F; [apply Qltb_lt in F; apply Qltb_lt; lra|].
    apply Qltb_ge in F. apply Qltb_ge. lra. }
  assert (E2 : Qltb hi a = Qltb hi b).
  { destruct (Qltb hi b) eqn:F; [apply Qltb_lt in F; apply Qltb_lt; lra|].
    apply Qltb_ge in F. apply Qltb_ge. lra. }
  rewrite E1, E2. destruct (Qltb b lo); [reflexivity|].
  destruct (Qltb hi b); [reflexivity|exact E].
Qed.

Lemma clean_length parse (s : Series) :
  length (clean parse s) = length (to_numeric parse s).
Proof.
  unfold clean, fill_missing, fillna.
  destruct (existsb _ _); rewrite ?length_map; reflexivity.
Qed.

Lemma py_len_series parse (s : Series) :
  py_len (PySeries s) = Ok (length (to_numeric parse s)).
Proof. destruct s; simpl; rewrite ?length_map; reflexivity. Qed.

(** A float64 or object series that is not empty: the cleaned series is
    rescaled. *)
Lemma normalize_series parse (s : Series) :
  to_numeric parse s <> [] ->
  (forall l, s <> IntSeries l) ->
  normalize parse (PySeries s) = Ok (rescale (clean parse s)).
Proof.
  intros Hne Hint. unfold normalize, normalize_body.
  rewrite (py_len_series parse s). simpl.
  destruct (to_numeric parse s) eqn:E; [congruence|]. simpl.
  destruct s; [reflexivity| |reflexivity]. exfalso. eapply Hint. reflexivity.
Qed.

Lemma normalize_int_series parse (l : list Z) :
  l <> [] -> normalize parse (PySeries (IntSeries l)) = Ok (rescale_int l).
Proof. intros Hne. destruct l; [congruence|]. reflexivity. Qed.

Lemma normalize_empty parse (s : Series) :
  to_numeric parse s = [] ->
  normalize parse (PySeries s) = Ok (replicate 100 (Fin 0.5)).
Proof.
  intros Hs. unfold normalize, normalize_body.
  rewrite (py_len_series parse s), Hs. reflexivity.
Qed.

(** [normalize] returns on every input. *)
Lemma normalize_returns parse (v : pyvalue) : exists out, normalize parse v = Ok out.
Proof.
  unfold normalize, try_except.
  destruct (normalize_body parse v); eexists; reflexivity.
Qed.

(** *** An int64 channel *)

Lemma foldl_Zmin_spec (l : list Z) (z : Z) :
  In (foldl Z.min z l) (z :: l) /\
  forall x, In x (z :: l) -> (foldl Z.min z l <= x)%Z.
Proof.
  revert z. induction l as [|w l IH]; intros z; simpl.
  - split; [left; reflexivity|]. intros x [<-|[]]. lia.
  - destruct (IH (Z.min z w)) as [Hin Hle]. split.
    + destruct Hin as [Hin|Hin]; [|right; right; exact Hin].
      rewrite <- Hin. destruct (Z.min_spec z w) as [[_ ->]|[_ ->]]; auto.
    + intros x Hx.
      pose proof (Hle (Z.min z w) (or_introl eq_refl)) as H0.
      destruct Hx as [<-|[<-|Hx]]; [lia|lia|]. apply Hle. right. exact Hx.
Qed.

Lemma foldl_Zmax_spec (l : list Z) (z : Z) :
  In (foldl Z.max z l) (z :: l) /\
  forall x, In x (z :: l) -> (x <= foldl Z.max z l)%Z.
Proof.
  revert z. induction l as [|w l IH]; intros z; simpl.
  - split; [left; reflexivity|]. intros x [<-|[]]. lia.
  - destruct (IH (Z.max z w)) as [Hin Hle]. split.
    + destruct Hin as [Hin|Hin]; [|right; right; exact Hin].
      rewrite <- Hin. destruct (Z.max_spec z w) as [[_ ->]|[_ ->]]; auto.
    + intros x Hx.
      pose proof (Hle (Z.max z w) (or_introl eq_refl)) as H0.
      destruct Hx as [<-|[<-|Hx]]; [lia|lia|]. apply Hle. right. exact Hx.
Qed.

Lemma wrap_int64_small (z : Z) :
  (- 2 ^ 63 <= z < 2 ^ 63)%Z -> wrap_int64 z = z.
Proof. intros H. unfold wrap_int64. rewrite Z.mod_small; lia. Qed.

Lemma bounded_int (z : Z) :
  bounded (inject_Z (2 ^ 62 - 1)) (inject_Z z) -> (- (2 ^ 62 - 1) <= z <= 2 ^ 62 - 1)%Z.
Proof.
  intros [H1 H2]. rewrite <- inject_Z_opp in H1.
  rewrite <- Zle_Qle in H1, H2. lia.
Qed.

(** While no difference wraps, the int64 path computes the quotients of
    the exact differences. *)
Lemma rescale_int_bounded (l : list Z) :
  l <> [] ->
  (forall z, In z l -> bounded (inject_Z (2 ^ 62 - 1)) (inject_Z z)) ->
  exists mn mx,
    In mn l /\ In mx l /\ (forall z, In z l -> (mn <= z <= mx)%Z) /\
    rescale_int l =
      if (mn =? mx)%Z then replicate (length l) (Fin 0.5)
      else map (fun z => Fin (clamp 0 1 (inject_Z (z - mn) / inject_Z (mx - mn)))) l.
Proof.
  intros Hne Hb. destruct l as [|z0 l]; [congruence|].
  destruct (foldl_Zmin_spec l z0) as [Hmnin Hmn].
  destruct (foldl_Zmax_spec l z0) as [Hmxin Hmx].
  exists (foldl Z.min z0 l), (foldl Z.max z0 l).
  split; [exact Hmnin|]. split; [exact Hmxin|].
  split; [intros z Hz; split; [apply Hmn|apply Hmx]; exact Hz|].
  unfold rescale_int.
  set (mn := foldl Z.min z0 l) in *. set (mx := foldl Z.max z0 l) in *.
  destruct (mn =? mx)%Z eqn:E; [reflexivity|].
  apply Z.eqb_neq in E.
  pose proof (bounded_int mn (Hb mn Hmnin)) as Bmn.
  pose proof (bounded_int mx (Hb mx Hmxin)) as Bmx.
  pose proof (Hmn mx Hmxin) as Hmm.
  apply map_ext_in. intros x Hx.
  pose proof (bounded_int x (Hb x Hx)) as Bx.
  pose proof (Hmn x Hx) as Hx1. pose proof (Hmx x Hx) as Hx2.
  rewrite !wrap_int64_small by lia. unfold of_int.
  assert (Hd : 0 < inject_Z (mx - mn)).
  { change 0 with (inject_Z 0). rewrite <- Zlt_Qlt. lia. }
  assert (Ha : 0 <= inject_Z (x - mn)).
  { change 0 with (inject_Z 0). rewrite <- Zle_Qle. lia. }
  assert (Had : inject_Z (x - mn) <= inject_Z (mx - mn)).
  { rewrite <- Zle_Qle. lia. }
  destruct (ratio_unit _ _ Ha Had Hd) as [Hr1 Hr2].
  rewrite fdiv_bounded.
  - apply clip_Fin.
  - lra.
  - pose proof max_float_large. pose proof max_float_pos. split.
    + apply Qle_trans with 0; [lra|exact Hr1].
    + apply Qle_trans with 1; [exact Hr2|].
      apply Qle_trans with (inject_Z (2 ^ 64)); [|assumption].
      apply Qle_bool_iff. reflexivity.
Qed.

Lemma map_Fin_inj (a b : list Q) : map Fin a = map Fin b -> a = b.
Proof.
  revert b. induction a as [|x a IH]; intros [|y b] H; simpl in H;
    try discriminate; [reflexivity|].
  injection H as -> H. f_equal. apply IH, H.
Qed.

Lemma clean_numbers parse (vals : list Q) :
  clean parse (NumericSeries (map Fin vals)) = map Fin vals.
Proof.
  unfold clean, fill_missing. simpl to_numeric.
  assert (E : map replace_inf (map Fin vals) = map Fin vals).
  { rewrite map_map. reflexivity. }
  rewrite E. clear E.
  assert (F : existsb isna (map Fin vals) = false).
  { induction vals; [reflexivity|]. simpl. exact IHvals. }
  rewrite F. reflexivity.
Qed.

Lemma clean_int_series parse (l : list Z) :
  clean parse (IntSeries l) = map Fin (map inject_Z l).
Proof.
  rewrite <- (clean_numbers parse (map inject_Z l)).
  unfold clean. simpl to_numeric. rewrite !map_map. reflexivity.
Qed.

Lemma same_values_refl (vals : list Q) : same_values (map Fin vals) (map Fin vals).
Proof.
  induction vals as [|v vals IH]; [constructor|].
  constructor; [|exact IH]. exists v, v. repeat split; reflexivity.
Qed.

Lemma same_values_map {A : Type} (f g : A -> Q) (l : list A) :
  (forall x, In x l -> f x == g x) ->
  same_values (map (fun x => Fin (f x)) l) (map (fun x => Fin (g x)) l).
Proof.
  induction l as [|x l IH]; intros H; [constructor|].
  constructor.
  - exists (f x), (g x). repeat split. apply H. left. reflexivity.
  - apply IH. intros y Hy. apply H. right. exact Hy.
Qed.

(** What [normalize] returns on a channel within range that is not
    empty. *)
Lemma normalize_formula parse (s : Series) :
  to_numeric parse s <> [] -> within_range parse s ->
  exists vals mn mx out,
    clean parse s = map Fin vals /\
    Forall (bounded (max_float / 2)) vals /\
    In mn vals /\ In mx vals /\ (forall x, In x vals -> mn <= x <= mx) /\
    normalize parse (PySeries s) = Ok out /\
    (mn == mx -> out = replicate (length vals) (Fin 0.5)) /\
    (~ mn == mx -> same_values out (map (fun x => Fin (rescaled mn mx x)) vals)).
Proof.
  intros Hne Hr.
  destruct (clean_bounded parse s Hr) as (vals & Hvals & Hb).
  assert (Hvne : vals <> []).
  { intros ->. apply Hne. apply length_zero_iff_nil.
    rewrite <- clean_length, Hvals. reflexivity. }
  assert (Hfloat : (forall l, s <> IntSeries l) ->
    exists mn mx out,
      In mn vals /\ In mx vals /\ (forall x, In x vals -> mn <= x <= mx) /\
      normalize parse (PySeries s) = Ok out /\
      (mn == mx -> out = replicate (length vals) (Fin 0.5)) /\
      (~ mn == mx -> same_values out (map (fun x => Fin (rescaled mn mx x)) vals))).
  { intros Hint.
    destruct (series_min_spec vals Hvne) as (mn & Hmn & Hmnin & Hmnle).
    destruct (series_max_spec vals Hvne) as (mx & Hmx & Hmxin & Hmxle).
    assert (Hle : forall x, In x vals -> mn <= x <= mx).
    { intros x Hx. split; [apply Hmnle|apply Hmxle]; exact Hx. }
    pose proof (normalize_series parse s Hne Hint) as Hn.
    rewrite Hvals, (rescale_bounded vals mn mx Hb Hmn Hmx Hmnin Hmxin Hle) in Hn.
    exists mn, mx. eexists. split; [exact Hmnin|]. split; [exact Hmxin|].
    split; [exact Hle|]. split; [exact Hn|]. split.
    - intros Heq. apply Qeq_bool_iff in Heq. rewrite Heq. reflexivity.
    - intros Hneq.
      assert (E : Qeq_bool mn mx = false).
      { apply not_true_iff_false. intros E. apply Hneq, Qeq_bool_iff, E. }
      rewrite E.
      apply (same_values_map (rescaled mn mx) (rescaled mn mx)).
      intros x _. reflexivity. }
  destruct s as [l|l|l].
  - destruct Hfloat as (mn & mx & out & H); [discriminate|].
    exists vals, mn, mx, out. split; [exact Hvals|]. split; [exact Hb|exact H].
  - clear Hfloat. rewrite clean_int_series in Hvals. apply map_Fin_inj in Hvals.
    subst vals.
    assert (Hlne : l <> []) by (intros ->; apply Hvne; reflexivity).
    destruct (rescale_int_bounded l Hlne) as (mn & mx & Hmnin & Hmxin & Hle & Hres).
    { intros z Hz. apply (Hr (inject_Z z)). simpl.
      apply in_map_iff. exists z. split; [reflexivity|exact Hz]. }
    exists (map inject_Z l), (inject_Z mn), (inject_Z mx), (rescale_int l).
    split; [apply clean_int_series|]. split; [exact Hb|].
    split; [apply in_map, Hmnin|]. split; [apply in_map, Hmxin|].
    split.
    { intros x Hx. apply in_map_iff in Hx as (z & <- & Hz).
      destruct (Hle z Hz). rewrite <- !Zle_Qle. lia. }
    split; [apply normalize_int_series, Hlne|].
    rewrite Hres. split.
    + intros Heq.
      assert (Hmm : mn = mx) by (revert Heq; unfold Qeq; simpl; lia).
      rewrite Hmm, Z.eqb_refl, length_map. reflexivity.
    + intros Hneq.
      assert (E : (mn =? mx)%Z = false).
      { apply Z.eqb_neq. intros ->. apply Hneq. reflexivity. }
      rewrite E, map_map.
      apply (same_values_map
               (fun z => clamp 0 1 (inject_Z (z - mn) / inject_Z (mx - mn)))
               (fun z => rescaled (inject_Z mn) (inject_Z mx) (inject_Z z))).
      intros z Hz. unfold rescaled. apply clamp_Qeq.
      unfold Z.sub. rewrite !inject_Z_plus, !inject_Z_opp.
      assert (Hd : ~ inject_Z mx - inject_Z mn == 0).
      { intros Hd. apply Hneq. lra. }
      unfold Qminus. reflexivity.
  - destruct Hfloat as (mn & mx & out & H); [discriminate|].
    exists vals, mn, mx, out. split; [exact Hvals|]. split; [exact Hb|exact H].
Qed.

Lemma dropna_replace_inf (l : list float64) :
  dropna (map replace_inf l) = valid_values l.
Proof.
  unfold dropna, valid_values. induction l as [|x l IH]; [reflexivity|].
  simpl map. rewrite filter_cons. simpl List.filter.
  destruct x; simpl; rewrite IH; reflexivity.
Qed.

Lemma dropna_valid_values (l : list float64) :
  dropna (valid_values l) = valid_values l.
Proof.
  unfold dropna, valid_values. induction l as [|x l IH]; [reflexivity|].
  destruct x; simpl; try exact IH.
  rewrite filter_cons_True by reflexivity. f_equal. exact IH.
Qed.

Lemma fill_value_missing_fill (l : list float64) :
  fill_value (map replace_inf l) = missing_fill l.
Proof.
  unfold fill_value, missing_fill, fmedian.
  rewrite dropna_replace_inf, dropna_valid_values. reflexivity.
Qed.

Lemma clean_lookup parse (s : Series) (i : nat) (x : float64) :
  to_numeric parse s !! i = Some x ->
  clean parse s !! i =
    Some (match x with
          | Fin q => Fin q
          | _ => missing_fill (to_numeric parse s)
          end).
Proof.
  intros Hx. unfold clean, fill_missing.
  set (l := to_numeric parse s) in *.
  assert (Hr : map replace_inf l !! i = Some (replace_inf x)).
  { change (map replace_inf l) with (replace_inf <$> l).
    rewrite list_lookup_fmap, Hx. reflexivity. }
  destruct (existsb isna (map replace_inf l)) eqn:E.
  - unfold fillna.
    change (map ?f ?l) with (f <$> l).
    rewrite list_lookup_fmap.
    change (replace_inf <$> l) with (map replace_inf l). rewrite Hr. simpl.
    fold (fill_value (map replace_inf l)). rewrite fill_value_missing_fill.
    destruct x; reflexivity.
  - rewrite Hr.
    pose proof (existsb_isna_false _ (replace_inf_finite_or_nan parse s) E) as Hf.
    rewrite Forall_forall in Hf.
    destruct (Hf (replace_inf x)) as [q Hq].
    { apply list_elem_of_lookup. exists i. exact Hr. }
    destruct x; simpl in *; try discriminate. reflexivity.
Qed.

Lemma has_valid_nonempty parse s :
  has_valid_value parse s -> to_numeric parse s <> [].
Proof. intros [q Hq] E. rewrite E in Hq. contradiction. Qed.

Lemma in_unit_replicate n : Forall in_unit_interval (replicate n (Fin 0.5)).
Proof.
  apply Forall_forall. intros x Hx. apply elem_of_replicate_inv in Hx as ->.
  exists 0.5. split; [reflexivity|lra].
Qed.

Lemma same_values_unit (out : list float64) (f : Q -> Q) (vals : list Q) :
  (forall x, 0 <= f x <= 1) ->
  same_values out (map (fun x => Fin (f x)) vals) ->
  Forall in_unit_interval out.
Proof.
  intros Hf H. remember (map (fun x => Fin (f x)) vals) as k eqn:Hk.
  revert vals Hk. induction H as [|x y l k (a & b & -> & -> & Hab) _ IH];
    intros vals Hk; [constructor|].
  destruct vals as [|v vals]; [discriminate|]. injection Hk as -> ->.
  constructor; [|apply (IH vals eq_refl)].
  exists a. split; [reflexivity|]. specialize (Hf v). lra.
Qed.

(** Within range every output lies in [[0, 1]]. *)
Lemma normalize_unit parse (v : pyvalue) :
  value_within_range parse v ->
  exists out, normalize parse v = Ok out /\ Forall in_unit_interval out.
Proof.
  destruct v as [|x|s]; intros Hr.
  - eexists. split; [reflexivity|apply in_unit_replicate].
  - eexists. split; [reflexivity|apply in_unit_replicate].
  - destruct (to_numeric parse s) as [|y ys] eqn:E.
    + exists (replicate 100 (Fin 0.5)).
      split; [apply normalize_empty, E|apply in_unit_replicate].
    + destruct (normalize_formula parse s) as
        (vals & mn & mx & out & _ & _ & _ & _ & _ & Hn & Heq & Hneq).
      { rewrite E. discriminate. }
      { exact Hr. }
      exists out. split; [exact Hn|].
      destruct (Qeq_dec mn mx) as [Hd|Hd].
      * rewrite (Heq Hd). apply in_unit_replicate.
      * apply (same_values_unit out (rescaled mn mx) vals);
          [apply rescaled_unit|exact (Hneq Hd)].
Qed.

Lemma within_rangeb_spec parse (s : Series) :
  within_rangeb parse s = true -> within_range parse s.
Proof.
  unfold within_rangeb, within_range. intros H q Hq.
  rewrite forallb_forall in H. specialize (H (Fin q) Hq). simpl in H.
  apply andb_true_iff in H as [H1 H2].
  split; apply Qle_bool_iff; assumption.
Qed.

Lemma map_Fin_replicate (n : nat) (x : Q) :
  replicate n (Fin x) = map Fin (replicate n x).
Proof.
  induction n as [|n IH]; [reflexivity|]. simpl. f_equal. exact IH.
Qed.

Lemma clamp_unit_Qeq (a b : Q) : a == b -> clamp 0 1 a == clamp 0 1 b.
Proof. apply clamp_Qeq. Qed.

Lemma rescaled_Qeq (mn mx mn' mx' x : Q) :
  mn == mn' -> mx == mx' -> rescaled mn mx x == rescaled mn' mx' x.
Proof.
  intros E1 E2. unfold rescaled. apply clamp_Qeq. rewrite E1, E2. reflexivity.
Qed.

(** On a channel within range the output is the rescaling of the cleaned
    channel, whatever the dtype. *)
Lemma normalize_rescales_clean parse (s : Series) :
  to_numeric parse s <> [] -> within_range parse s ->
  exists out, normalize parse (PySeries s) = Ok out /\
              same_values out (rescale (clean parse s)).
Proof.
  intros Hne Hr.
  destruct (normalize_formula parse s Hne Hr)
    as (vals & mn & mx & out & Hvals & Hb & Hmnin & Hmxin & Hle & Hn & Heq & Hneq).
  exists out. split; [exact Hn|].
  assert (Hvne : vals <> []) by (intros ->; contradiction).
  destruct (series_min_spec vals Hvne) as (mn' & Hmn' & Hmnin' & Hmnle').
  destruct (series_max_spec vals Hvne) as (mx' & Hmx' & Hmxin' & Hmxle').
  assert (Hle' : forall x, In x vals -> mn' <= x <= mx').
  { intros x Hx. split; [apply Hmnle'|apply Hmxle']; exact Hx. }
  rewrite Hvals, (rescale_bounded vals mn' mx' Hb Hmn' Hmx' Hmnin' Hmxin' Hle').
  assert (E1 : mn == mn').
  { destruct (Hle mn' Hmnin'), (Hle' mn Hmnin). lra. }
  assert (E2 : mx == mx').
  { destruct (Hle mx' Hmxin'), (Hle' mx Hmxin). lra. }
  destruct (Qeq_bool mn' mx') eqn:E.
  - apply Qeq_bool_iff in E. rewrite Heq by lra.
    rewrite map_Fin_replicate. apply same_values_refl.
  - assert (Hd : ~ mn == mx).
    { intros Hd. apply not_true_iff_false in E. apply E, Qeq_bool_iff. lra. }
    specialize (Hneq Hd). clear - Hneq E1 E2.
    remember (map (fun x => Fin (rescaled mn mx x)) vals) as k eqn:Hk.
    revert vals Hk. induction Hneq as [|x y l k (a & b & -> & -> & Hab) _ IH];
      intros vals Hk.
    + destruct vals; [constructor|discriminate].
    + destruct vals as [|v vals]; [discriminate|]. injection Hk as -> ->.
      constructor; [|apply IH; reflexivity].
      exists a, (rescaled mn' mx' v). repeat split.
      rewrite Hab. apply rescaled_Qeq; assumption.
Qed.

(** C5, amended: for every channel with at least one valid value, and
    none beyond the range in which the differences of line 52 are exact,
    [normalize] cleans the channel; when the cleaned minimum and maximum
    differ, each element is mapped by
    [clamp((x - min) / (max - min), 0, 1)], the minimum to 0 and the
    maximum to 1; when they are equal (a constant channel) every output is
    0.5.  In both cases every output lies in [[0, 1]]. *)
Theorem normalize_rescales parse (s : Series) :
  has_valid_value parse s -> within_range parse s ->
  exists vals mn mx out,
    clean parse s = map Fin vals /\
    (forall i x,
        to_numeric parse s !! i = Some x ->
        clean parse s !! i =
          Some (match x with
                | Fin q => Fin q
                | PInf | NInf | NaN => missing_fill (to_numeric parse s)
                end)) /\
    In mn vals /\ In mx vals /\ (forall x, In x vals -> mn <= x <= mx) /\
    normalize parse (PySeries s) = Ok out /\
    (mn == mx -> out = replicate (length vals) (Fin 0.5)) /\
    (~ mn == mx ->
       same_values out
         (map (fun x => Fin (clamp 0 1 ((x - mn) / (mx - mn)))) vals) /\
       (forall x, x == mn -> clamp 0 1 ((x - mn) / (mx - mn)) == 0) /\
       (forall x, x == mx -> clamp 0 1 ((x - mn) / (mx - mn)) == 1)) /\
    Forall in_unit_interval out.
Proof.
  intros Hv Hr. pose proof (has_valid_nonempty parse s Hv) as Hne.
  destruct (normalize_formula parse s Hne Hr)
    as (vals & mn & mx & out & Hvals & Hb & Hmnin & Hmxin & Hle & Hn & Heq & Hneq).
  exists vals, mn, mx, out.
  split; [exact Hvals|]. split; [apply clean_lookup|].
  split; [exact Hmnin|]. split; [exact Hmxin|].
  split; [exact Hle|]. split; [exact Hn|]. split; [exact Heq|].
  split.
  - intros Hd. split; [exact (Hneq Hd)|].
    split; intros x Hx; [apply rescaled_min|apply rescaled_max]; assumption.
  - destruct (Qeq_dec mn mx) as [E|E].
    + rewrite (Heq E). apply in_unit_replicate.
    + apply (same_values_unit out (rescaled mn mx) vals);
        [apply rescaled_unit|exact (Hneq E)].
Qed.

Lemma normalize_rescales_witness :
  has_valid_value (fun _ => NaN) (NumericSeries [Fin 2; PInf; Fin 6; Fin 4]) /\
  within_range (fun _ => NaN) (NumericSeries [Fin 2; PInf; Fin 6; Fin 4]) /\
  exists vals mn mx out,
    clean (fun _ => NaN) (NumericSeries [Fin 2; PInf; Fin 6; Fin 4]) = map Fin vals /\
    (forall i x,
        to_numeric (fun _ => NaN) (NumericSeries [Fin 2; PInf; Fin 6; Fin 4]) !! i
          = Some x ->
        clean (fun _ => NaN) (NumericSeries [Fin 2; PInf; Fin 6; Fin 4]) !! i =
          Some (match x with
                | Fin q => Fin q
                | PInf | NInf | NaN =>
                    missing_fill
                      (to_numeric (fun _ => NaN)
                         (NumericSeries [Fin 2; PInf; Fin 6; Fin 4]))
                end)) /\
    In mn vals /\ In mx vals /\ (forall x, In x vals -> mn <= x <= mx) /\
    normalize (fun _ => NaN) (PySeries (NumericSeries [Fin 2; PInf; Fin 6; Fin 4]))
      = Ok out /\
    (mn == mx -> out = replicate (length vals) (Fin 0.5)) /\
    (~ mn == mx ->
       same_values out
         (map (fun x => Fin (clamp 0 1 ((x - mn) / (mx - mn)))) vals) /\
       (forall x, x == mn -> clamp 0 1 ((x - mn) / (mx - mn)) == 0) /\
       (forall x, x == mx -> clamp 0 1 ((x - mn) / (mx - mn)) == 1)) /\
    Forall in_unit_interval out.
Proof.
  assert (H : has_valid_value (fun _ => NaN) (NumericSeries [Fin 2; PInf; Fin 6; Fin 4])).
  { exists 2. simpl. left. reflexivity. }
  assert (R : within_range (fun _ => NaN) (NumericSeries [Fin 2; PInf; Fin 6; Fin 4])).
  { apply within_rangeb_spec. vm_compute. reflexivity. }
  split; [exact H|]. split; [exact R|].
  apply (normalize_rescales (fun _ => NaN) (NumericSeries [Fin 2; PInf; Fin 6; Fin 4]) H R).
Defined.

(** C5, as stated, fails on a constant channel: its one value is both
    minimum and maximum and is mapped to 0.5. *)
Lemma constant_channel_min_not_zero :
  has_valid_value (fun _ => NaN) (NumericSeries [Fin 5]) /\
  normalize (fun _ => NaN) (PySeries (NumericSeries [Fin 5])) = Ok [Fin 0.5] /\
  ~ maps_min_to_zero (fun _ => NaN) (NumericSeries [Fin 5]).
Proof.
  split; [exists 5; left; reflexivity|]. split; [reflexivity|].
  intros H. destruct (H [Fin 0.5] 5 0%nat eq_refl eq_refl eq_refl) as (y & Hy & H0).
  injection Hy as <-. revert H0. unfold Qeq. simpl. lia.
Qed.

(** Beyond the range the formula of C5 fails as well.  On the float64
    channel [-1e308, 0, 1e308] the difference of maximum and minimum is an
    infinity: the outputs are 0, 0 and [nan].  On the int64 channel
    [-2^63, 0, 2^63 - 1] the differences wrap around: the middle value is
    mapped to 1. *)
Remark channel_beyond_range :
  normalize (fun _ => NaN)
    (PySeries (NumericSeries
                 [Fin (- inject_Z (10 ^ 308)); Fin 0; Fin (inject_Z (10 ^ 308))]))
    = Ok [Fin 0; Fin 0; NaN] /\
  normalize (fun _ => NaN) (PySeries (IntSeries [- 2 ^ 63; 0; 2 ^ 63 - 1]%Z))
    = Ok [Fin 0; Fin 1; Fin 1].
Proof. split; vm_compute; reflexivity. Qed.

(** C9: [normalize] returns a channel on every input and never raises.  A
    null input, a bare number and an empty series give one hundred times
    0.5.  Entries of a non-numeric series are coerced, what cannot be
    coerced becoming missing; infinite and missing entries are replaced by
    the median of the valid entries, by 0.0 when there is none.  The
    channel returned for a series that is not empty is the rescaling of
    the series cleaned in this way. *)
Theorem normalize_total parse :
  (forall v, exists out, normalize parse v = Ok out) /\
  normalize parse PyNone = Ok (replicate 100 (Fin 0.5)) /\
  (forall x, normalize parse (PyFloat x) = Ok (replicate 100 (Fin 0.5))) /\
  (forall s, to_numeric parse s = [] ->
             normalize parse (PySeries s) = Ok (replicate 100 (Fin 0.5))) /\
  (forall l, to_numeric parse (ObjectSeries l) = map (coerce parse) l) /\
  (forall x, coerce parse (ONumber x) = x) /\
  (forall str, coerce parse (OStr str) = parse str) /\
  coerce parse OOther = NaN /\
  (forall s i x,
      to_numeric parse s !! i = Some x ->
      clean parse s !! i =
        Some (match x with
              | Fin q => Fin q
              | PInf | NInf | NaN => missing_fill (to_numeric parse s)
              end)) /\
  (forall l, fmedian (valid_values l) = NaN -> missing_fill l = Fin 0) /\
  (forall l, fmedian (valid_values l) <> NaN ->
             missing_fill l = fmedian (valid_values l)) /\
  (forall l, l <> [] ->
             normalize parse (PySeries (NumericSeries l))
               = Ok (rescale (clean parse (NumericSeries l)))) /\
  (forall s, to_numeric parse s <> [] -> within_range parse s ->
             exists out, normalize parse (PySeries s) = Ok out /\
                         same_values out (rescale (clean parse s))).
Proof.
  split; [apply normalize_returns|].
  split; [reflexivity|]. split; [reflexivity|].
  split; [apply normalize_empty|].
  split; [reflexivity|]. split; [reflexivity|]. split; [reflexivity|].
  split; [reflexivity|].
  split; [apply clean_lookup|].
  split.
  { intros l Hl. unfold missing_fill. rewrite Hl. reflexivity. }
  split.
  { intros l Hl. unfold missing_fill.
    destruct (fmedian (valid_values l)); try reflexivity. congruence. }
  split.
  { intros l Hl. apply normalize_series; [exact Hl|discriminate]. }
  apply normalize_rescales_clean.
Qed.


(** ** The whole-study loop *)

Import SleepAnalysis.


Ltac loop_body_cases H :=
  unfold loop_body, bind, py_div, iloc in H;
  repeat match type of H with
    | context [match ?x with _ => _ end] =>
        match x with
        | context [match _ with _ => _ end] => fail 1
        | _ => let E := fresh "E" in destruct x eqn:E; simpl in H
        end
    end;
  try discriminate H.

Lemma loop_body_position_counts sr sig i f s s' :
  loop_body sr sig i f s = Ok s' ->
  position_counts s' =
    <[position_at sig i := S (default O (position_counts s !! position_at sig i))]>
      (position_counts s).
Proof.
  intros H. loop_body_cases H; injection H as <-; reflexivity.
Qed.

Lemma loop_body_episode sr sig i f s s' :
  loop_body sr sig i f s = Ok s' ->
  (in_event s', closed s') =
    episode_step (min_samples sr) (in_event s, closed s) i f.
Proof.
  intros H. unfold episode_step, in_band, band_type. simpl.
  loop_body_cases H; injection H as <-; simpl in *;
    rewrite ?negb_true_iff, ?negb_false_iff in *;
    rewrite ?E, ?E0, ?E1, ?E2; simpl; try reflexivity; try congruence.
Qed.

Lemma loop_body_ok sr sig i f s :
  Qeq_bool sr 0 = false ->
  (i < length (activity_n sig))%nat ->
  exists s', loop_body sr sig i f s = Ok s'.
Proof.
  intros Hsr Hi.
  assert (Hrem : exists b, rem_periods sig !! i = Some b).
  { unfold rem_periods. change (map ?g ?l) with (g <$> l).
    rewrite list_lookup_fmap.
    destruct (lookup_lt_is_Some_2 (activity_n sig) i Hi) as [a ->].
    eexists. reflexivity. }
  destruct Hrem as [b Hb].
  unfold loop_body, bind, py_div, iloc. rewrite Hsr, Hb. simpl.
  destruct (in_event s); simpl;
    repeat match goal with
      | |- context [match ?x with _ => _ end] =>
          match x with
          | context [match _ with _ => _ end] => fail 1
          | _ => destruct x; simpl
          end
      end; eexists; reflexivity.
Qed.

Lemma safe_in_range t : in_safe_range t = true -> in_timestamp_range t = true.
Proof.
  unfold in_safe_range, in_timestamp_range. intros H.
  apply andb_true_iff in H as [H1 H2].
  apply Qle_bool_iff in H1, H2.
  assert (Hs : timestamp_safe <= timestamp_max)
    by (apply Qle_bool_iff; vm_compute; reflexivity).
  apply andb_true_iff. split; apply Qle_bool_iff; lra.
Qed.

(** [loop] threads [loop_body] over the indices [i, i+1, ...]. *)
Lemma loop_app sr sig i l1 l2 s :
  loop sr sig i (l1 ++ l2) s =
    bind (loop sr sig i l1 s) (loop sr sig (i + length l1) l2).
Proof.
  revert i s. induction l1 as [|f l1 IH]; intros i s; simpl.
  - rewrite Nat.add_0_r. reflexivity.
  - destruct (loop_body sr sig i f s) as [s1|e]; simpl; [|reflexivity].
    rewrite IH. replace (S i + length l1)%nat with (i + S (length l1))%nat by lia.
    reflexivity.
Qed.

Lemma loop_ok sr sig i flow s :
  Qeq_bool sr 0 = false ->
  (i + length flow <= length (activity_n sig))%nat ->
  exists s', loop sr sig i flow s = Ok s'.
Proof.
  intros Hsr. revert i s. induction flow as [|f flow IH]; intros i s Hlen; simpl in *.
  - eexists. reflexivity.
  - destruct (loop_body_ok sr sig i f s Hsr ltac:(lia)) as [s1 ->]. simpl.
    apply IH. lia.
Qed.

Lemma loop_episode sr sig i flow s s' :
  loop sr sig i flow s = Ok s' ->
  (in_event s', closed s') =
    episode_run (min_samples sr) i flow (in_event s, closed s).
Proof.
  revert i s. induction flow as [|f flow IH]; intros i s H; simpl in *.
  - injection H as <-. reflexivity.
  - destruct (loop_body sr sig i f s) as [s1|e] eqn:E; simpl in H; [|discriminate].
    rewrite <- (loop_body_episode _ _ _ _ _ _ E). apply IH, H.
Qed.



Lemma tally_positions_lookup (codes : list Z) (m : gmap Z nat) (c : Z) :
  tally_positions codes m !! c =
    if Nat.eqb (count_if (Z.eqb c) codes) 0 then m !! c
    else Some (default O (m !! c) + count_if (Z.eqb c) codes)%nat.
Proof.
  unfold tally_positions, count_if.
  revert m. induction codes as [|d codes IH]; intros m; simpl; [reflexivity|].
  rewrite IH. destruct (Z.eqb_spec c d) as [->|Hne]; simpl.
  - rewrite lookup_insert_eq. simpl.
    destruct (Nat.eqb_spec (length (List.filter (Z.eqb d) codes)) 0) as [->|_];
      f_equal; lia.
  - rewrite lookup_insert_ne by congruence. reflexivity.
Qed.

Lemma loop_position_counts sr sig i flow s s' :
  loop sr sig i flow s = Ok s' ->
  position_counts s' =
    tally_positions (map (position_at sig) (seq i (length flow))) (position_counts s).
Proof.
  revert i s. induction flow as [|f flow IH]; intros i s H; simpl in *.
  - injection H as <-. reflexivity.
  - destruct (loop_body sr sig i f s) as [s1|e] eqn:E; simpl in H; [|discriminate].
    rewrite (IH _ _ H), (loop_body_position_counts _ _ _ _ _ _ E). reflexivity.
Qed.

Lemma position_at_codes (sig : Signals) (n : nat) :
  n = length (body_pos_n sig) ->
  map (position_at sig) (seq 0 n) = position_codes sig.
Proof.
  intros ->. unfold position_codes, position_at.
  induction (body_pos_n sig) as [|p l IH] using rev_ind; [reflexivity|].
  rewrite length_app. simpl length. rewrite Nat.add_1_r, seq_S, !map_app. simpl.
  rewrite lookup_app_r by lia. rewrite Nat.sub_diag. simpl. f_equal.
  rewrite <- IH. apply map_ext_in. intros j Hj. apply in_seq in Hj.
  rewrite lookup_app_l by lia. reflexivity.
Qed.

Ltac analyze_inv H s Hloop :=
  unfold analyze_full_study, bind, iloc, iloc_last, to_datetime, timestamp_sub,
    checked_min_samples, int_of_float in H;
  let t1 := fresh "t_last" in
  let t0 := fresh "t_first" in
  let E1 := fresh "Hlast" in
  let E0 := fresh "Hfirst" in
  let D1 := fresh "Hstamp" in
  let D0 := fresh "Hstamp" in
  let D := fresh "Hdelta" in
  let M := fresh "Hgate" in
  destruct (last (time _)) as [t1|] eqn:E1; [|discriminate H];
  destruct (in_timestamp_range t1) eqn:D1; [|discriminate H];
  destruct (time _ !! 0%nat) as [t0|] eqn:E0; [|discriminate H];
  destruct (in_timestamp_range t0) eqn:D0; [|discriminate H];
  destruct (in_timestamp_range (t1 - t0)) eqn:D; [|discriminate H];
  destruct (fmul (Fin 10) (Fin _)) eqn:M; try discriminate H;
  destruct (loop _ _ 0 _ init) as [s|] eqn:Hloop; [|discriminate H];
  injection H as H.

Lemma boundedb_spec (b q : Q) : boundedb b q = true -> bounded b q.
Proof.
  unfold boundedb. intros H. apply andb_true_iff in H as [H1 H2].
  split; apply Qle_bool_iff; assumption.
Qed.

Lemma checked_min_samples_ok sr :
  rate_ok sr -> checked_min_samples sr = Ok (min_samples sr).
Proof.
  intros H. unfold checked_min_samples, fmul. simpl mul.
  rewrite (overflow_Fin _ H). reflexivity.
Qed.

Lemma analyze_full_study_ok sr sig :
  ~ sr == 0 -> rate_ok sr -> time sig <> [] -> datetimes_ok (time sig) ->
  (length (flow_n sig) <= length (activity_n sig))%nat ->
  exists r, analyze_full_study sr sig = Ok r.
Proof.
  intros Hsr Hrate Hne Hdt Hlen.
  assert (Hsr' : Qeq_bool sr 0 = false).
  { apply not_true_iff_false. intros E. apply Hsr, Qeq_bool_iff, E. }
  destruct (loop_ok sr sig 0 (flow_n sig) init Hsr' ltac:(simpl; lia)) as [s Hs].
  unfold analyze_full_study, bind, iloc, iloc_last, to_datetime, timestamp_sub.
  rewrite Hs, (checked_min_samples_ok sr Hrate). unfold datetimes_ok in Hdt.
  destruct (time sig) as [|t ts] eqn:Et; [congruence|].
  simpl (_ !! _) in *. destruct (last (t :: ts)) as [tl|] eqn:El.
  - apply andb_true_iff in Hdt as [Hdt H3]. apply andb_true_iff in Hdt as [H1 H2].
    apply safe_in_range in H1, H2, H3.
    rewrite H1, H2, H3. eexists. reflexivity.
  - apply last_None in El. discriminate.
Qed.




Lemma py_int_three_quarters (n : nat) :
  py_int (Q_of_nat n * 0.75) = (3 * Z.of_nat n / 4)%Z.
Proof.
  unfold py_int, Q_of_nat. simpl.
  change (Z.pos (1 * 100)) with (4 * 25)%Z.
  rewrite Z.quot_div_nonneg by lia.
  replace (Z.of_nat n * 75)%Z with (3 * Z.of_nat n * 25)%Z by lia.
  apply Z.div_mul_cancel_r; lia.
Qed.

(** C10: whenever the whole-study analysis returns, [obstructive_apneas]
    is [floor(0.75 * total_apneas)], [central_apneas] is the rest, and the
    two add up to [total_apneas]; no signal enters the split. *)
Theorem obstructive_central_split sr sig r :
  analyze_full_study sr sig = Ok r ->
  Results.obstructive_apneas r
    = Qfloor (0.75 * inject_Z (Z.of_nat (Results.total_apneas r))) /\
  Results.central_apneas r
    = (Z.of_nat (Results.total_apneas r) - Results.obstructive_apneas r)%Z /\
  (Results.obstructive_apneas r + Results.central_apneas r)%Z
    = Z.of_nat (Results.total_apneas r).
Proof.
  intros H. analyze_inv H s Hloop. subst r. simpl.
  split; [|split; [reflexivity|lia]].
  rewrite py_int_three_quarters.
  unfold Qfloor. simpl.
  change (Z.pos (100 * 1)) with (4 * 25)%Z.
  replace (75 * Z.of_nat (apneas s))%Z with (3 * Z.of_nat (apneas s) * 25)%Z by lia.
  symmetry. apply Z.div_mul_cancel_r; lia.
Qed.




Lemma percent_of_share (count n : nat) :
  n <> O -> percent_of count n = Q_of_nat count / Q_of_nat n * 100.
Proof.
  intros Hn. unfold percent_of.
  destruct (Nat.ltb_spec 0 n); [reflexivity|lia].
Qed.

(** The percentages the analysis reports are the shares of the integer
    parts of the samples of the channel it reads, [body_pos_n]. *)
Lemma position_shares sr sig r :
  analyze_full_study sr sig = Ok r ->
  length (flow_n sig) = length (body_pos_n sig) -> body_pos_n sig <> [] ->
  Results.supine_percent r = code_share 0 sig /\
  Results.left_percent r = code_share 1 sig /\
  Results.right_percent r = code_share 2 sig /\
  Results.prone_percent r = code_share 3 sig /\
  (forall c, (3 < c)%Z ->
     Results.other_positions r !! c =
       if Nat.eqb (code_count c sig) 0 then None else Some (code_share c sig)) /\
  (forall c, (c <= 3)%Z -> Results.other_positions r !! c = None).
Proof.
  intros Hr Hflow Hne.
  analyze_inv Hr s Hloop. subst r. simpl.
  pose proof (loop_position_counts _ _ _ _ _ _ Hloop) as Hpc.
  rewrite position_at_codes in Hpc by lia. simpl in Hpc.
  assert (Hn : length (body_pos_n sig) <> O).
  { destruct (body_pos_n sig); [congruence|simpl; lia]. }
  assert (Hlen : length (position_codes sig) = length (body_pos_n sig)).
  { unfold position_codes. apply length_map. }
  assert (Hcount : forall c,
             default O (position_counts s !! c) = code_count c sig).
  { intros c. rewrite Hpc, tally_positions_lookup. fold (code_count c sig).
    rewrite lookup_empty. destruct (Nat.eqb_spec (code_count c sig) 0) as [->|_];
      reflexivity. }
  unfold code_share. rewrite Hlen.
  rewrite !Hcount, !percent_of_share by exact Hn.
  repeat (split; [reflexivity|]).
  split.
  - intros c Hc.
    rewrite lookup_fmap, map_lookup_filter, Hpc, tally_positions_lookup.
    fold (code_count c sig). rewrite lookup_empty.
    destruct (Nat.eqb_spec (code_count c sig) 0) as [_|_]; simpl; [reflexivity|].
    rewrite option_guard_True by (simpl; lia). simpl.
    rewrite percent_of_share by exact Hn. reflexivity.
  - intros c Hc. rewrite lookup_fmap, map_lookup_filter.
    destruct (position_counts s !! c) as [k|]; [|reflexivity]. simpl.
    rewrite option_guard_False by (simpl; lia). reflexivity.
Qed.

(** ** The window of the windowed mode *)

Lemma window_slice (sig : Signals) (a b : Q) :
  OSAAnalysis.window sig a b =
    iloc_slice (zip (time sig) (flow_n sig))
      (OSAAnalysis.searchsorted_left (time sig) a)
      (OSAAnalysis.searchsorted_right (time sig) b).
Proof.
  unfold OSAAnalysis.window, iloc_slice. cbv zeta.
  rewrite <- zip_with_take, <- zip_with_drop. reflexivity.
Qed.

Lemma filter_beyond (a b : Q) (ts fs : list Q) (t : Q) :
  b < t -> Forall (Qle t) ts ->
  List.filter (in_window a b) (zip ts fs) = [].
Proof.
  intros Hb Hts. revert fs. induction Hts as [|x ts Hx Hts IH]; intros fs.
  - reflexivity.
  - destruct fs as [|f fs]; [reflexivity|]. simpl.
    unfold in_window at 1. simpl.
    assert (E : Qle_bool x b = false) by (apply Qle_bool_gt; lra).
    rewrite E, andb_false_r. apply IH.
Qed.

Lemma take_searchsorted_right (a b : Q) (ts fs : list Q) :
  ascending ts -> Forall (Qle a) ts ->
  take (OSAAnalysis.searchsorted_right ts b) (zip ts fs) =
    List.filter (in_window a b) (zip ts fs).
Proof.
  intros Hs. revert fs. induction Hs as [|x ts Hs IH Hx]; intros fs Ha.
  - reflexivity.
  - apply Forall_cons in Ha as [Hax Ha].
    destruct fs as [|f fs]; simpl.
    + destruct (Qle_bool x b); reflexivity.
    + unfold in_window at 1. simpl.
      assert (E : Qle_bool a x = true) by (apply Qle_bool_iff; exact Hax).
      rewrite E. simpl. destruct (Qle_bool x b) eqn:Eb; simpl.
      * f_equal. apply IH, Ha.
      * symmetry. apply (filter_beyond a b ts fs x); [|exact Hx].
        apply Qle_bool_gt, Eb.
Qed.

Lemma window_closed (a b : Q) (ts fs : list Q) :
  ascending ts ->
  iloc_slice (zip ts fs)
    (OSAAnalysis.searchsorted_left ts a) (OSAAnalysis.searchsorted_right ts b)
  = List.filter (in_window a b) (zip ts fs).
Proof.
  intros Hs. revert fs. induction Hs as [|x ts Hs IH Hx]; intros fs.
  - reflexivity.
  - destruct fs as [|f fs].
    { unfold iloc_slice. simpl. rewrite drop_nil, take_nil. reflexivity. }
    simpl OSAAnalysis.searchsorted_left.
    destruct (Qltb x a) eqn:Ea.
    + apply Qltb_lt in Ea.
      assert (E : in_window a b (x, f) = false).
      { unfold in_window. simpl.
        assert (E : Qle_bool a x = false) by (apply Qle_bool_gt; exact Ea).
        rewrite E. reflexivity. }
      simpl List.filter. rewrite E.
      simpl OSAAnalysis.searchsorted_right.
      destruct (Qle_bool x b) eqn:Eb.
      * unfold iloc_slice in *. simpl. apply IH.
      * unfold iloc_slice. simpl. symmetry.
        apply (filter_beyond a b ts fs x); [|exact Hx].
        apply Qle_bool_gt, Eb.
    + apply Qltb_ge in Ea. unfold iloc_slice. rewrite Nat.sub_0_r. simpl drop.
      apply (take_searchsorted_right a b (x :: ts) (f :: fs)).
      * constructor; assumption.
      * constructor; [exact Ea|]. eapply Forall_impl; [exact Hx|].
        intros y Hy. simpl in Hy. lra.
Qed.

Lemma filter_all {A : Type} (p : A -> bool) (l : list A) :
  (forall x, In x l -> p x = true) -> List.filter p l = l.
Proof.
  induction l as [|x l IH]; intros H; simpl; [reflexivity|].
  rewrite (H x (or_introl eq_refl)). f_equal. apply IH.
  intros y Hy. apply H. right. exact Hy.
Qed.

Lemma in_zip_l {A B : Type} (x : A) (y : B) (l : list A) (k : list B) :
  In (x, y) (zip l k) -> In x l.
Proof.
  revert k. induction l as [|a l IH]; intros [|b k]; simpl; try tauto.
  intros [E|H]; [left; congruence|right; eapply IH, H].
Qed.

(** C4, amended: on an ascending time axis the windowed mode scans
    exactly the samples with [start_time <= t <= end_time], a closed
    interval; bounds outside the time axis select what data there is, the
    whole recording when they enclose it, and nothing fails. *)
Theorem window_scans_closed_interval (sig : Signals) (a b : Q) :
  ascending (time sig) ->
  OSAAnalysis.window sig a b
    = List.filter (in_window a b) (zip (time sig) (flow_n sig)) /\
  (forall t f,
      In (t, f) (OSAAnalysis.window sig a b) <->
      In (t, f) (zip (time sig) (flow_n sig)) /\ a <= t /\ t <= b) /\
  ((forall t, In t (time sig) -> a <= t /\ t <= b) ->
   OSAAnalysis.window sig a b = zip (time sig) (flow_n sig)).
Proof.
  intros Hs.
  assert (Hw : OSAAnalysis.window sig a b
               = List.filter (in_window a b) (zip (time sig) (flow_n sig))).
  { rewrite window_slice. apply window_closed, Hs. }
  split; [exact Hw|]. split.
  - intros t f. rewrite Hw, filter_In. unfold in_window. simpl.
    rewrite andb_true_iff, !Qle_bool_iff. tauto.
  - intros Hall. rewrite Hw. apply filter_all. intros [t f] Hin.
    apply in_zip_l, Hall in Hin as [H1 H2]. unfold in_window. simpl.
    apply andb_true_iff. rewrite !Qle_bool_iff. tauto.
Qed.

(** ** The two scans agree *)

Lemma py_int_integer (q : Q) (N : Z) : q == inject_Z N -> py_int q = N.
Proof.
  unfold Qeq, py_int. simpl. intros H. rewrite Z.mul_1_r in H. rewrite H.
  apply Z.quot_mul. lia.
Qed.

Lemma Q_of_nat_sub (j s : nat) :
  (s <= j)%nat -> Q_of_nat (j - s) == Q_of_nat j - Q_of_nat s.
Proof.
  intros H. unfold Q_of_nat. rewrite Nat2Z.inj_sub by exact H.
  unfold Qeq. simpl. lia.
Qed.

Lemma in_band_false (f : Q) : in_band f = false <-> 0.3 <= f.
Proof.
  unfold in_band, SleepAnalysis.is_apnea, SleepAnalysis.is_hypopnea.
  rewrite orb_false_iff, andb_false_iff, !Qltb_ge, Qle_bool_gt. split.
  - intros [H1 [H2|H2]]; lra.
  - intros H. split; [lra|right; exact H].
Qed.

Lemma in_band_true (f : Q) : in_band f = true <-> f < 0.3.
Proof.
  rewrite <- not_false_iff_true, in_band_false. split; intros H; lra.
Qed.

(** The episodes of the whole-study scan, sample by sample. *)
Lemma episode_run_app (N : Z) (i : nat) (l1 l2 : list Q) st :
  episode_run N i (l1 ++ l2) st =
    episode_run N (i + length l1) l2 (episode_run N i l1 st).
Proof.
  revert i st. induction l1 as [|f l1 IH]; intros i st; simpl.
  - rewrite Nat.add_0_r. reflexivity.
  - rewrite IH. replace (S i + length l1)%nat with (i + S (length l1))%nat by lia.
    reflexivity.
Qed.

Lemma episode_run_quiet (N : Z) (i : nat) (l : list Q) log :
  Forall (fun f => in_band f = false) l ->
  episode_run N i l (SleepAnalysis.Idle, log) = (SleepAnalysis.Idle, log).
Proof.
  intros H. revert i. induction H as [|f l Hf Hl IH]; intros i; simpl; [reflexivity|].
  unfold episode_step. simpl. rewrite Hf. apply IH.
Qed.

Lemma episode_run_closes (N : Z) (i : nat) (l : list Q) (f : Q) st :
  in_band f = false -> (episode_run N i (l ++ [f]) st).1 = SleepAnalysis.Idle.
Proof.
  intros Hf. rewrite episode_run_app. simpl.
  unfold episode_step. rewrite Hf.
  destruct (episode_run N i l st).1; reflexivity.
Qed.

Lemma counted_episode_bound N flow ty s i :
  counted_episode N flow (ty, s, i) -> (s < i < length flow)%nat.
Proof.
  intros ((Hsi & _ & (g & Hg & _) & _) & _). simpl in *.
  split; [exact Hsi|]. eapply lookup_lt_Some, Hg.
Qed.

(** Episodes that close inside a prefix depend on the prefix only. *)
Lemma counted_episode_prefix N l k ty s i :
  (i < length l)%nat ->
  counted_episode N (l ++ k) (ty, s, i) <-> counted_episode N l (ty, s, i).
Proof.
  intros Hi. unfold counted_episode, maximal_run. simpl.
  assert (Hlk : forall j, (j <= i)%nat -> (l ++ k) !! j = l !! j).
  { intros j Hj. apply lookup_app_l. lia. }
  split.
  - intros ((Hsi & Hrun & (g & Hg & Hgb) & Hprev) & HN & (f & Hf & Hty)).
    split; [split; [exact Hsi|split; [|split]]|split; [exact HN|]].
    + intros j Hj. destruct (Hrun j Hj) as (x & Hx & Hxb).
      exists x. rewrite <- Hlk by lia. split; assumption.
    + exists g. rewrite <- Hlk by lia. split; assumption.
    + destruct Hprev as [->|(x & Hx & Hxb)]; [left; reflexivity|right].
      exists x. rewrite <- Hlk by lia. split; assumption.
    + exists f. rewrite <- Hlk by lia. split; assumption.
  - intros ((Hsi & Hrun & (g & Hg & Hgb) & Hprev) & HN & (f & Hf & Hty)).
    split; [split; [exact Hsi|split; [|split]]|split; [exact HN|]].
    + intros j Hj. destruct (Hrun j Hj) as (x & Hx & Hxb).
      exists x. rewrite Hlk by lia. split; assumption.
    + exists g. rewrite Hlk by lia. split; assumption.
    + destruct Hprev as [->|(x & Hx & Hxb)]; [left; reflexivity|right].
      exists x. rewrite Hlk by lia. split; assumption.
    + exists f. rewrite Hlk by lia. split; assumption.
Qed.

Lemma lookup_snoc_last (l : list Q) (f : Q) : (l ++ [f]) !! length l = Some f.
Proof. rewrite lookup_app_r by lia. rewrite Nat.sub_diag. reflexivity. Qed.

Lemma last_lookup_pred (l : list Q) (g : Q) :
  l <> [] -> l !! (length l - 1)%nat = Some g -> last l = Some g.
Proof.
  intros _ H. rewrite last_lookup. rewrite <- H. f_equal. lia.
Qed.

(** An episode that closes at the new sample [f], of index [length l]. *)
Lemma counted_episode_closing N l f ty s :
  counted_episode N (l ++ [f]) (ty, s, length l) ->
  in_band f = false /\
  (s < length l)%nat /\
  (forall j, (s <= j < length l)%nat ->
             exists x, l !! j = Some x /\ in_band x = true) /\
  (s = 0%nat \/ exists g, l !! (s - 1)%nat = Some g /\ in_band g = false) /\
  (N <= Z.of_nat (length l - s))%Z /\
  exists x, l !! s = Some x /\ ty = band_type x.
Proof.
  unfold counted_episode, maximal_run. simpl.
  intros ((Hsi & Hrun & (g & Hg & Hgb) & Hprev) & HN & (x & Hx & Hty)).
  rewrite lookup_snoc_last in Hg. injection Hg as <-.
  split; [exact Hgb|]. split; [exact Hsi|]. split; [|split; [|split; [exact HN|]]].
  - intros j Hj. destruct (Hrun j Hj) as (y & Hy & Hyb).
    exists y. rewrite lookup_app_l in Hy by lia. split; assumption.
  - destruct Hprev as [->|(y & Hy & Hyb)]; [left; reflexivity|right].
    exists y. rewrite lookup_app_l in Hy by lia. split; assumption.
  - exists x. rewrite lookup_app_l in Hx by lia. split; assumption.
Qed.

Lemma episode_run_snoc N l f st :
  episode_run N 0 (l ++ [f]) st = episode_step N (episode_run N 0 l st) (length l) f.
Proof. rewrite episode_run_app. reflexivity. Qed.

Lemma episode_run_characterised N (flow : list Q) :
  episode_state_ok flow (episode_run N 0 flow (Idle, [])).1 /\
  forall ty s i,
    In (ty, s, i) (episode_run N 0 flow (Idle, [])).2 <->
    counted_episode N flow (ty, s, i).
Proof.
  induction flow as [|f l IH] using rev_ind.
  - simpl. split; [intros g Hg; discriminate Hg|].
    intros ty s i. split; [intros []|].
    intros H. apply counted_episode_bound in H. simpl in H. lia.
  - rewrite episode_run_snoc.
    destruct IH as [Hst Hlog].
    destruct (episode_run N 0 l (Idle, [])) as [ep log]. simpl in Hst, Hlog.
    (* an episode of [l ++ [f]] closes inside [l] or at the new sample *)
    assert (Hsplit : forall ty s i,
               counted_episode N (l ++ [f]) (ty, s, i) <->
               counted_episode N l (ty, s, i) \/
               (i = length l /\ counted_episode N (l ++ [f]) (ty, s, length l))).
    { intros ty s i. split.
      - intros H. pose proof (counted_episode_bound _ _ _ _ _ H) as [_ Hi].
        rewrite length_app in Hi. simpl in Hi.
        destruct (Nat.eq_dec i (length l)) as [->|Hne].
        + right. split; [reflexivity|exact H].
        + left. apply (counted_episode_prefix N l [f]); [lia|exact H].
      - intros [H|[-> H]]; [|exact H].
        pose proof (counted_episode_bound _ _ _ _ _ H) as [_ Hi].
        apply (counted_episode_prefix N l [f]); assumption. }
    unfold episode_step. simpl.
    destruct ep as [|s0 ty0]; simpl in Hst.
    + (* idle *)
      destruct (in_band f) eqn:Hf; simpl.
      * split.
        { split; [rewrite length_app; simpl; lia|]. split; [|split].
          - intros j Hj. rewrite length_app in Hj. simpl in Hj.
            assert (j = length l) as -> by lia.
            exists f. split; [apply lookup_snoc_last|exact Hf].
          - destruct l as [|x l'] eqn:El using rev_ind; [left; reflexivity|right].
            clear IHl'. exists x. rewrite length_app. simpl.
            replace (length l' + 1 - 1)%nat with (length l') by lia.
            rewrite lookup_app_l by (rewrite length_app; simpl; lia).
            split; [apply lookup_snoc_last|]. apply Hst. apply last_snoc.
          - exists f. split; [apply lookup_snoc_last|reflexivity]. }
        intros ty s i. rewrite Hlog, Hsplit. split; [intros H; left; exact H|].
        intros [H|[_ H]]; [exact H|].
        apply counted_episode_closing in H as [Hnb _]. congruence.
      * split; [intros g Hg; rewrite last_snoc in Hg; congruence|].
        intros ty s i. rewrite Hlog, Hsplit. split; [intros H; left; exact H|].
        intros [H|[_ H]]; [exact H|].
        apply counted_episode_closing in H as (_ & Hs & Hrun & _).
        destruct (Hrun (length l - 1)%nat ltac:(lia)) as (x & Hx & Hxb).
        assert (Hl : l <> []) by (intros ->; simpl in Hs; lia).
        rewrite (Hst x (last_lookup_pred l x Hl Hx)) in Hxb. discriminate.
    + (* an episode is open since sample [s0] *)
      destruct Hst as (Hs0 & Hrun0 & Hprev0 & (x0 & Hx0 & Hty0)).
      destruct (in_band f) eqn:Hf; simpl.
      * split.
        { split; [rewrite length_app; simpl; lia|]. split; [|split].
          - intros j Hj. rewrite length_app in Hj. simpl in Hj.
            destruct (Nat.eq_dec j (length l)) as [->|Hne].
            + exists f. split; [apply lookup_snoc_last|exact Hf].
            + destruct (Hrun0 j ltac:(lia)) as (x & Hx & Hxb).
              exists x. rewrite lookup_app_l by lia. split; assumption.
          - destruct Hprev0 as [->|(g & Hg & Hgb)]; [left; reflexivity|right].
            exists g. rewrite lookup_app_l by lia. split; assumption.
          - exists x0. rewrite lookup_app_l by lia. split; assumption. }
        intros ty s i. rewrite Hlog, Hsplit. split; [intros H; left; exact H|].
        intros [H|[_ H]]; [exact H|].
        apply counted_episode_closing in H as [Hnb _]. congruence.
      * split; [intros g Hg; rewrite last_snoc in Hg; congruence|].
        (* the only episode that can close here starts at [s0] *)
        assert (Hclose : forall ty s,
                   counted_episode N (l ++ [f]) (ty, s, length l) <->
                   (ty, s) = (ty0, s0) /\ (N <= Z.of_nat (length l - s0))%Z).
        { intros ty s. split.
          - intros H. apply counted_episode_closing in H
              as (_ & Hs & Hrun & Hprev & HN & (x & Hx & Hty)).
            assert (s = s0) as ->.
            { destruct (Nat.lt_trichotomy s s0) as [Hlt|[Heq|Hgt]]; [|exact Heq|].
              - destruct Hprev0 as [->|(g & Hg & Hgb)]; [lia|].
                destruct (Hrun (s0 - 1)%nat ltac:(lia)) as (y & Hy & Hyb). congruence.
              - destruct Hprev as [->|(g & Hg & Hgb)]; [lia|].
                destruct (Hrun0 (s - 1)%nat ltac:(lia)) as (y & Hy & Hyb). congruence. }
            split; [|exact HN]. f_equal. congruence.
          - intros [[= -> ->] HN]. unfold counted_episode, maximal_run. simpl.
            split; [split; [exact Hs0|split; [|split]]|split; [exact HN|]].
            + intros j Hj. destruct (Hrun0 j Hj) as (x & Hx & Hxb).
              exists x. rewrite lookup_app_l by lia. split; assumption.
            + exists f. split; [apply lookup_snoc_last|exact Hf].
            + destruct Hprev0 as [->|(g & Hg & Hgb)]; [left; reflexivity|right].
              exists g. rewrite lookup_app_l by lia. split; assumption.
            + exists x0. rewrite lookup_app_l by lia. split; assumption. }
        intros ty s i. rewrite Hsplit.
        destruct (Z.leb_spec N (Z.of_nat (length l - s0))) as [HN|HN].
        -- rewrite in_app_iff, Hlog. simpl. split.
           ++ intros [H|[[= <- <- <-]|[]]]; [left; exact H|right].
              split; [reflexivity|]. apply Hclose. split; [reflexivity|exact HN].
           ++ intros [H|[-> H]]; [left; exact H|right; left].
              apply Hclose in H as [[= -> ->] _]. reflexivity.
        -- rewrite Hlog. split; [intros H; left; exact H|].
           intros [H|[_ H]]; [exact H|]. apply Hclose in H as [_ H]. lia.
Qed.

Section Agreement.

Variables (sr t0 : Q) (N : Z) (time : list Q).
Hypothesis sr_pos : 0 < sr.
Hypothesis whole_samples : 10 * sr == inject_Z N.
Hypothesis axis : near_uniform_axis sr t0 time.

(** Away from the boundary, where the run is exactly [N] samples long, the
    time difference and the sample count pass or fail the gate together. *)
Lemma gate_agrees (s j : nat) (ts t : Q) :
  (s <= j)%nat -> time !! s = Some ts -> time !! j = Some t ->
  Z.of_nat (j - s) <> N ->
  Qle_bool OSAAnalysis.min_duration (t - ts) = (N <=? Z.of_nat (j - s))%Z.
Proof.
  intros Hsj Hs Hj Hne. apply axis in Hs, Hj.
  destruct Hs as [Hs1 Hs2], Hj as [Hj1 Hj2].
  pose proof (Q_of_nat_sub j s Hsj) as Hd.
  assert (Hu : 0 < / sr) by (apply Qinv_lt_0_compat, sr_pos).
  assert (Hq : 1 / (4 * sr) == / sr * (1 # 4)) by (field; lra).
  assert (Hten : 10 == inject_Z N * / sr).
  { rewrite <- whole_samples. field. lra. }
  unfold Qdiv in Hs1, Hs2, Hj1, Hj2. fold (Qdiv 1 (4 * sr)) in Hs1, Hs2, Hj1, Hj2.
  rewrite Hq in Hs1, Hs2, Hj1, Hj2.
  set (u := / sr) in *.
  assert (Hdu : Q_of_nat (j - s) * u == Q_of_nat j * u - Q_of_nat s * u).
  { rewrite Hd. ring. }
  unfold OSAAnalysis.min_duration.
  destruct (Z.leb_spec N (Z.of_nat (j - s))) as [Hle|Hlt].
  - apply Qle_bool_iff.
    assert (H1 : inject_Z N + 1 <= Q_of_nat (j - s)).
    { unfold Q_of_nat. change 1 with (inject_Z 1).
      rewrite <- inject_Z_plus, <- Zle_Qle. lia. }
    assert (H2 : 0 <= (Q_of_nat (j - s) - (inject_Z N + 1)) * u).
    { apply Qmult_le_0_compat; lra. }
    assert (H3 : (Q_of_nat (j - s) - (inject_Z N + 1)) * u
                 == Q_of_nat (j - s) * u - inject_Z N * u - u) by ring.
    lra.
  - apply Qle_bool_gt.
    assert (H1 : Q_of_nat (j - s) + 1 <= inject_Z N).
    { unfold Q_of_nat. change 1 with (inject_Z 1).
      rewrite <- inject_Z_plus, <- Zle_Qle. lia. }
    assert (H2 : 0 <= (inject_Z N - (Q_of_nat (j - s) + 1)) * u).
    { apply Qmult_le_0_compat; lra. }
    assert (H3 : (inject_Z N - (Q_of_nat (j - s) + 1)) * u
                 == inject_Z N * u - Q_of_nat (j - s) * u - u) by ring.
    lra.
Qed.

Lemma scan_step_related (j : nat) (t f : Q) st ws :
  time !! j = Some t -> ~ f == 0.3 ->
  (forall s ty, ws.1 = SleepAnalysis.InEvent s ty -> in_band f = false ->
                Z.of_nat (j - s) <> N) ->
  scans_related time j st ws ->
  scans_related time (S j) (OSAAnalysis.scan_step st (t, f)) (episode_step N ws j f).
Proof.
  intros Hj Hf Hgate [Hep Hev].
  destruct st as [e1 evs], ws as [e2 log]. simpl in *.
  unfold episode_step, band_type. simpl.
  destruct e1 as [|ts ty], e2 as [|s ty']; simpl in Hep; try contradiction.
  - (* both idle *)
    unfold OSAAnalysis.flow_threshold_apnea, OSAAnalysis.flow_threshold_hypopnea.
    unfold in_band, SleepAnalysis.is_apnea, SleepAnalysis.is_hypopnea.
    destruct (Qltb f 0.1) eqn:E1; simpl.
    + split; [|exact Hev]. simpl. split; [reflexivity|]. split; [lia|exact Hj].
    + apply Qltb_ge in E1. apply Qle_bool_iff in E1. rewrite E1. simpl.
      destruct (Qltb f 0.3); split; simpl; auto.
  - (* both in an episode *)
    destruct Hep as (<- & Hsj & Hs).
    unfold OSAAnalysis.flow_threshold_hypopnea.
    destruct (in_band f) eqn:Eb.
    + apply in_band_true in Eb.
      assert (E : Qltb 0.3 f = false) by (apply Qltb_ge; lra).
      rewrite E. split; simpl; [|exact Hev].
      split; [reflexivity|]. split; [lia|exact Hs].
    + pose proof (Hgate s ty eq_refl eq_refl) as Hne.
      apply in_band_false in Eb.
      assert (E : Qltb 0.3 f = true) by (apply Qltb_lt; lra).
      rewrite E. split; simpl; [exact I|].
      rewrite (gate_agrees s j ts t) by (try lia; assumption).
      destruct (N <=? Z.of_nat (j - s))%Z; [|exact Hev].
      apply Forall2_app; [exact Hev|]. constructor; [|constructor].
      repeat split; assumption.
Qed.

(** The windowed scan of the first [k] samples of the window against the
    whole-study scan of the channel up to there. *)
Lemma scan_prefix_related (fs tsW fsW : list Q) (lo : nat) :
  length tsW = length fsW ->
  (forall k t, tsW !! k = Some t -> time !! (lo + k)%nat = Some t) ->
  (forall k f, fsW !! k = Some f -> fs !! (lo + k)%nat = Some f) ->
  Forall (fun f => ~ f == 0.3) fsW ->
  Forall (fun f => in_band f = false) (take lo fs) ->
  (forall s i, maximal_run fs s i -> Z.of_nat (i - s) <> N) ->
  forall k, (k <= length fsW)%nat ->
    scans_related time (lo + k)
      (foldl OSAAnalysis.scan_step (OSAAnalysis.Idle, []) (take k (zip tsW fsW)))
      (episode_run N 0 (take (lo + k) fs) (SleepAnalysis.Idle, [])).
Proof.
  intros Hlen Ht Hfs H03 Hquiet Hrun k. induction k as [|k IH]; intros Hk.
  - rewrite Nat.add_0_r. simpl take.
    rewrite (episode_run_quiet N 0 (take lo fs) [] Hquiet).
    split; simpl; [exact I|constructor].
  - destruct (lookup_lt_is_Some_2 fsW k ltac:(lia)) as [f Hf].
    destruct (lookup_lt_is_Some_2 tsW k ltac:(lia)) as [t Htk].
    assert (Hz : zip tsW fsW !! k = Some (t, f)).
    { apply lookup_zip_with_Some. exists t, f. auto. }
    rewrite (take_S_r _ _ _ Hz), foldl_snoc.
    pose proof (Hfs k f Hf) as Hfk.
    replace (lo + S k)%nat with (S (lo + k)) by lia.
    rewrite (take_S_r _ _ _ Hfk), episode_run_snoc.
    assert (Hl : length (take (lo + k) fs) = (lo + k)%nat).
    { apply lookup_lt_Some in Hfk. rewrite length_take. lia. }
    rewrite Hl.
    apply scan_step_related.
    + apply Ht, Htk.
    + rewrite Forall_forall in H03. apply H03. eapply list_elem_of_lookup_2, Hf.
    + intros s ty Hst Hb. apply Hrun.
      destruct (episode_run_characterised N (take (lo + k) fs)) as [Hok _].
      rewrite Hst in Hok. simpl in Hok. rewrite Hl in Hok.
      destruct Hok as (Hs & Hin & Hprev & _).
      split; [exact Hs|]. split; [|split].
      * intros j Hj. destruct (Hin j Hj) as (x & Hx & Hxb).
        exists x. apply lookup_take_Some in Hx as [Hx _]. split; assumption.
      * exists f. split; assumption.
      * destruct Hprev as [->|(g & Hg & Hgb)]; [left; reflexivity|right].
        exists g. apply lookup_take_Some in Hg as [Hg _]. split; assumption.
    + apply IH. lia.
Qed.

End Agreement.

Lemma episode_run_quiet_app (N : Z) (l k : list Q) :
  (episode_run N 0 l (SleepAnalysis.Idle, [])).1 = SleepAnalysis.Idle ->
  Forall (fun f => in_band f = false) k ->
  (episode_run N 0 (l ++ k) (SleepAnalysis.Idle, [])).2
    = (episode_run N 0 l (SleepAnalysis.Idle, [])).2.
Proof.
  intros Hidle Hk. rewrite episode_run_app.
  destruct (episode_run N 0 l (SleepAnalysis.Idle, [])) as [e log].
  simpl in Hidle. subst e. simpl (0 + _)%nat.
  rewrite (episode_run_quiet N _ k log Hk). reflexivity.
Qed.

Lemma searchsorted_left_length (ts : list Q) (a : Q) :
  (OSAAnalysis.searchsorted_left ts a <= length ts)%nat.
Proof.
  induction ts as [|x ts IH]; simpl; [lia|]. destruct (Qltb x a); simpl; lia.
Qed.

Lemma searchsorted_right_length (ts : list Q) (b : Q) :
  (OSAAnalysis.searchsorted_right ts b <= length ts)%nat.
Proof.
  induction ts as [|x ts IH]; simpl; [lia|]. destruct (Qle_bool x b); simpl; lia.
Qed.

Lemma searchsorted_left_before (ts : list Q) (a : Q) (i : nat) (t : Q) :
  (i < OSAAnalysis.searchsorted_left ts a)%nat -> ts !! i = Some t -> t < a.
Proof.
  revert i. induction ts as [|x ts IH]; intros i; simpl; [lia|].
  destruct (Qltb x a) eqn:E; [|lia].
  destruct i as [|i]; simpl.
  - intros _ [= <-]. apply Qltb_lt, E.
  - intros Hi. apply IH. lia.
Qed.

Lemma searchsorted_right_at (ts : list Q) (b : Q) (t : Q) :
  ts !! OSAAnalysis.searchsorted_right ts b = Some t -> b < t.
Proof.
  induction ts as [|x ts IH]; simpl; [discriminate|].
  destruct (Qle_bool x b) eqn:E; simpl.
  - exact IH.
  - intros [= <-]. apply Qle_bool_gt, E.
Qed.

Lemma uniform_near_uniform (sr t0 : Q) (time : list Q) :
  0 < sr -> uniform_axis sr t0 time -> near_uniform_axis sr t0 time.
Proof.
  intros Hsr Hax i t Hi. apply Hax in Hi.
  assert (Hq : 0 < 1 / (4 * sr)).
  { apply Qlt_shift_div_l; lra. }
  split; lra.
Qed.

(** Stamps that deviate by less than half a sampling period are in
    order. *)
Lemma near_uniform_axis_mono (sr t0 : Q) (time : list Q) (i k : nat) (x y : Q) :
  0 < sr -> near_uniform_axis sr t0 time ->
  (i <= k)%nat -> time !! i = Some x -> time !! k = Some y -> x <= y.
Proof.
  intros Hsr Hax Hik Hx Hy.
  destruct (Nat.eq_dec i k) as [->|Hne].
  { rewrite Hx in Hy. injection Hy as ->. lra. }
  apply Hax in Hx as [_ Hx], Hy as [Hy _].
  assert (Hu : 0 < / sr) by (apply Qinv_lt_0_compat, Hsr).
  assert (Hq : 1 / (4 * sr) == / sr * (1 # 4)) by (field; lra).
  unfold Qdiv in Hx, Hy. fold (Qdiv 1 (4 * sr)) in Hx, Hy.
  rewrite Hq in Hx, Hy. set (u := / sr) in *.
  assert (H : Q_of_nat i + 1 <= Q_of_nat k).
  { unfold Q_of_nat. change 1 with (inject_Z 1).
    rewrite <- inject_Z_plus, <- Zle_Qle. lia. }
  assert (H2 : 0 <= (Q_of_nat k - (Q_of_nat i + 1)) * u).
  { apply Qmult_le_0_compat; lra. }
  assert (H3 : (Q_of_nat k - (Q_of_nat i + 1)) * u
               == Q_of_nat k * u - Q_of_nat i * u - u) by ring.
  lra.
Qed.

Lemma Forall_lookup_band (l : list Q) :
  (forall i f, l !! i = Some f -> in_band f = false) ->
  Forall (fun f => in_band f = false) l.
Proof.
  intros H. apply Forall_forall. intros f Hf.
  apply list_elem_of_lookup in Hf as [i Hi]. eapply H, Hi.
Qed.

Lemma scans_agree (sig : Signals) (sr t0 : Q) (N : Z) (a b : Q) :
  0 < sr -> 10 * sr == inject_Z N ->
  near_uniform_axis sr t0 (time sig) ->
  length (flow_n sig) = length (time sig) ->
  (forall f, In f (flow_n sig) -> ~ f == 0.3) ->
  (forall s i, maximal_run (flow_n sig) s i -> Z.of_nat (i - s) <> N) ->
  window_contains_episodes sig a b ->
  Forall2 (same_event (time sig))
    (OSAAnalysis.scan (OSAAnalysis.window sig a b)).2
    (episode_run N 0 (flow_n sig) (SleepAnalysis.Idle, [])).2.
Proof.
  intros Hsr HN Hax Hlen H03 Hrun Hwin.
  set (ts := time sig) in *. set (fs := flow_n sig) in *.
  set (lo := OSAAnalysis.searchsorted_left ts a).
  set (hi := OSAAnalysis.searchsorted_right ts b).
  assert (Hlo : (lo <= length ts)%nat) by apply searchsorted_left_length.
  assert (Hhi : (hi <= length ts)%nat) by apply searchsorted_right_length.
  assert (Htime : forall i f, fs !! i = Some f -> exists t, ts !! i = Some t).
  { intros i f Hf. apply lookup_lt_is_Some_2. rewrite <- Hlen.
    eapply lookup_lt_Some, Hf. }
  assert (H03' : Forall (fun f => ~ f == 0.3) fs).
  { apply Forall_forall. intros f Hf. apply H03, list_elem_of_In, Hf. }
  (* samples before the window are in no band *)
  assert (HA : Forall (fun f => in_band f = false) (take lo fs)).
  { apply Forall_lookup_band. intros i f Hf.
    apply lookup_take_Some in Hf as [Hf Hi].
    destruct (Htime i f Hf) as [t Ht].
    destruct (in_band f) eqn:Eb; [|reflexivity].
    destruct (Hwin i t f Ht Hf Eb) as (Ha & _).
    pose proof (searchsorted_left_before ts a i t Hi Ht). lra. }
  (* samples from index [hi] on are in no band *)
  assert (HB : forall k, (hi <= k)%nat ->
                 Forall (fun f => in_band f = false) (drop k fs)).
  { intros k Hk. apply Forall_lookup_band. intros i f Hf.
    rewrite lookup_drop in Hf.
    destruct (Htime _ f Hf) as [t Ht].
    destruct (in_band f) eqn:Eb; [|reflexivity].
    destruct (Hwin _ t f Ht Hf Eb) as (_ & Hb & _).
    destruct (lookup_lt_is_Some_2 ts hi) as [th Hth].
    { apply lookup_lt_Some in Ht. lia. }
    pose proof (searchsorted_right_at ts b th Hth).
    pose proof (near_uniform_axis_mono sr t0 ts hi (k + i) th t Hsr Hax
                  ltac:(lia) Hth Ht).
    lra. }
  unfold OSAAnalysis.scan, OSAAnalysis.window. cbv zeta. fold ts fs lo hi.
  destruct (Nat.le_gt_cases lo hi) as [Hle|Hgt].
  - (* the flow channel is: before ++ window ++ after *)
    set (fsW := iloc_slice fs lo hi). set (tsW := iloc_slice ts lo hi).
    assert (HlenW : length fsW = (hi - lo)%nat).
    { unfold fsW, iloc_slice. rewrite length_take, length_drop. lia. }
    assert (HlenT : length tsW = length fsW).
    { unfold tsW, fsW, iloc_slice. rewrite !length_take, !length_drop. lia. }
    pose proof (scan_prefix_related sr t0 N ts Hsr HN Hax fs tsW fsW lo HlenT)
      as HR.
    specialize (HR ltac:(intros k t Hk; unfold tsW, iloc_slice in Hk;
                         apply lookup_take_Some in Hk as [Hk _];
                         rewrite lookup_drop in Hk; exact Hk)).
    specialize (HR ltac:(intros k f Hk; unfold fsW, iloc_slice in Hk;
                         apply lookup_take_Some in Hk as [Hk _];
                         rewrite lookup_drop in Hk; exact Hk)).
    specialize (HR ltac:(unfold fsW, iloc_slice; apply Forall_take, Forall_drop, H03')
                   HA Hrun (length fsW) ltac:(lia)).
    rewrite take_ge in HR by (rewrite length_zip_with; lia).
    rewrite HlenW in HR. replace (lo + (hi - lo))%nat with hi in HR by lia.
    destruct HR as [_ Hev].
    destruct (drop hi fs) as [|f0 rest] eqn:Edrop.
    + assert (Hall : take hi fs = fs).
      { apply (f_equal length) in Edrop. rewrite length_drop in Edrop.
        simpl in Edrop. apply take_ge. lia. }
      rewrite Hall in Hev. exact Hev.
    + (* the scan of the channel up to the end of the window ends idle *)
      assert (Hhi' : (hi < length ts)%nat).
      { rewrite <- Hlen. apply (f_equal length) in Edrop.
        rewrite length_drop in Edrop. simpl in Edrop. lia. }
      assert (Hidle : (episode_run N 0 (take hi fs) (SleepAnalysis.Idle, [])).1
                      = SleepAnalysis.Idle).
      { destruct (Nat.eq_dec lo hi) as [Heq|Hneq].
        - rewrite <- Heq, (episode_run_quiet N 0 (take lo fs) [] HA). reflexivity.
        - destruct (lookup_lt_is_Some_2 fs (hi - 1)) as [f Hf]; [lia|].
          replace hi with (S (hi - 1)) at 1 by lia.
          rewrite (take_S_r _ _ _ Hf). apply episode_run_closes.
          destruct (in_band f) eqn:Eb; [|reflexivity]. exfalso.
          destruct (Htime _ f Hf) as [t Ht].
          destruct (Hwin _ t f Ht Hf Eb) as (_ & _ & Hnext).
          destruct (lookup_lt_is_Some_2 ts hi Hhi') as [th Hth].
          replace (S (hi - 1)) with hi in Hnext by lia.
          pose proof (Hnext th Hth).
          pose proof (searchsorted_right_at ts b th Hth). lra. }
      rewrite <- (take_drop hi fs) at 1.
      rewrite (episode_run_quiet_app N (take hi fs) (drop hi fs) Hidle).
      * exact Hev.
      * apply HB. lia.
  - (* empty window: no sample is in a band *)
    unfold iloc_slice. replace (hi - lo)%nat with 0%nat by lia. simpl.
    rewrite <- (take_drop lo fs) at 1. rewrite episode_run_app.
    rewrite (episode_run_quiet N 0 (take lo fs) [] HA).
    rewrite (episode_run_quiet N _ (drop lo fs) []); [constructor|].
    apply HB. lia.
Qed.

Lemma loop_body_tallies sr sig i f s s' :
  SleepAnalysis.loop_body sr sig i f s = Ok s' ->
  tallies_agree sr s -> tallies_agree sr s'.
Proof.
  intros H (Ha & Hh & Hda & Hdh & Hma & Hmh).
  unfold tallies_agree, apnea_episodes, hypopnea_episodes in *.
  loop_body_cases H; injection H as <-; simpl;
    rewrite ?List.filter_app, ?map_app, ?length_app, ?foldl_app; simpl;
    rewrite ?app_nil_r, ?Nat.add_0_r, ?Nat.add_1_r;
    rewrite <- ?Ha, <- ?Hh, <- ?Hda, <- ?Hdh, <- ?Hma, <- ?Hmh;
    repeat split; try reflexivity; try assumption.
Qed.

Lemma loop_tallies sr sig i flow s s' :
  SleepAnalysis.loop sr sig i flow s = Ok s' ->
  tallies_agree sr s -> tallies_agree sr s'.
Proof.
  revert i s. induction flow as [|f flow IH]; intros i s H Hs; simpl in *.
  - injection H as <-. exact Hs.
  - destruct (SleepAnalysis.loop_body sr sig i f s) as [s1|e] eqn:E; simpl in H;
      [|discriminate].
    eapply IH; [exact H|]. eapply loop_body_tallies; eassumption.
Qed.

Lemma counted_events_run sr sig log :
  SleepAnalysis.counted_events sr sig = Ok log ->
  log = (episode_run (SleepAnalysis.min_samples sr) 0 (flow_n sig)
           (SleepAnalysis.Idle, [])).2.
Proof.
  unfold SleepAnalysis.counted_events, bind.
  destruct (SleepAnalysis.loop sr sig 0 (flow_n sig) SleepAnalysis.init) as [s|e] eqn:E;
    [|discriminate].
  intros [= <-]. pose proof (loop_episode _ _ _ _ _ _ E) as H. simpl in H.
  rewrite <- H. reflexivity.
Qed.

Lemma counted_events_ok sr sig :
  ~ sr == 0 -> (length (flow_n sig) <= length (activity_n sig))%nat ->
  exists log, SleepAnalysis.counted_events sr sig = Ok log.
Proof.
  intros Hsr Hlen.
  assert (Hsr' : Qeq_bool sr 0 = false).
  { apply not_true_iff_false. intros E. apply Hsr, Qeq_bool_iff, E. }
  destruct (loop_ok sr sig 0 (flow_n sig) SleepAnalysis.init Hsr' ltac:(simpl; lia))
    as [s Hs].
  unfold SleepAnalysis.counted_events, bind. rewrite Hs. eexists. reflexivity.
Qed.

(** The result mapping reports the episodes of the trace: their number
    per type, and their durations [(i - event_start_index) / sample_rate]. *)
Lemma analyze_counts sr sig r :
  SleepAnalysis.analyze_full_study sr sig = Ok r ->
  exists log,
    SleepAnalysis.counted_events sr sig = Ok log /\
    SleepAnalysis.Results.total_apneas r = length (apnea_episodes log) /\
    SleepAnalysis.Results.hypopneas r = length (hypopnea_episodes log) /\
    SleepAnalysis.Results.max_apnea_duration r
      = foldl SleepAnalysis.py_max 0 (map (episode_duration sr) (apnea_episodes log)) /\
    SleepAnalysis.Results.avg_apnea_duration r
      = SleepAnalysis.avg_duration (map (episode_duration sr) (apnea_episodes log)).
Proof.
  intros H. analyze_inv H s Hloop. subst r. simpl.
  exists (SleepAnalysis.closed s).
  unfold SleepAnalysis.counted_events, bind. rewrite Hloop.
  split; [reflexivity|].
  destruct (loop_tallies _ _ _ _ _ _ Hloop) as (Ha & Hh & Hda & _ & Hma & _).
  { repeat split. }
  rewrite Hma, Hda. repeat split; assumption.
Qed.

Lemma same_event_counts (time : list Q) (p : EventType -> bool) evs log :
  Forall2 (same_event time) evs log ->
  count_if (fun e => p (OSAAnalysis.type e)) evs
    = length (List.filter (fun c => p c.1.1) log).
Proof.
  unfold count_if. induction 1 as [|e c evs log [Hty _] _ IH]; [reflexivity|].
  simpl. rewrite Hty. destruct (p c.1.1); simpl; congruence.
Qed.

(** Every event of the windowed mode passed the 10 s gate. *)
Lemma scan_step_gate st sample :
  Forall (fun e => OSAAnalysis.duration e
                     = OSAAnalysis.end_time e - OSAAnalysis.start_time e /\
                   10 <= OSAAnalysis.duration e) st.2 ->
  Forall (fun e => OSAAnalysis.duration e
                     = OSAAnalysis.end_time e - OSAAnalysis.start_time e /\
                   10 <= OSAAnalysis.duration e) (OSAAnalysis.scan_step st sample).2.
Proof.
  destruct st as [[|ts ty] evs], sample as [t f]; simpl; intros H.
  - destruct (Qltb f _); [exact H|]. destruct (Qltb f _); exact H.
  - destruct (Qltb _ f); [|exact H]. simpl.
    destruct (Qle_bool _ _) eqn:E; [|exact H].
    apply Forall_app. split; [exact H|]. constructor; [|constructor].
    simpl. split; [reflexivity|]. apply Qle_bool_iff in E. exact E.
Qed.

Lemma windowed_events_gate self sig a b :
  Forall (fun e => OSAAnalysis.duration e
                     = OSAAnalysis.end_time e - OSAAnalysis.start_time e /\
                   10 <= OSAAnalysis.duration e)
    (OSAAnalysis.detect_respiratory_events self sig a b).2.
Proof.
  simpl. unfold OSAAnalysis.scan.
  generalize (OSAAnalysis.window sig a b). intros samples.
  assert (H : Forall (fun e => OSAAnalysis.duration e
                     = OSAAnalysis.end_time e - OSAAnalysis.start_time e /\
                   10 <= OSAAnalysis.duration e)
                (@pair OSAAnalysis.episode _ OSAAnalysis.Idle []).2) by constructor.
  revert H. generalize (@pair OSAAnalysis.episode (list OSAAnalysis.RespiratoryEvent)
                          OSAAnalysis.Idle []).
  induction samples as [|x samples IH]; intros st H; simpl; [exact H|].
  apply IH, scan_step_gate, H.
Qed.

(** A flow channel shorter than the gate closes no episode in the
    whole-study scan. *)
Lemma episode_run_short (N : Z) (i : nat) (flow : list Q) st :
  (Z.of_nat (i + length flow) <= N)%Z ->
  (episode_run N i flow st).2 = st.2.
Proof.
  revert i st. induction flow as [|f flow IH]; intros i st Hlen; simpl in *;
    [reflexivity|].
  rewrite IH by lia. unfold episode_step.
  destruct st.1 as [|s ty]; destruct (in_band f); simpl; try reflexivity.
  destruct (Z.leb_spec N (Z.of_nat (i - s))); [lia|reflexivity].
Qed.

Lemma short_channel_no_events sr sig :
  ~ sr == 0 -> rate_ok sr -> time sig <> [] -> datetimes_ok (time sig) ->
  aligned sig ->
  (Z.of_nat (length (flow_n sig)) <= SleepAnalysis.min_samples sr)%Z ->
  exists r, SleepAnalysis.analyze_full_study sr sig = Ok r /\
            SleepAnalysis.Results.total_apneas r = O /\
            SleepAnalysis.Results.hypopneas r = O.
Proof.
  intros Hsr Hrate Hne Hdt (Hflow & _ & Hact & _) Hshort.
  destruct (analyze_full_study_ok sr sig Hsr Hrate Hne Hdt ltac:(lia)) as [r Hr].
  exists r. split; [exact Hr|].
  destruct (analyze_counts sr sig r Hr) as (log & Hlog & -> & -> & _).
  apply counted_events_run in Hlog.
  rewrite episode_run_short in Hlog by (simpl; lia). subst log. split; reflexivity.
Qed.

(** A recording that spans less than 10 s gives no event in the windowed
    mode. *)
Lemma scan_short_span (samples : list (Q * Q)) :
  (forall x y f g, In (x, f) samples -> In (y, g) samples -> y - x < 10) ->
  (OSAAnalysis.scan samples).2 = [] /\
  forall ts ty, (OSAAnalysis.scan samples).1 = OSAAnalysis.InEvent ts ty ->
                exists f, In (ts, f) samples.
Proof.
  unfold OSAAnalysis.scan.
  induction samples as [|[t f] samples IH] using rev_ind; intros Hspan.
  - split; [reflexivity|]. intros ts ty H. discriminate H.
  - rewrite foldl_snoc.
    destruct IH as [Hev Hstart].
    { intros x y f' g Hx Hy. apply (Hspan x y f' g); apply in_or_app; left; assumption. }
    destruct (foldl OSAAnalysis.scan_step (OSAAnalysis.Idle, []) samples)
      as [[|ts ty] evs]; simpl in *; subst evs.
    + destruct (Qltb f _); [|destruct (Qltb f _)]; simpl;
        (split; [reflexivity|]); intros ts' ty' H; try discriminate H;
        injection H as <- <-; exists f; apply in_or_app; right; left; reflexivity.
    + destruct (Hstart ts ty eq_refl) as [g Hg].
      destruct (Qltb _ f); simpl.
      * assert (E : Qle_bool OSAAnalysis.min_duration (t - ts) = false).
        { apply Qle_bool_gt. unfold OSAAnalysis.min_duration.
          apply (Hspan ts t g f); apply in_or_app; [left; exact Hg|right; left; reflexivity]. }
        rewrite E. split; [reflexivity|]. intros ts' ty' H. discriminate H.
      * split; [reflexivity|]. intros ts' ty' [= <- <-]. exists g.
        apply in_or_app. left. exact Hg.
Qed.

Lemma in_window_time (sig : Signals) (a b t f : Q) :
  In (t, f) (OSAAnalysis.window sig a b) -> In t (time sig).
Proof.
  rewrite window_slice. unfold iloc_slice. intros H.
  apply list_elem_of_In in H.
  apply subseteq_take, subseteq_drop, list_elem_of_In in H.
  eapply in_zip_l, H.
Qed.

Lemma short_recording_no_events self sig a b :
  (forall x y, In x (time sig) -> In y (time sig) -> y - x < 10) ->
  (OSAAnalysis.detect_respiratory_events self sig a b).2 = [].
Proof.
  intros Hspan. simpl. apply scan_short_span.
  intros x y f g Hx Hy. apply Hspan; eapply in_window_time; eassumption.
Qed.

(** ** The test signal of the specification *)

Lemma test_time_lookup (i : nat) (t : Q) :
  test_time !! i = Some t -> (i < 600)%nat /\ t = Q_of_nat i / 10.
Proof.
  unfold test_time. change (map ?g ?l) with (g <$> l).
  rewrite list_lookup_fmap. destruct (seq 0 600 !! i) as [k|] eqn:E; [|discriminate].
  apply lookup_seq in E as [-> Hi]. simpl. intros [= <-]. split; [exact Hi|reflexivity].
Qed.

Lemma test_time_uniform : uniform_axis 10 0 test_time.
Proof.
  intros i t Hi. apply test_time_lookup in Hi as [_ ->]. lra.
Qed.

Lemma test_time_near_uniform : near_uniform_axis 10 0 test_time.
Proof. apply uniform_near_uniform; [reflexivity|apply test_time_uniform]. Qed.

Lemma test_signals_aligned : aligned test_signals.
Proof. repeat split; vm_compute; reflexivity. Qed.

(** The one maximal run of the test signal is the dip of 120 samples. *)
Lemma test_flow_runs (s i : nat) :
  maximal_run test_flow s i -> Z.of_nat (i - s) <> 100%Z.
Proof.
  intros Hrun.
  assert (Hc : exists ty, counted_episode 0 test_flow (ty, s, i)).
  { pose proof Hrun as (Hsi & Hin & _).
    destruct (Hin s ltac:(lia)) as (f & Hf & _).
    exists (band_type f). split; [exact Hrun|]. split; [simpl; lia|].
    exists f. split; [exact Hf|reflexivity]. }
  destruct Hc as [ty Hc].
  apply (episode_run_characterised 0 test_flow) in Hc.
  vm_compute in Hc. destruct Hc as [Hc|[]].
  injection Hc as _ <- <-. simpl. lia.
Qed.

Lemma test_flow_off_boundary (f : Q) : In f test_flow -> ~ f == 0.3.
Proof.
  unfold test_flow. rewrite !in_app_iff, <- !list_elem_of_In.
  intros [H|[H|H]]; apply elem_of_replicate_inv in H as ->;
    unfold Qeq; simpl; lia.
Qed.

Lemma test_window_contains_episodes : window_contains_episodes test_signals 0 60.
Proof.
  assert (Hb : forall i t, test_time !! i = Some t -> 0 <= t /\ t <= 60).
  { intros i t Hi. apply test_time_lookup in Hi as [Hi ->].
    assert (H0 : 0 <= Q_of_nat i) by (unfold Q_of_nat; rewrite <- (Zle_Qle 0); lia).
    assert (H1 : Q_of_nat i <= 600)
      by (unfold Q_of_nat; rewrite <- (Zle_Qle _ 600); lia).
    split; [apply Qle_shift_div_l|apply Qle_shift_div_r]; lra. }
  intros i t f Ht _ _. simpl in Ht.
  destruct (Hb i t Ht) as [H0 H1]. split; [exact H0|]. split; [exact H1|].
  intros t' Ht'. apply (Hb (S i) t' Ht').
Qed.

(** ** Windowed mode against whole-study mode *)

(** C2, as stated, fails: on a time axis with a gap in the recording the
    window contains the only episode, the windowed mode times it at 19 s
    and returns it, and the whole-study mode counts 3 samples and drops
    it. *)
Lemma gap_in_time_axis_disagrees :
  window_contains_episodes gap_signals 0 21 /\
  (OSAAnalysis.detect_respiratory_events (osa 1) gap_signals 0 21).2
    = [{| OSAAnalysis.type := Apnea; OSAAnalysis.start_time := 1;
          OSAAnalysis.end_time := 20; OSAAnalysis.duration := 19 |}] /\
  SleepAnalysis.counted_events 1 gap_signals = Ok [] /\
  ~ (exists log,
        SleepAnalysis.counted_events 1 gap_signals = Ok log /\
        Forall2 (same_event (time gap_signals))
          (OSAAnalysis.detect_respiratory_events (osa 1) gap_signals 0 21).2 log).
Proof.
  assert (Hev : (OSAAnalysis.detect_respiratory_events (osa 1) gap_signals 0 21).2
    = [{| OSAAnalysis.type := Apnea; OSAAnalysis.start_time := 1;
          OSAAnalysis.end_time := 20; OSAAnalysis.duration := 19 |}])
    by (vm_compute; reflexivity).
  assert (Hlog : SleepAnalysis.counted_events 1 gap_signals = Ok [])
    by (vm_compute; reflexivity).
  split; [|split; [exact Hev|split; [exact Hlog|]]].
  - intros i t f Ht Hf Hb.
    assert (Hall : forall k x, time gap_signals !! k = Some x -> 0 <= x /\ x <= 21).
    { intros k x Hk. simpl in Hk.
      do 6 (destruct k as [|k]; [injection Hk as <-; split; unfold Qle; simpl; lia|]).
      discriminate. }
    destruct (Hall i t Ht) as [H0 H1]. split; [exact H0|]. split; [exact H1|].
    intros t' Ht'. apply (Hall (S i) t' Ht').
  - intros (log & Hl & HF). rewrite Hlog in Hl. injection Hl as <-.
    rewrite Hev in HF. inversion HF.
Qed.

(** A run of exactly [N] samples lies on the boundary of both gates: on a
    time axis that is sampled at the analysis rate only up to a fraction
    of a sampling period (as an axis of float64 stamps is), the windowed
    mode can time it below 10 s and drop it while the whole-study mode
    counts it. *)
Remark jitter_at_boundary_length_disagrees :
  near_uniform_axis 1 0 (time jitter_signals) /\
  (OSAAnalysis.detect_respiratory_events (osa 1) jitter_signals 0 12).2 = [] /\
  SleepAnalysis.counted_events 1 jitter_signals = Ok [(Apnea, 1%nat, 11%nat)].
Proof.
  split; [|split; vm_compute; reflexivity].
  intros i t Hi. simpl in Hi.
  do 13 (destruct i as [|i];
         [injection Hi as <-; split; apply Qle_bool_iff; vm_compute; reflexivity|]).
  discriminate Hi.
Qed.

(** C2, amended: the 600-sample test signal, and every study whose time
    axis is sampled at the analysis rate [sr] (every stamp within a
    quarter of a sampling period of [t0 + i / sr]), with [10 * sr] a whole
    number [N] of samples, no flow sample equal to 0.3, and no maximal run
    of in-band samples that is exactly [N] samples long when it closes:
    over a window that contains every episode, the windowed mode returns
    the events the whole-study mode counts - as many, of the same types,
    with the same start and end times. *)
Theorem windowed_matches_whole_study :
  (forall self,
      let e := {| OSAAnalysis.type := Apnea; OSAAnalysis.start_time := 10.0;
                  OSAAnalysis.end_time := 22.0; OSAAnalysis.duration := 12.00 |} in
      (OSAAnalysis.detect_respiratory_events self test_signals 0 60).2 = [e] /\
      SleepAnalysis.counted_events 10 test_signals = Ok [(Apnea, 100%nat, 220%nat)] /\
      same_event test_time e (Apnea, 100%nat, 220%nat) /\
      OSAAnalysis.start_time e == 10 /\ OSAAnalysis.end_time e == 22) /\
  (forall self sig sr t0 N a b,
      0 < sr -> 10 * sr == inject_Z N ->
      near_uniform_axis sr t0 (time sig) -> aligned sig ->
      (forall f, In f (flow_n sig) -> ~ f == 0.3) ->
      (forall s i, maximal_run (flow_n sig) s i -> Z.of_nat (i - s) <> N) ->
      window_contains_episodes sig a b ->
      exists log,
        SleepAnalysis.counted_events sr sig = Ok log /\
        Forall2 (same_event (time sig))
          (OSAAnalysis.detect_respiratory_events self sig a b).2 log /\
        forall r,
          SleepAnalysis.analyze_full_study sr sig = Ok r ->
          SleepAnalysis.Results.total_apneas r
            = count_if (fun e => is_apnea_type (OSAAnalysis.type e))
                (OSAAnalysis.detect_respiratory_events self sig a b).2 /\
          SleepAnalysis.Results.hypopneas r
            = count_if (fun e => is_hypopnea_type (OSAAnalysis.type e))
                (OSAAnalysis.detect_respiratory_events self sig a b).2).
Proof.
  split.
  - intros self. cbv zeta.
    split; [vm_compute; reflexivity|].
    split; [vm_compute; reflexivity|].
    split; [repeat split; vm_compute; reflexivity|].
    split; unfold Qeq; simpl; lia.
  - intros self sig sr t0 N a b Hsr HN Hax Hal H03 Hruns Hwin.
    pose proof Hal as (Hflow & _ & Hact & _).
    destruct (counted_events_ok sr sig) as [log Hlog]; [lra|lia|].
    exists log. split; [exact Hlog|].
    pose proof (counted_events_run sr sig log Hlog) as Hrun.
    unfold SleepAnalysis.min_samples in Hrun.
    rewrite (py_int_integer _ N HN) in Hrun.
    assert (HF : Forall2 (same_event (time sig))
                   (OSAAnalysis.detect_respiratory_events self sig a b).2 log).
    { rewrite Hrun. simpl. apply (scans_agree sig sr t0 N a b); assumption. }
    split; [exact HF|].
    intros r Hr. destruct (analyze_counts sr sig r Hr) as (log' & Hlog' & -> & -> & _).
    rewrite Hlog in Hlog'. injection Hlog' as <-.
    split; symmetry; apply (same_event_counts (time sig)); exact HF.
Qed.

Lemma windowed_matches_whole_study_witness :
  0 < 10 /\ 10 * 10 == inject_Z 100 /\
  near_uniform_axis 10 0 (time test_signals) /\ aligned test_signals /\
  (forall f, In f (flow_n test_signals) -> ~ f == 0.3) /\
  (forall s i, maximal_run (flow_n test_signals) s i ->
               Z.of_nat (i - s) <> 100%Z) /\
  window_contains_episodes test_signals 0 60 /\
  exists log,
    SleepAnalysis.counted_events 10 test_signals = Ok log /\
    Forall2 (same_event (time test_signals))
      (OSAAnalysis.detect_respiratory_events (osa 10) test_signals 0 60).2 log /\
    forall r,
      SleepAnalysis.analyze_full_study 10 test_signals = Ok r ->
      SleepAnalysis.Results.total_apneas r
        = count_if (fun e => is_apnea_type (OSAAnalysis.type e))
            (OSAAnalysis.detect_respiratory_events (osa 10) test_signals 0 60).2 /\
      SleepAnalysis.Results.hypopneas r
        = count_if (fun e => is_hypopnea_type (OSAAnalysis.type e))
            (OSAAnalysis.detect_respiratory_events (osa 10) test_signals 0 60).2.
Proof.
  assert (H1 : 0 < 10) by reflexivity.
  assert (H2 : 10 * 10 == inject_Z 100) by reflexivity.
  repeat (split; [first [ exact H1 | exact H2 | exact test_time_near_uniform
                        | exact test_signals_aligned | exact test_flow_off_boundary
                        | exact test_flow_runs
                        | exact test_window_contains_episodes ]|]).
  exact (proj2 windowed_matches_whole_study (osa 10) test_signals 10 0 100%Z 0 60
           H1 H2 test_time_near_uniform test_signals_aligned test_flow_off_boundary
           test_flow_runs test_window_contains_episodes).
Defined.

(** ** The duration gate *)

(** C1: at 0.25 Hz the whole-study gate is [int(2.5) = 2] samples, not
    [ceil(2.5) = 3]: the dip of two samples (8 s) of [slow_signals] is
    counted as an apnea of 8 s, below the 10 s minimum, while the windowed
    mode drops it. *)
Theorem truncated_gate_counts_short_episode :
  SleepAnalysis.min_samples 0.25 = 2%Z /\
  Qceiling (10 * 0.25) = 3%Z /\
  SleepAnalysis.counted_events 0.25 slow_signals = Ok [(Apnea, 1%nat, 3%nat)] /\
  (exists r,
      SleepAnalysis.analyze_full_study 0.25 slow_signals = Ok r /\
      SleepAnalysis.Results.total_apneas r = 1%nat /\
      SleepAnalysis.Results.max_apnea_duration r == 8 /\
      SleepAnalysis.Results.avg_apnea_duration r == 8 /\
      ~ 10 <= SleepAnalysis.Results.max_apnea_duration r) /\
  (OSAAnalysis.detect_respiratory_events (osa 0.25) slow_signals 0 12).2 = [].
Proof.
  split; [reflexivity|]. split; [reflexivity|].
  assert (Hlog : SleepAnalysis.counted_events 0.25 slow_signals
                 = Ok [(Apnea, 1%nat, 3%nat)]) by (vm_compute; reflexivity).
  split; [exact Hlog|].
  split; [|vm_compute; reflexivity].
  destruct (analyze_full_study_ok 0.25 slow_signals) as [r Hr];
    [unfold Qeq; simpl; lia|apply boundedb_spec; vm_compute; reflexivity
    |simpl; discriminate|vm_compute; reflexivity|simpl; lia|].
  exists r. split; [exact Hr|].
  destruct (analyze_counts _ _ r Hr) as (log & Hlog' & -> & _ & -> & ->).
  rewrite Hlog in Hlog'. injection Hlog' as <-.
  split; [reflexivity|]. split; [reflexivity|]. split; [reflexivity|].
  intros H. vm_compute in H. apply H. reflexivity.
Qed.

(** C3: in the windowed mode a sample at exactly 0.3, which is in neither
    band, does not end an open episode (line 48 tests [>]); the whole-study
    mode ends it there. *)
Theorem boundary_sample_keeps_episode_open :
  in_band 0.3 = false /\
  (forall start ty events t,
      OSAAnalysis.scan_step (OSAAnalysis.InEvent start ty, events) (t, 0.3)
        = (OSAAnalysis.InEvent start ty, events)) /\
  (forall N start ty log i,
      (episode_step N (SleepAnalysis.InEvent start ty, log) i 0.3).1
        = SleepAnalysis.Idle) /\
  (OSAAnalysis.detect_respiratory_events (osa 1) boundary_signals 0 13).2
    = [{| OSAAnalysis.type := Apnea; OSAAnalysis.start_time := 1;
          OSAAnalysis.end_time := 12; OSAAnalysis.duration := 11 |}] /\
  SleepAnalysis.counted_events 1 boundary_signals = Ok [].
Proof.
  split; [reflexivity|]. split; [reflexivity|]. split; [reflexivity|].
  split; vm_compute; reflexivity.
Qed.

(** ** The scanned window *)

(** C4, as stated, fails: the sample at [t = end_time] is scanned. *)
Lemma window_includes_end_time :
  OSAAnalysis.window three_samples 0 1 = [(0, 1); (1, 1)] /\
  ~ scans_half_open three_samples 0 1.
Proof.
  split; [reflexivity|].
  intros H. destruct (proj1 (H 1 1)) as (_ & _ & Hlt).
  - simpl. right. left. reflexivity.
  - revert Hlt. unfold Qlt. simpl. lia.
Qed.

Lemma three_samples_ascending : ascending (time three_samples).
Proof.
  unfold ascending. simpl.
  repeat (constructor; [|repeat constructor; unfold Qle; simpl; lia]).
  constructor.
Qed.

Lemma window_scans_closed_interval_witness :
  ascending (time three_samples) /\
  OSAAnalysis.window three_samples (-5) 1
    = List.filter (in_window (-5) 1) (zip (time three_samples) (flow_n three_samples)) /\
  (forall t f,
      In (t, f) (OSAAnalysis.window three_samples (-5) 1) <->
      In (t, f) (zip (time three_samples) (flow_n three_samples)) /\ -5 <= t /\ t <= 1) /\
  ((forall t, In t (time three_samples) -> -5 <= t /\ t <= 1) ->
   OSAAnalysis.window three_samples (-5) 1
     = zip (time three_samples) (flow_n three_samples)).
Proof.
  split; [exact three_samples_ascending|].
  exact (window_scans_closed_interval three_samples (-5) 1 three_samples_ascending).
Defined.

(** ** Short and empty studies *)

(** C7: a study without samples makes the whole-study analysis raise
    [IndexError] at [time_series.iloc[-1]] (line 21), whatever the sample
    rate; the windowed mode returns no event. *)
Theorem empty_study_raises (sr a b : Q) :
  aligned empty_signals /\
  flow_n empty_signals = [] /\
  SleepAnalysis.analyze_full_study sr empty_signals = Raise IndexError /\
  (OSAAnalysis.detect_respiratory_events (osa sr) empty_signals a b).2 = [].
Proof.
  split; [repeat split|]. split; [reflexivity|]. split; reflexivity.
Qed.

(** ** Witnesses *)


Lemma obstructive_central_split_witness :
  exists r,
    SleepAnalysis.analyze_full_study 0.25 slow_signals = Ok r /\
    SleepAnalysis.Results.obstructive_apneas r
      = Qfloor (0.75 * inject_Z (Z.of_nat (SleepAnalysis.Results.total_apneas r))) /\
    SleepAnalysis.Results.central_apneas r
      = (Z.of_nat (SleepAnalysis.Results.total_apneas r)
         - SleepAnalysis.Results.obstructive_apneas r)%Z /\
    (SleepAnalysis.Results.obstructive_apneas r
     + SleepAnalysis.Results.central_apneas r)%Z
      = Z.of_nat (SleepAnalysis.Results.total_apneas r).
Proof.
  destruct (analyze_full_study_ok 0.25 slow_signals) as [r Hr];
    [unfold Qeq; simpl; lia|apply boundedb_spec; vm_compute; reflexivity
    |simpl; discriminate|vm_compute; reflexivity|simpl; lia|].
  exists r. split; [exact Hr|].
  exact (obstructive_central_split 0.25 slow_signals r Hr).
Defined.

(** * Further properties of the whole-study analysis *)

Lemma loop_body_buckets sr sig i f s s' :
  loop_body sr sig i f s = Ok s' -> buckets_partition s -> buckets_partition s'.
Proof.
  intros H (H1 & H2 & H3 & H4). unfold buckets_partition.
  loop_body_cases H; injection H as <-; simpl;
    unfold incr_if;
    repeat match goal with |- context [if ?b then _ else _] => destruct b; simpl end;
    lia.
Qed.

Lemma loop_buckets sr sig i flow s s' :
  loop sr sig i flow s = Ok s' -> buckets_partition s -> buckets_partition s'.
Proof.
  revert i s. induction flow as [|f flow IH]; intros i s H Hs; simpl in *.
  - injection H as <-. exact Hs.
  - destruct (loop_body sr sig i f s) as [s1|e] eqn:E; simpl in H; [|discriminate].
    eapply IH; [exact H|]. eapply loop_body_buckets; eassumption.
Qed.

(** X1: in every result of the whole-study analysis the supine and
    non-supine counts add up to the number of apneas, and so do the REM
    and NREM counts; likewise for hypopneas: each counted event falls in
    exactly one position bucket and one stage bucket. *)
Theorem event_buckets_partition sr sig r :
  analyze_full_study sr sig = Ok r ->
  (Results.supine_apneas r + Results.non_supine_apneas r
   = Results.total_apneas r)%nat /\
  (Results.rem_apneas r + Results.nrem_apneas r = Results.total_apneas r)%nat /\
  (Results.supine_hypopneas r + Results.non_supine_hypopneas r
   = Results.hypopneas r)%nat /\
  (Results.rem_hypopneas r + Results.nrem_hypopneas r = Results.hypopneas r)%nat.
Proof.
  intros H. analyze_inv H s Hloop. subst r. simpl.
  apply (loop_buckets _ _ _ _ _ _ Hloop). repeat split.
Qed.

Lemma loop_body_flow_limitations sr sig i f s s' :
  loop_body sr sig i f s = Ok s' ->
  flow_limitations s'
    = (flow_limitations s + (if is_flow_limitation f then 1 else 0))%nat.
Proof.
  intros H. loop_body_cases H; injection H as <-; simpl; lia.
Qed.

Lemma loop_flow_limitations sr sig i flow s s' :
  loop sr sig i flow s = Ok s' ->
  flow_limitations s'
    = (flow_limitations s + count_if is_flow_limitation flow)%nat.
Proof.
  revert i s. induction flow as [|f flow IH]; intros i s H; simpl in *.
  - injection H as <-. unfold count_if. simpl. lia.
  - destruct (loop_body sr sig i f s) as [s1|e] eqn:E; simpl in H; [|discriminate].
    rewrite (IH _ _ H), (loop_body_flow_limitations _ _ _ _ _ _ E).
    unfold count_if. simpl. destruct (is_flow_limitation f); simpl; lia.
Qed.

Lemma Q_of_nat_add (a b : nat) : Q_of_nat (a + b) == Q_of_nat a + Q_of_nat b.
Proof.
  unfold Q_of_nat. rewrite Nat2Z.inj_add. unfold Qeq. simpl. lia.
Qed.

Lemma Q_of_nat_nonneg (a : nat) : 0 <= Q_of_nat a.
Proof. unfold Q_of_nat, Qle. simpl. lia. Qed.

(** X2: the flow-limitation tally is the number of flow samples with
    [0.3 <= f < 0.5]; when the study lasts a positive time, AHI is the
    number of apneas and hypopneas per hour in bed and RDI is AHI plus the
    flow-limitation samples per hour, so AHI never exceeds RDI. *)
Theorem flow_limitation_tally_and_rdi sr sig r :
  analyze_full_study sr sig = Ok r ->
  Results.flow_limitations r = count_if is_flow_limitation (flow_n sig) /\
  (0 < Results.tib_hours r ->
   Results.ahi r
     == Q_of_nat (Results.total_apneas r + Results.hypopneas r)
        / Results.tib_hours r /\
   Results.rdi r
     == Results.ahi r + Q_of_nat (Results.flow_limitations r) / Results.tib_hours r /\
   0 <= Results.ahi r /\ Results.ahi r <= Results.rdi r).
Proof.
  intros H. analyze_inv H s Hloop. subst r. simpl.
  split.
  - rewrite (loop_flow_limitations _ _ _ _ _ _ Hloop). reflexivity.
  - intros Htib. unfold per_hour.
    assert (E : Qltb 0 ((t_last - t_first) / 3600) = true) by (apply Qltb_lt; exact Htib).
    rewrite E. set (tib := (t_last - t_first) / 3600) in *.
    assert (Hinv : 0 < / tib) by (apply Qinv_lt_0_compat; exact Htib).
    pose proof (Q_of_nat_nonneg (apneas s + hypopneas s)) as Hev.
    pose proof (Q_of_nat_nonneg (flow_limitations s)) as Hfl.
    assert (Hev' : 0 <= Q_of_nat (apneas s + hypopneas s) / tib)
      by (apply Qmult_le_0_compat; lra).
    assert (Hfl' : 0 <= Q_of_nat (flow_limitations s) / tib)
      by (apply Qmult_le_0_compat; lra).
    assert (Hsum : Q_of_nat (apneas s + hypopneas s + flow_limitations s) / tib
                   == Q_of_nat (apneas s + hypopneas s) / tib
                      + Q_of_nat (flow_limitations s) / tib).
    { rewrite Q_of_nat_add. field. lra. }
    split; [reflexivity|]. split; [exact Hsum|]. split; [exact Hev'|].
    rewrite Hsum. lra.
Qed.

Lemma flow_limitation_tally_and_rdi_witness :
  exists r,
    analyze_full_study 0.25 slow_signals = Ok r /\
    Results.flow_limitations r = count_if is_flow_limitation (flow_n slow_signals) /\
    (0 < Results.tib_hours r ->
     Results.ahi r
       == Q_of_nat (Results.total_apneas r + Results.hypopneas r)
          / Results.tib_hours r /\
     Results.rdi r
       == Results.ahi r
          + Q_of_nat (Results.flow_limitations r) / Results.tib_hours r /\
     0 <= Results.ahi r /\ Results.ahi r <= Results.rdi r).
Proof.
  destruct (analyze_full_study_ok 0.25 slow_signals) as [r Hr];
    [unfold Qeq; simpl; lia|apply boundedb_spec; vm_compute; reflexivity
    |simpl; discriminate|vm_compute; reflexivity|simpl; lia|].
  exists r. split; [exact Hr|].
  exact (flow_limitation_tally_and_rdi 0.25 slow_signals r Hr).
Defined.

Lemma event_buckets_partition_witness :
  exists r,
    analyze_full_study 0.25 slow_signals = Ok r /\
    (Results.supine_apneas r + Results.non_supine_apneas r
     = Results.total_apneas r)%nat /\
    (Results.rem_apneas r + Results.nrem_apneas r = Results.total_apneas r)%nat /\
    (Results.supine_hypopneas r + Results.non_supine_hypopneas r
     = Results.hypopneas r)%nat /\
    (Results.rem_hypopneas r + Results.nrem_hypopneas r = Results.hypopneas r)%nat.
Proof.
  destruct (analyze_full_study_ok 0.25 slow_signals) as [r Hr];
    [unfold Qeq; simpl; lia|apply boundedb_spec; vm_compute; reflexivity
    |simpl; discriminate|vm_compute; reflexivity|simpl; lia|].
  exists r. split; [exact Hr|].
  exact (event_buckets_partition 0.25 slow_signals r Hr).
Defined.

(** ** Exceptions of the whole-study analysis *)









(** ** What the whole-study scan counts *)

Lemma StronglySorted_snoc {A : Type} (R : A -> A -> Prop) (l : list A) (x : A) :
  StronglySorted R l -> Forall (fun y => R y x) l -> StronglySorted R (l ++ [x]).
Proof.
  induction 1 as [|y l Hs IH Hy]; intros Hx; simpl.
  - repeat constructor.
  - apply Forall_cons in Hx as [Hyx Hx]. constructor; [apply IH, Hx|].
    apply Forall_app. split; [exact Hy|]. constructor; [exact Hyx|constructor].
Qed.

(** The trace is in scan order: closing indices increase. *)
Lemma episode_run_sorted N (flow : list Q) :
  StronglySorted (fun c1 c2 : EventType * nat * nat => (c1.2 < c2.2)%nat)
    (episode_run N 0 flow (Idle, [])).2 /\
  Forall (fun c : EventType * nat * nat => (c.2 < length flow)%nat)
    (episode_run N 0 flow (Idle, [])).2.
Proof.
  induction flow as [|f l IH] using rev_ind.
  - simpl. split; constructor.
  - rewrite episode_run_snoc. destruct IH as [Hs Hb].
    destruct (episode_run N 0 l (Idle, [])) as [ep log]. simpl in Hs, Hb.
    assert (Hb' : Forall (fun c : EventType * nat * nat =>
                            (c.2 < length (l ++ [f]))%nat) log).
    { eapply Forall_impl; [exact Hb|]. intros c Hc. rewrite length_app. simpl in *. lia. }
    unfold episode_step. simpl.
    destruct ep as [|s0 ty0]; destruct (in_band f); simpl; try (split; assumption).
    destruct (N <=? Z.of_nat (length l - s0))%Z; [|split; assumption].
    split.
    + apply StronglySorted_snoc; [exact Hs|]. exact Hb.
    + apply Forall_app. split; [exact Hb'|]. constructor; [|constructor].
      rewrite length_app. simpl. lia.
Qed.

(** Two counted episodes that close in this order do not overlap. *)
Lemma counted_episodes_disjoint N flow ty1 s1 i1 ty2 s2 i2 :
  counted_episode N flow (ty1, s1, i1) -> counted_episode N flow (ty2, s2, i2) ->
  (i1 < i2)%nat -> (i1 < s2)%nat.
Proof.
  intros ((_ & _ & (g & Hg & Hgb) & _) & _) ((_ & Hrun & _) & _) Hlt. simpl in *.
  destruct (Nat.lt_ge_cases i1 s2) as [H|H]; [exact H|].
  destruct (Hrun i1 ltac:(lia)) as (x & Hx & Hxb). congruence.
Qed.

Lemma sorted_episodes_disjoint N flow (log : list (EventType * nat * nat)) :
  StronglySorted (fun c1 c2 : EventType * nat * nat => (c1.2 < c2.2)%nat) log ->
  (forall c, In c log -> counted_episode N flow c) ->
  StronglySorted (fun c1 c2 : EventType * nat * nat => (c1.2 < c2.1.2)%nat) log.
Proof.
  induction 1 as [|c log Hs IH Hc]; intros Hall; constructor.
  - apply IH. intros c' Hc'. apply Hall. right. exact Hc'.
  - apply Forall_forall. intros c' Hc'.
    rewrite Forall_forall in Hc. specialize (Hc c' Hc').
    apply list_elem_of_In in Hc'.
    pose proof (Hall c (or_introl eq_refl)) as H1.
    pose proof (Hall c' (or_intror Hc')) as H2.
    destruct c as [[ty1 s1] i1], c' as [[ty2 s2] i2]. simpl in *.
    eapply counted_episodes_disjoint; eassumption.
Qed.

(** X4: the apneas and hypopneas the whole-study analysis reports are
    the maximal runs of in-band samples that are followed by a sample in
    no band and last at least [int(10 * sample_rate)] samples, each typed
    by its first sample; the reported counts are the numbers of such runs
    per type, and no two of them overlap.  A run still open at the end of
    the recording is not counted. *)
Theorem whole_study_counts_maximal_runs sr sig r :
  analyze_full_study sr sig = Ok r ->
  exists log,
    (forall ty s i,
        In (ty, s, i) log <->
        counted_episode (min_samples sr) (flow_n sig) (ty, s, i)) /\
    StronglySorted (fun c1 c2 : EventType * nat * nat => (c1.2 < c2.1.2)%nat) log /\
    Results.total_apneas r = length (apnea_episodes log) /\
    Results.hypopneas r = length (hypopnea_episodes log).
Proof.
  intros H.
  destruct (analyze_counts sr sig r H) as (log & Hlog & Ha & Hh & _).
  apply counted_events_run in Hlog.
  destruct (episode_run_characterised (min_samples sr) (flow_n sig)) as [_ Hchar].
  destruct (episode_run_sorted (min_samples sr) (flow_n sig)) as [Hsorted _].
  rewrite <- Hlog in Hchar, Hsorted.
  exists log. split; [exact Hchar|]. split; [|split; assumption].
  apply (sorted_episodes_disjoint (min_samples sr) (flow_n sig)); [exact Hsorted|].
  intros [[ty s] i] Hin. apply Hchar, Hin.
Qed.

Lemma whole_study_counts_maximal_runs_witness :
  exists r,
    analyze_full_study 0.25 slow_signals = Ok r /\
    exists log,
      (forall ty s i,
          In (ty, s, i) log <->
          counted_episode (min_samples 0.25) (flow_n slow_signals) (ty, s, i)) /\
      StronglySorted (fun c1 c2 : EventType * nat * nat => (c1.2 < c2.1.2)%nat) log /\
      Results.total_apneas r = length (apnea_episodes log) /\
      Results.hypopneas r = length (hypopnea_episodes log).
Proof.
  destruct (analyze_full_study_ok 0.25 slow_signals) as [r Hr];
    [unfold Qeq; simpl; lia|apply boundedb_spec; vm_compute; reflexivity
    |simpl; discriminate|vm_compute; reflexivity|simpl; lia|].
  exists r. split; [exact Hr|].
  exact (whole_study_counts_maximal_runs 0.25 slow_signals r Hr).
Defined.

(** * Further properties of the windowed mode *)

Lemma windowed_episode_prefix (l k : list (Q * Q)) e p :
  windowed_episode l e p -> windowed_episode (l ++ k) e p.
Proof.
  intros (Hlt & (f & Hf & Hfb & Hty) & (g & Hg & Hgb) & Hmid & Hd).
  pose proof (lookup_lt_Some _ _ _ Hg) as Hi.
  split; [exact Hlt|]. split; [|split; [|split; [|exact Hd]]].
  - exists f. rewrite lookup_app_l by lia. repeat split; assumption.
  - exists g. rewrite lookup_app_l by lia. split; assumption.
  - intros j t x Hj Hx. rewrite lookup_app_l in Hx by lia. eapply Hmid; eassumption.
Qed.

Lemma lookup_snoc_sample (l : list (Q * Q)) (x : Q * Q) :
  (l ++ [x]) !! length l = Some x.
Proof. rewrite lookup_app_r by lia. rewrite Nat.sub_diag. reflexivity. Qed.

Lemma scan_characterised (samples : list (Q * Q)) :
  exists idx,
    Forall2 (windowed_episode samples) (OSAAnalysis.scan samples).2 idx /\
    StronglySorted (fun p q : nat * nat => (p.2 < q.1)%nat) idx /\
    Forall (fun p : nat * nat => (p.2 < length samples)%nat) idx /\
    scan_state_ok samples idx (OSAAnalysis.scan samples).1.
Proof.
  unfold OSAAnalysis.scan.
  induction samples as [|[t f] l IH] using rev_ind.
  - exists []. simpl. repeat split; constructor.
  - rewrite foldl_snoc.
    destruct IH as (idx & Hev & Hsorted & Hbound & Hst).
    destruct (foldl OSAAnalysis.scan_step (OSAAnalysis.Idle, []) l) as [ep evs].
    simpl in Hev, Hst.
    assert (Hev' : Forall2 (windowed_episode (l ++ [(t, f)])) evs idx).
    { eapply Forall2_impl; [exact Hev|]. intros e p. apply windowed_episode_prefix. }
    assert (Hbound' : Forall (fun p : nat * nat =>
                                (p.2 < length (l ++ [(t, f)]))%nat) idx).
    { eapply Forall_impl; [exact Hbound|]. intros p Hp. rewrite length_app.
      simpl in *. lia. }
    destruct ep as [|ts ty]; simpl.
    + (* idle *)
      unfold OSAAnalysis.flow_threshold_apnea, OSAAnalysis.flow_threshold_hypopnea.
      assert (Hopen : f < 0.3 ->
                scan_state_ok (l ++ [(t, f)]) idx
                  (OSAAnalysis.InEvent t (if Qltb f 0.1 then Apnea else Hypopnea))).
      { intros Hf. exists (length l), f.
        split; [apply lookup_snoc_sample|]. split; [exact Hf|]. split; [reflexivity|].
        split; [|exact Hbound].
        intros j t' g Hj Hg. apply lookup_lt_Some in Hg.
        rewrite length_app in Hg. simpl in Hg. lia. }
      destruct (Qltb f 0.1) eqn:E1.
      * exists idx. simpl. repeat split; try assumption.
        exact (Hopen ltac:(apply Qltb_lt in E1; lra)).
      * destruct (Qltb f 0.3) eqn:E2.
        -- exists idx. simpl. repeat split; try assumption.
           exact (Hopen ltac:(apply Qltb_lt in E2; lra)).
        -- exists idx. simpl. repeat split; assumption.
    + (* an episode is open *)
      destruct Hst as (s & f0 & Hs & Hf0 & Hty & Hmid & Hafter).
      pose proof (lookup_lt_Some _ _ _ Hs) as Hsl.
      unfold OSAAnalysis.flow_threshold_hypopnea.
      destruct (Qltb 0.3 f) eqn:E.
      * apply Qltb_lt in E. simpl.
        destruct (Qle_bool OSAAnalysis.min_duration (t - ts)) eqn:Eg.
        -- exists (idx ++ [(s, length l)]). simpl.
           split; [|split; [|split; [|exact I]]].
           ++ apply Forall2_app; [exact Hev'|]. constructor; [|constructor].
              split; [simpl; lia|]. simpl.
              split; [exists f0; rewrite lookup_app_l by lia; repeat split; assumption|].
              split; [exists f; split; [apply lookup_snoc_sample|exact E]|].
              split; [|split; [reflexivity|apply Qle_bool_iff in Eg; exact Eg]].
              intros j t' g Hj Hg. rewrite lookup_app_l in Hg by lia.
              eapply Hmid; [|exact Hg]. lia.
           ++ apply StronglySorted_snoc; [exact Hsorted|].
              eapply Forall_impl; [exact Hafter|]. intros p Hp. simpl. exact Hp.
           ++ apply Forall_app. split; [exact Hbound'|]. constructor; [|constructor].
              simpl. rewrite length_app. simpl. lia.
        -- exists idx. simpl. repeat split; assumption.
      * apply Qltb_ge in E. exists idx. simpl.
        split; [exact Hev'|]. split; [exact Hsorted|]. split; [exact Hbound'|].
        exists s, f0. split; [rewrite lookup_app_l by lia; exact Hs|].
        split; [exact Hf0|]. split; [exact Hty|]. split; [|exact Hafter].
        intros j t' g Hj Hg.
        destruct (Nat.eq_dec j (length l)) as [->|Hne].
        -- rewrite lookup_snoc_sample in Hg. injection Hg as <- <-. exact E.
        -- apply lookup_lt_Some in Hg as Hjl. rewrite length_app in Hjl. simpl in Hjl.
           rewrite lookup_app_l in Hg by lia. eapply Hmid; eassumption.
Qed.

(** X5: every event the windowed mode returns is an episode of the
    scanned window: it opens at a sample below 0.3, which gives the type
    (Apnea below 0.1, Hypopnea otherwise) and the start time, it closes at
    the first later sample above 0.3, which gives the end time, and it
    lasts at least 10 s; the events come in scan order and do not
    overlap.  An episode still open at the end of the window is not
    returned. *)
Theorem windowed_events_are_episodes self sig a b :
  exists idx,
    Forall2 (windowed_episode (OSAAnalysis.window sig a b))
      (OSAAnalysis.detect_respiratory_events self sig a b).2 idx /\
    StronglySorted (fun p q : nat * nat => (p.2 < q.1)%nat) idx.
Proof.
  destruct (scan_characterised (OSAAnalysis.window sig a b)) as (idx & H1 & H2 & _).
  exists idx. split; assumption.
Qed.

Lemma windowed_episode_times samples e p :
  windowed_episode samples e p ->
  (exists f, In (OSAAnalysis.start_time e, f) samples) /\
  (exists g, In (OSAAnalysis.end_time e, g) samples) /\
  OSAAnalysis.start_time e + 10 <= OSAAnalysis.end_time e.
Proof.
  intros (_ & (f & Hf & _) & (g & Hg & _) & _ & Hd & Hge).
  split; [exists f; apply list_elem_of_In, list_elem_of_lookup; eauto|].
  split; [exists g; apply list_elem_of_In, list_elem_of_lookup; eauto|].
  rewrite Hd in Hge. lra.
Qed.

Lemma in_window_bounds (sig : Signals) (a b t f : Q) :
  ascending (time sig) -> In (t, f) (OSAAnalysis.window sig a b) -> a <= t /\ t <= b.
Proof.
  intros Hs Hin. rewrite window_slice, window_closed in Hin by exact Hs.
  apply filter_In in Hin as [_ Hw]. unfold in_window in Hw. simpl in Hw.
  apply andb_true_iff in Hw as [H1 H2]. apply Qle_bool_iff in H1, H2. tauto.
Qed.

Lemma filter_all_true {A : Type} (p : A -> bool) (l : list A) :
  Forall (fun x => p x = true) l -> List.filter p l = l.
Proof.
  induction 1 as [|x l Hx Hl IH]; simpl; [reflexivity|]. rewrite Hx, IH. reflexivity.
Qed.

(** X6: on an ascending time axis every event detected over the window
    [[a, b]] starts and ends inside the window, at least 10 s apart; so
    asking the detector for the events in the same time frame returns all
    of them, and any other time frame returns exactly the stored events
    that start at or after its start and end at or before its end. *)
Theorem detected_events_lie_in_window self sig a b :
  ascending (time sig) ->
  Forall (fun e => a <= OSAAnalysis.start_time e /\
                   OSAAnalysis.start_time e + 10 <= OSAAnalysis.end_time e /\
                   OSAAnalysis.end_time e <= b)
    (OSAAnalysis.detect_respiratory_events self sig a b).2 /\
  OSAAnalysis.get_events_in_timeframe
    (OSAAnalysis.detect_respiratory_events self sig a b).1 a b
  = (OSAAnalysis.detect_respiratory_events self sig a b).2 /\
  forall lo hi e,
    In e (OSAAnalysis.get_events_in_timeframe
            (OSAAnalysis.detect_respiratory_events self sig a b).1 lo hi) <->
    In e (OSAAnalysis.detect_respiratory_events self sig a b).2 /\
    lo <= OSAAnalysis.start_time e /\ OSAAnalysis.end_time e <= hi.
Proof.
  intros Hs.
  assert (Hall : Forall (fun e => a <= OSAAnalysis.start_time e /\
                   OSAAnalysis.start_time e + 10 <= OSAAnalysis.end_time e /\
                   OSAAnalysis.end_time e <= b)
                   (OSAAnalysis.detect_respiratory_events self sig a b).2).
  { destruct (scan_characterised (OSAAnalysis.window sig a b)) as (idx & Hev & _).
    simpl. induction Hev as [|e p evs idx He _ IH]; constructor; [|exact IH].
    destruct (windowed_episode_times _ e p He) as ((f & Hf) & (g & Hg) & Hd).
    destruct (in_window_bounds sig a b _ f Hs Hf) as [H1 _].
    destruct (in_window_bounds sig a b _ g Hs Hg) as [_ H2].
    repeat split; assumption. }
  split; [exact Hall|]. split.
  - unfold OSAAnalysis.get_events_in_timeframe. simpl.
    apply filter_all_true. simpl in Hall.
    eapply Forall_impl; [exact Hall|]. intros e (H1 & _ & H2).
    unfold OSAAnalysis.event_within. apply andb_true_iff.
    rewrite !Qle_bool_iff. split; assumption.
  - intros lo hi e. unfold OSAAnalysis.get_events_in_timeframe. simpl.
    rewrite filter_In. unfold OSAAnalysis.event_within.
    rewrite andb_true_iff, !Qle_bool_iff. reflexivity.
Qed.

Lemma boundary_signals_ascending : ascending (time boundary_signals).
Proof.
  unfold ascending. simpl.
  repeat (constructor; [|repeat constructor; unfold Qle; simpl; lia]).
  constructor.
Qed.

Lemma detected_events_lie_in_window_witness :
  ascending (time boundary_signals) /\
  Forall (fun e => 0 <= OSAAnalysis.start_time e /\
                   OSAAnalysis.start_time e + 10 <= OSAAnalysis.end_time e /\
                   OSAAnalysis.end_time e <= 13)
    (OSAAnalysis.detect_respiratory_events (osa 1) boundary_signals 0 13).2 /\
  OSAAnalysis.get_events_in_timeframe
    (OSAAnalysis.detect_respiratory_events (osa 1) boundary_signals 0 13).1 0 13
  = (OSAAnalysis.detect_respiratory_events (osa 1) boundary_signals 0 13).2 /\
  forall lo hi e,
    In e (OSAAnalysis.get_events_in_timeframe
            (OSAAnalysis.detect_respiratory_events (osa 1) boundary_signals 0 13).1
            lo hi) <->
    In e (OSAAnalysis.detect_respiratory_events (osa 1) boundary_signals 0 13).2 /\
    lo <= OSAAnalysis.start_time e /\ OSAAnalysis.end_time e <= hi.
Proof.
  split; [exact boundary_signals_ascending|].
  exact (detected_events_lie_in_window (osa 1) boundary_signals 0 13
           boundary_signals_ascending).
Defined.

Lemma filter_types_partition (events : list OSAAnalysis.RespiratoryEvent) :
  length events
  = (length (List.filter (OSAAnalysis.has_type Apnea) events)
     + length (List.filter (OSAAnalysis.has_type Hypopnea) events))%nat.
Proof.
  induction events as [|e events IH]; [reflexivity|].
  simpl.
  destruct (OSAAnalysis.has_type Apnea e) eqn:E1,
           (OSAAnalysis.has_type Hypopnea e) eqn:E2;
    unfold OSAAnalysis.has_type in E1, E2; destruct (OSAAnalysis.type e);
    try discriminate; simpl; lia.
Qed.

(** X7: the summary of the detector counts what the last detection
    returned: the total is the number of returned events and equals the
    apnea count plus the hypopnea count; after clearing, the summary is
    all zeros and every time frame is empty. *)
Theorem event_summary_counts self sig a b lo hi :
  let self' := (OSAAnalysis.detect_respiratory_events self sig a b).1 in
  let events := (OSAAnalysis.detect_respiratory_events self sig a b).2 in
  OSAAnalysis.total_events (OSAAnalysis.get_event_summary self') = length events /\
  OSAAnalysis.apnea_count (OSAAnalysis.get_event_summary self')
    = count_if (fun e => is_apnea_type (OSAAnalysis.type e)) events /\
  OSAAnalysis.hypopnea_count (OSAAnalysis.get_event_summary self')
    = count_if (fun e => is_hypopnea_type (OSAAnalysis.type e)) events /\
  OSAAnalysis.total_events (OSAAnalysis.get_event_summary self')
    = (OSAAnalysis.apnea_count (OSAAnalysis.get_event_summary self')
       + OSAAnalysis.hypopnea_count (OSAAnalysis.get_event_summary self'))%nat /\
  OSAAnalysis.get_event_summary (OSAAnalysis.clear_detected_events self')
    = {| OSAAnalysis.total_events := 0; OSAAnalysis.apnea_count := 0;
         OSAAnalysis.hypopnea_count := 0 |} /\
  OSAAnalysis.get_events_in_timeframe (OSAAnalysis.clear_detected_events self') lo hi
    = [].
Proof.
  cbv zeta. simpl.
  split; [reflexivity|].
  split; [unfold count_if; f_equal; apply filter_ext; intros e;
          unfold OSAAnalysis.has_type; destruct (OSAAnalysis.type e); reflexivity|].
  split; [unfold count_if; f_equal; apply filter_ext; intros e;
          unfold OSAAnalysis.has_type; destruct (OSAAnalysis.type e); reflexivity|].
  split; [apply filter_types_partition|].
  split; reflexivity.
Qed.

(** * Summary statistics *)

Lemma foldl_add_Fin (l : list Q) (a : Q) :
  foldl add (Fin a) (map Fin l) = Fin (foldl Qplus a l).
Proof.
  revert a. induction l as [|x l IH]; intros a; simpl; [reflexivity|]. apply IH.
Qed.

Lemma foldl_Qplus_bounds (lo hi : Q) (l : list Q) (a : Q) :
  Forall (fun x => lo <= x /\ x <= hi) l ->
  a + Q_of_nat (length l) * lo <= foldl Qplus a l /\
  foldl Qplus a l <= a + Q_of_nat (length l) * hi.
Proof.
  intros H. revert a. induction H as [|x l [Hx1 Hx2] _ IH]; intros a; simpl.
  - change (Q_of_nat 0) with 0. lra.
  - destruct (IH (a + x)) as [H1 H2].
    assert (E : Q_of_nat (S (length l)) == 1 + Q_of_nat (length l)).
    { unfold Q_of_nat. rewrite Nat2Z.inj_succ. unfold Qeq. simpl. lia. }
    rewrite E. split; lra.
Qed.

Lemma Q_of_nat_pos (n : nat) : n <> O -> 0 < Q_of_nat n.
Proof. intros H. unfold Q_of_nat, Qlt. simpl. lia. Qed.

Lemma mean_of_Q (l : list Q) :
  l <> [] -> mean (of_Q l) = Fin (foldl Qplus 0 l / Q_of_nat (length l)).
Proof.
  intros Hne. unfold mean, of_Q, sum. rewrite dropna_map_Fin, foldl_add_Fin, length_map.
  unfold div.
  assert (E : Qeq_bool (Q_of_nat (length l)) 0 = false).
  { apply not_true_iff_false. intros E. apply Qeq_bool_iff in E.
    assert (0 < Q_of_nat (length l)) by (apply Q_of_nat_pos; destruct l; simpl; congruence).
    lra. }
  rewrite E. reflexivity.
Qed.

Lemma mean_between (lo hi : Q) (l : list Q) :
  l <> [] -> Forall (fun x => lo <= x /\ x <= hi) l ->
  finite_between lo hi (mean (of_Q l)).
Proof.
  intros Hne H. rewrite mean_of_Q by exact Hne. eexists. split; [reflexivity|].
  destruct (foldl_Qplus_bounds lo hi l 0 H) as [H1 H2].
  assert (Hn : 0 < Q_of_nat (length l))
    by (apply Q_of_nat_pos; destruct l; simpl; congruence).
  split; [apply Qle_shift_div_l|apply Qle_shift_div_r]; lra.
Qed.

Lemma finite_between_Forall (lo hi : Q) (l : list Q) :
  Forall (fun x => lo <= x /\ x <= hi) l -> Forall (finite_between lo hi) (of_Q l).
Proof.
  intros H. unfold of_Q. apply List.Forall_map.
  eapply Forall_impl; [exact H|]. intros x [H1 H2]. exists x. repeat split; assumption.
Qed.

Lemma median_between (lo hi : Q) (l : list Q) :
  l <> [] -> Forall (fun x => lo <= x /\ x <= hi) l ->
  finite_between lo hi (median (of_Q l)).
Proof.
  intros Hne H. unfold median, of_Q. rewrite dropna_map_Fin.
  pose proof (sort_Forall _ _ (finite_between_Forall lo hi l H)) as Hs.
  unfold of_Q in Hs. set (s := sort (map Fin l)) in *.
  assert (Hlen : length s <> O).
  { assert (E : forall k : list float64, length (sort k) = length k).
    { clear. induction k as [|x k IH]; [reflexivity|]. simpl. rewrite <- IH.
      generalize (sort k). clear. intros k. induction k as [|y k IH]; [reflexivity|].
      simpl. destruct (leb x y); simpl; [reflexivity|]. rewrite IH. reflexivity. }
    unfold s. rewrite E, length_map. destruct l; simpl; congruence. }
  destruct (length s) as [|n] eqn:Hn; [congruence|].
  assert (Hlt : (S n / 2 < length s)%nat) by (rewrite Hn; apply Nat.div_lt; lia).
  destruct (Nat.even (S n)).
  - destruct (nth_Forall _ s (S n / 2 - 1) NaN Hs ltac:(lia)) as (x & -> & Hx1 & Hx2).
    destruct (nth_Forall _ s (S n / 2) NaN Hs Hlt) as (y & -> & Hy1 & Hy2).
    simpl. eexists. split; [reflexivity|].
    split; [apply Qle_shift_div_l|apply Qle_shift_div_r]; lra.
  - apply nth_Forall; assumption.
Qed.

Lemma affine_between (a b : Q) (l : list Q) :
  0 <= b -> unit_channel l ->
  Forall (fun x => a <= x /\ x <= a + b) (map (fun x => a + x * b) l).
Proof.
  intros Hb H. apply List.Forall_map. eapply Forall_impl; [exact H|].
  intros x [H0 H1]. simpl. split; nra.
Qed.

(** X8: for normalised SpO2 and pulse channels with at least one sample,
    the reported minimum, mean and median SpO2 are numbers between 85 and
    100 with minimum <= mean, and the reported heart rates are numbers
    with 50 <= min <= mean <= max <= 120; on an empty channel the
    statistics are [nan], not an exception. *)
Theorem oximetry_and_heart_rate_ranges sr sig r :
  analyze_full_study sr sig = Ok r ->
  (spo2_n sig <> [] -> unit_channel (spo2_n sig) ->
   exists mn av md,
     Results.min_spo2 r = Fin mn /\ Results.avg_spo2 r = Fin av /\
     Results.baseline_spo2 r = Fin md /\
     85 <= mn /\ mn <= av /\ av <= 100 /\ 85 <= md /\ md <= 100) /\
  (pulse_n sig <> [] -> unit_channel (pulse_n sig) ->
   exists lo av hi,
     Results.min_hr r = Fin lo /\ Results.avg_hr r = Fin av /\
     Results.max_hr r = Fin hi /\
     50 <= lo /\ lo <= av /\ av <= hi /\ hi <= 120) /\
  (spo2_n sig = [] ->
   Results.min_spo2 r = NaN /\ Results.avg_spo2 r = NaN /\
   Results.baseline_spo2 r = NaN /\ Results.time_below_90 r = NaN) /\
  (pulse_n sig = [] ->
   Results.min_hr r = NaN /\ Results.max_hr r = NaN /\ Results.avg_hr r = NaN).
Proof.
  intros H. analyze_inv H s Hloop. subst r. simpl.
  split; [|split; [|split]].
  - intros Hne Hu.
    set (l := map (fun x => 85 + x * 15) (spo2_n sig)).
    assert (Hl : l <> []) by (unfold l; destruct (spo2_n sig); simpl; congruence).
    assert (Hb : Forall (fun x => 85 <= x /\ x <= 85 + 15) l)
      by (apply affine_between; [lra|exact Hu]).
    destruct (series_min_spec l Hl) as (mn & Hmn & Hin & Hle).
    destruct (mean_between 85 (85 + 15) l Hl Hb) as (av & Hav & Hav1 & Hav2).
    destruct (median_between 85 (85 + 15) l Hl Hb) as (md & Hmd & Hmd1 & Hmd2).
    exists mn, av, md. unfold of_Q. rewrite Hmn. unfold of_Q in Hav, Hmd.
    rewrite Hav, Hmd. repeat split; try reflexivity; try lra.
    + rewrite Forall_forall in Hb. apply list_elem_of_In in Hin.
      destruct (Hb mn Hin). lra.
    + assert (Hb' : Forall (fun x => mn <= x /\ x <= 85 + 15) l).
      { apply Forall_forall. intros x Hx. rewrite Forall_forall in Hb.
        split; [apply Hle, list_elem_of_In, Hx|apply (Hb x Hx)]. }
      destruct (mean_between mn (85 + 15) l Hl Hb') as (av' & Hav' & H1 & _).
      unfold of_Q in Hav'. rewrite Hav in Hav'. injection Hav' as <-. exact H1.
  - intros Hne Hu.
    set (l := map (fun x => 50 + x * 70) (pulse_n sig)).
    assert (Hl : l <> []) by (unfold l; destruct (pulse_n sig); simpl; congruence).
    assert (Hb : Forall (fun x => 50 <= x /\ x <= 50 + 70) l)
      by (apply affine_between; [lra|exact Hu]).
    destruct (series_min_spec l Hl) as (mn & Hmn & Hin & Hle).
    destruct (series_max_spec l Hl) as (mx & Hmx & Hinx & Hge).
    assert (Hb' : Forall (fun x => mn <= x /\ x <= mx) l).
    { apply Forall_forall. intros x Hx. apply list_elem_of_In in Hx.
      split; [apply Hle|apply Hge]; exact Hx. }
    destruct (mean_between mn mx l Hl Hb') as (av & Hav & Hav1 & Hav2).
    exists mn, av, mx. unfold of_Q. rewrite Hmn, Hmx. unfold of_Q in Hav.
    rewrite Hav. rewrite Forall_forall in Hb.
    apply list_elem_of_In in Hin, Hinx.
    destruct (Hb mn Hin), (Hb mx Hinx).
    repeat split; try reflexivity; try assumption; lra.
  - intros ->. repeat split.
  - intros ->. repeat split.
Qed.

Lemma oximetry_and_heart_rate_ranges_witness :
  exists r,
    analyze_full_study 0.25 slow_signals = Ok r /\
    (spo2_n slow_signals <> [] -> unit_channel (spo2_n slow_signals) ->
     exists mn av md,
       Results.min_spo2 r = Fin mn /\ Results.avg_spo2 r = Fin av /\
       Results.baseline_spo2 r = Fin md /\
       85 <= mn /\ mn <= av /\ av <= 100 /\ 85 <= md /\ md <= 100) /\
    (pulse_n slow_signals <> [] -> unit_channel (pulse_n slow_signals) ->
     exists lo av hi,
       Results.min_hr r = Fin lo /\ Results.avg_hr r = Fin av /\
       Results.max_hr r = Fin hi /\
       50 <= lo /\ lo <= av /\ av <= hi /\ hi <= 120) /\
    (spo2_n slow_signals = [] ->
     Results.min_spo2 r = NaN /\ Results.avg_spo2 r = NaN /\
     Results.baseline_spo2 r = NaN /\ Results.time_below_90 r = NaN) /\
    (pulse_n slow_signals = [] ->
     Results.min_hr r = NaN /\ Results.max_hr r = NaN /\ Results.avg_hr r = NaN).
Proof.
  destruct (analyze_full_study_ok 0.25 slow_signals) as [r Hr];
    [unfold Qeq; simpl; lia|apply boundedb_spec; vm_compute; reflexivity
    |simpl; discriminate|vm_compute; reflexivity|simpl; lia|].
  exists r. split; [exact Hr|].
  exact (oximetry_and_heart_rate_ranges 0.25 slow_signals r Hr).
Defined.

Lemma count_if_le {A : Type} (p : A -> bool) (l : list A) :
  (count_if p l <= length l)%nat.
Proof. unfold count_if. apply filter_length_le. Qed.

Lemma np_percent_finite (count n : nat) :
  n <> O -> (count <= n)%nat ->
  exists p, np_percent count n = Fin p /\ 0 <= p /\ p <= 100 /\
            p == Q_of_nat count / Q_of_nat n * 100.
Proof.
  intros Hn Hle. unfold np_percent, div, mul.
  assert (Hpos : 0 < Q_of_nat n) by (apply Q_of_nat_pos; exact Hn).
  assert (E : Qeq_bool (Q_of_nat n) 0 = false).
  { apply not_true_iff_false. intros E. apply Qeq_bool_iff in E. lra. }
  rewrite E. eexists. split; [reflexivity|].
  assert (H0 : 0 <= Q_of_nat count) by apply Q_of_nat_nonneg.
  assert (H1 : Q_of_nat count <= Q_of_nat n)
    by (unfold Q_of_nat; rewrite <- Zle_Qle; lia).
  assert (Hd0 : 0 <= Q_of_nat count / Q_of_nat n) by (apply Qle_shift_div_l; lra).
  assert (Hd1 : Q_of_nat count / Q_of_nat n <= 1) by (apply Qle_shift_div_r; lra).
  split; [lra|]. split; [lra|reflexivity].
Qed.

Lemma count_if_id_map {A : Type} (p : A -> bool) (l : list A) :
  count_if id (map p l) = count_if p l.
Proof.
  unfold count_if. induction l as [|a l IH]; [reflexivity|].
  simpl. change (id (p a)) with (p a).
  destruct (p a); simpl; rewrite IH; reflexivity.
Qed.

(** X9: the REM-like share is the percentage of activity samples below
    0.2 and the NREM-like share is its complement to 100; both are numbers
    between 0 and 100 whenever the activity channel has a sample, and both
    are [nan] - with both stage AHIs reported as 0 - when it has none. *)
Theorem stage_percentages sr sig r :
  analyze_full_study sr sig = Ok r ->
  (activity_n sig <> [] ->
   exists p q,
     Results.rem_percent r = Fin p /\ Results.nrem_percent r = Fin q /\
     p == Q_of_nat (count_if (fun a => Qltb a 0.2) (activity_n sig))
          / Q_of_nat (length (activity_n sig)) * 100 /\
     0 <= p /\ p <= 100 /\ p + q == 100) /\
  (activity_n sig = [] ->
   Results.rem_percent r = NaN /\ Results.nrem_percent r = NaN /\
   Results.rem_ahi r = Fin 0 /\ Results.nrem_ahi r = Fin 0).
Proof.
  intros H. analyze_inv H s Hloop. subst r. simpl.
  unfold rem_periods. split.
  - intros Hne.
    rewrite count_if_id_map, length_map.
    destruct (np_percent_finite (count_if (fun a => Qltb a 0.2) (activity_n sig))
                (length (activity_n sig))) as (p & Hp & H0 & H1 & Hpe).
    { destruct (activity_n sig); simpl; congruence. }
    { apply count_if_le. }
    exists p, (100 + - p). rewrite Hp. simpl.
    repeat split; try assumption. lra.
  - intros ->. repeat split.
Qed.

Lemma stage_percentages_witness :
  exists r,
    analyze_full_study 0.25 slow_signals = Ok r /\
    (activity_n slow_signals <> [] ->
     exists p q,
       Results.rem_percent r = Fin p /\ Results.nrem_percent r = Fin q /\
       p == Q_of_nat (count_if (fun a => Qltb a 0.2) (activity_n slow_signals))
            / Q_of_nat (length (activity_n slow_signals)) * 100 /\
       0 <= p /\ p <= 100 /\ p + q == 100) /\
    (activity_n slow_signals = [] ->
     Results.rem_percent r = NaN /\ Results.nrem_percent r = NaN /\
     Results.rem_ahi r = Fin 0 /\ Results.nrem_ahi r = Fin 0).
Proof.
  destruct (analyze_full_study_ok 0.25 slow_signals) as [r Hr];
    [unfold Qeq; simpl; lia|apply boundedb_spec; vm_compute; reflexivity
    |simpl; discriminate|vm_compute; reflexivity|simpl; lia|].
  exists r. split; [exact Hr|].
  exact (stage_percentages 0.25 slow_signals r Hr).
Defined.

(** ** Position codes of a normalised channel *)

Lemma py_int_unit (p : Q) : 0 <= p -> p <= 1 -> py_int p = 0%Z \/ py_int p = 1%Z.
Proof.
  intros H0 H1. unfold py_int. unfold Qle in *. simpl in *.
  assert (Hn : (0 <= Qnum p <= Z.pos (Qden p))%Z) by lia.
  rewrite Z.quot_div_nonneg by lia.
  destruct (Z.eq_dec (Qnum p) (Z.pos (Qden p))) as [E|E].
  - right. rewrite E. apply Z.div_same. lia.
  - left. apply Z.div_small. lia.
Qed.

Lemma position_at_unit (sig : Signals) (i : nat) :
  unit_channel (body_pos_n sig) ->
  position_at sig i = 0%Z \/ position_at sig i = 1%Z.
Proof.
  intros Hu. unfold position_at.
  destruct (body_pos_n sig !! i) as [p|] eqn:E; [|left; reflexivity].
  unfold unit_channel in Hu. rewrite Forall_forall in Hu.
  destruct (Hu p) as [H0 H1]; [apply list_elem_of_lookup; eauto|].
  apply py_int_unit; assumption.
Qed.

Lemma count_if_zero {A : Type} (p : A -> bool) (l : list A) :
  (forall x, In x l -> p x = false) -> count_if p l = O.
Proof.
  unfold count_if. induction l as [|x l IH]; intros H; simpl; [reflexivity|].
  rewrite (H x (or_introl eq_refl)). apply IH. intros y Hy. apply H. right. exact Hy.
Qed.

Lemma count_if_two (codes : list Z) :
  (forall c, In c codes -> c = 0%Z \/ c = 1%Z) ->
  (count_if (Z.eqb 0) codes + count_if (Z.eqb 1) codes = length codes)%nat.
Proof.
  unfold count_if. induction codes as [|c codes IH]; intros H; simpl; [reflexivity|].
  specialize (IH (fun x Hx => H x (or_intror Hx))).
  destruct (H c (or_introl eq_refl)) as [->| ->]; simpl; lia.
Qed.

(** X10: when the position channel handed to the analysis is a normalised
    one (values in [[0, 1]]), line 58 reads the code 1 off the samples
    equal to 1.0 and the code 0 off all others: the right and prone
    percentages are 0, no other position is reported, and - the channels
    being of equal, non-zero length - supine and left add up to 100. *)
Theorem normalised_positions_two_codes sr sig r :
  analyze_full_study sr sig = Ok r ->
  unit_channel (body_pos_n sig) ->
  Results.right_percent r == 0 /\ Results.prone_percent r == 0 /\
  Results.other_positions r = ∅ /\
  (length (flow_n sig) = length (body_pos_n sig) -> body_pos_n sig <> [] ->
   Results.supine_percent r + Results.left_percent r == 100).
Proof.
  intros H Hu. analyze_inv H s Hloop. subst r. simpl.
  pose proof (loop_position_counts _ _ _ _ _ _ Hloop) as Hpc. simpl in Hpc.
  set (codes := map (position_at sig) (seq 0 (length (flow_n sig)))) in *.
  assert (Hcodes : forall c, In c codes -> c = 0%Z \/ c = 1%Z).
  { intros c Hc. unfold codes in Hc. apply in_map_iff in Hc as (i & <- & _).
    apply position_at_unit, Hu. }
  assert (Hnone : forall c, c <> 0%Z -> c <> 1%Z -> position_counts s !! c = None).
  { intros c H0 H1. rewrite Hpc, tally_positions_lookup, lookup_empty.
    rewrite count_if_zero; [reflexivity|].
    intros x Hx. apply Z.eqb_neq. destruct (Hcodes x Hx); congruence. }
  assert (Hzero : forall n, percent_of 0 n == 0).
  { intros n. unfold percent_of. destruct (0 <? n)%nat; [|reflexivity].
    unfold Qdiv. change (Q_of_nat 0) with 0. rewrite Qmult_0_l. reflexivity. }
  split; [rewrite Hnone by lia; apply Hzero|].
  split; [rewrite Hnone by lia; apply Hzero|].
  split.
  - apply map_eq. intros c. rewrite lookup_fmap, map_lookup_filter, lookup_empty.
    destruct (position_counts s !! c) as [k|] eqn:E; [|reflexivity]. simpl.
    rewrite option_guard_False; [reflexivity|]. simpl. intros Hc.
    rewrite Hnone in E by lia. discriminate.
  - intros Hlen Hne.
    assert (Hcount : forall c, default O (position_counts s !! c) = count_if (Z.eqb c) codes).
    { intros c. rewrite Hpc, tally_positions_lookup, lookup_empty.
      destruct (Nat.eqb_spec (count_if (Z.eqb c) codes) 0) as [->|_]; reflexivity. }
    rewrite !Hcount.
    assert (Hn : length (body_pos_n sig) <> O) by (destruct (body_pos_n sig); simpl; congruence).
    rewrite !percent_of_share by exact Hn.
    pose proof (count_if_two codes Hcodes) as Hsum.
    assert (Hl : length codes = length (body_pos_n sig)).
    { unfold codes. rewrite length_map, length_seq. exact Hlen. }
    rewrite Hl in Hsum.
    assert (Hq : Q_of_nat (count_if (Z.eqb 0) codes) + Q_of_nat (count_if (Z.eqb 1) codes)
                 == Q_of_nat (length (body_pos_n sig))).
    { rewrite <- Q_of_nat_add, Hsum. reflexivity. }
    assert (Hpos : 0 < Q_of_nat (length (body_pos_n sig))) by (apply Q_of_nat_pos; exact Hn).
    set (c0 := Q_of_nat (count_if (Z.eqb 0) codes)) in *.
    set (c1 := Q_of_nat (count_if (Z.eqb 1) codes)) in *.
    set (n := Q_of_nat (length (body_pos_n sig))) in *.
    assert (E : c0 / n * 100 + c1 / n * 100 == (c0 + c1) / n * 100) by (field; lra).
    rewrite E, Hq. field. lra.
Qed.

Lemma normalised_positions_two_codes_witness :
  exists r,
    analyze_full_study 0.25 slow_signals = Ok r /\
    unit_channel (body_pos_n slow_signals) /\
    Results.right_percent r == 0 /\ Results.prone_percent r == 0 /\
    Results.other_positions r = ∅ /\
    Results.supine_percent r + Results.left_percent r == 100.
Proof.
  destruct (analyze_full_study_ok 0.25 slow_signals) as [r Hr];
    [unfold Qeq; simpl; lia|apply boundedb_spec; vm_compute; reflexivity
    |simpl; discriminate|vm_compute; reflexivity|simpl; lia|].
  assert (Hu : unit_channel (body_pos_n slow_signals)).
  { repeat constructor; unfold Qle; simpl; lia. }
  destruct (normalised_positions_two_codes 0.25 slow_signals r Hr Hu)
    as (H1 & H2 & H3 & H4).
  exists r. split; [exact Hr|]. split; [exact Hu|].
  split; [exact H1|]. split; [exact H2|]. split; [exact H3|].
  apply H4; [reflexivity|simpl; discriminate].
Defined.

(** ** Raw position codes *)

Lemma count_if_map {A B : Type} (p : B -> bool) (q : A -> bool) (g : A -> B)
    (l : list A) :
  (forall x, p (g x) = q x) -> count_if p (map g l) = count_if q l.
Proof.
  intros H. unfold count_if. induction l as [|x l IH]; [reflexivity|].
  simpl. rewrite H. destruct (q x); simpl; rewrite IH; reflexivity.
Qed.

Lemma py_int_one (p : Q) : p == 1 -> py_int p = 1%Z.
Proof.
  unfold Qeq, py_int. simpl. intros H.
  assert (E : Qnum p = Z.pos (Qden p)) by lia.
  rewrite E. apply Z.quot_same. lia.
Qed.

Lemma py_int_below_one (p : Q) : 0 <= p -> p < 1 -> py_int p = 0%Z.
Proof.
  unfold Qle, Qlt, py_int. simpl. intros H0 H1. apply Z.quot_small. lia.
Qed.

(** The integer part of a rescaled code. *)
Lemma py_int_rescaled (lo hi c : Z) (a : Q) :
  (lo <= c <= hi)%Z -> lo <> hi ->
  a == rescaled (inject_Z lo) (inject_Z hi) (inject_Z c) ->
  py_int a = collapsed_code lo hi c.
Proof.
  intros Hc Hne Ha. unfold collapsed_code, reads_as_one.
  destruct (Z.eqb_spec lo hi) as [|_]; [contradiction|]. simpl.
  assert (Hd : 0 < inject_Z hi - inject_Z lo).
  { assert (H : inject_Z lo < inject_Z hi) by (rewrite <- Zlt_Qlt; lia). lra. }
  destruct (Z.eqb_spec c hi) as [->|Hch].
  - apply py_int_one. rewrite Ha. apply rescaled_max; [|reflexivity].
    intros E. lra.
  - assert (H1 : inject_Z lo <= inject_Z c) by (rewrite <- Zle_Qle; lia).
    assert (H2 : inject_Z c < inject_Z hi) by (rewrite <- Zlt_Qlt; lia).
    assert (Hq0 : 0 <= (inject_Z c - inject_Z lo) / (inject_Z hi - inject_Z lo)).
    { apply Qle_shift_div_l; lra. }
    assert (Hq1 : (inject_Z c - inject_Z lo) / (inject_Z hi - inject_Z lo) < 1).
    { apply Qlt_shift_div_r; lra. }
    assert (E : rescaled (inject_Z lo) (inject_Z hi) (inject_Z c)
                == (inject_Z c - inject_Z lo) / (inject_Z hi - inject_Z lo)).
    { unfold rescaled, clamp.
      destruct (Qltb _ 0) eqn:E1; [apply Qltb_lt in E1; lra|].
      destruct (Qltb 1 _) eqn:E2; [apply Qltb_lt in E2; lra|reflexivity]. }
    apply py_int_below_one; rewrite Ha, E; assumption.
Qed.

(** What [normalize] makes of an int64 channel of raw codes. *)
Lemma normalized_codes parse (codes : list Z) (channel : list Q) :
  codes <> [] -> within_range parse (IntSeries codes) ->
  normalize parse (PySeries (IntSeries codes)) = Ok (map Fin channel) ->
  exists lo hi,
    In lo codes /\ In hi codes /\ (forall c, In c codes -> (lo <= c <= hi)%Z) /\
    map py_int channel = map (collapsed_code lo hi) codes.
Proof.
  intros Hne Hr Hn.
  destruct (rescale_int_bounded codes Hne) as (lo & hi & Hlo & Hhi & Hle & Hres).
  { intros z Hz. apply (Hr (inject_Z z)). simpl.
    apply in_map_iff. exists z. split; [reflexivity|exact Hz]. }
  exists lo, hi. split; [exact Hlo|]. split; [exact Hhi|]. split; [exact Hle|].
  rewrite (normalize_int_series parse codes Hne), Hres in Hn. injection Hn as Hn.
  destruct (Z.eqb_spec lo hi) as [Heq|Hneq].
  - rewrite map_Fin_replicate in Hn. apply map_Fin_inj in Hn. subst channel.
    assert (E : forall c, collapsed_code lo hi c = 0%Z).
    { intros c. unfold collapsed_code, reads_as_one.
      rewrite (proj2 (Z.eqb_eq lo hi) Heq). reflexivity. }
    clear - E. induction codes as [|c codes IH]; [reflexivity|].
    simpl. rewrite E, <- IH. reflexivity.
  - assert (Hm : map (fun z => Fin (clamp 0 1 (inject_Z (z - lo) / inject_Z (hi - lo))))
                   codes
                 = map Fin (map (fun z => clamp 0 1 (inject_Z (z - lo) / inject_Z (hi - lo)))
                              codes)).
    { rewrite map_map. reflexivity. }
    rewrite Hm in Hn. apply map_Fin_inj in Hn. subst channel.
    rewrite map_map. apply map_ext_in. intros c Hc.
    apply py_int_rescaled; [apply Hle, Hc|exact Hneq|].
    unfold rescaled. apply clamp_Qeq.
    unfold Z.sub. rewrite !inject_Z_plus, !inject_Z_opp. reflexivity.
Qed.

Lemma percent_of_none (n : nat) : percent_of 0 n == 0.
Proof.
  unfold percent_of. destruct (0 <? n)%nat; [|reflexivity].
  unfold Qdiv. change (Q_of_nat 0) with 0. rewrite Qmult_0_l. reflexivity.
Qed.

Lemma small_codes_within_range parse (codes : list Z) :
  small_codes codes -> within_range parse (IntSeries codes).
Proof.
  intros H q Hq. simpl in Hq. apply in_map_iff in Hq as (c & Hc & Hin).
  injection Hc as <-. unfold small_codes in H. rewrite List.Forall_forall in H.
  specialize (H c Hin). simpl range_bound. unfold bounded.
  rewrite <- inject_Z_opp, <- !Zle_Qle. lia.
Qed.

(** C8: the analysis reads the position channel [body_pos_n], which
    [load_data] obtains by normalising the int64 channel of raw position
    codes.  Line 58 therefore reads 1 off the samples with the greatest
    raw code and 0 off all others: the supine percentage is the share of
    the samples whose raw code is not the greatest one, the left
    percentage the share of those with the greatest raw code, the right
    and prone percentages are 0, and no other position is reported,
    whatever the raw codes are. *)
Theorem raw_position_codes_are_lost parse sr sig (codes : list Z) r :
  codes <> [] ->
  small_codes codes ->
  normalize parse (PySeries (IntSeries codes)) = Ok (map Fin (body_pos_n sig)) ->
  length (flow_n sig) = length codes ->
  analyze_full_study sr sig = Ok r ->
  exists lo hi,
    In lo codes /\ In hi codes /\ (forall c, In c codes -> (lo <= c <= hi)%Z) /\
    position_codes sig = map (collapsed_code lo hi) codes /\
    Results.supine_percent r
      = raw_share (fun c => negb (reads_as_one lo hi c)) codes /\
    Results.left_percent r = raw_share (reads_as_one lo hi) codes /\
    Results.right_percent r == 0 /\ Results.prone_percent r == 0 /\
    Results.other_positions r = ∅.
Proof.
  intros Hne Hsmall Hn Hlen Hret.
  pose proof (small_codes_within_range parse codes Hsmall) as Hr.
  destruct (normalized_codes parse codes (body_pos_n sig) Hne Hr Hn)
    as (lo & hi & Hlo & Hhi & Hle & Hcodes).
  fold (position_codes sig) in Hcodes.
  exists lo, hi. split; [exact Hlo|]. split; [exact Hhi|]. split; [exact Hle|].
  split; [exact Hcodes|].
  assert (Hl : length (body_pos_n sig) = length codes).
  { apply (f_equal length) in Hcodes. unfold position_codes in Hcodes.
    rewrite !length_map in Hcodes. exact Hcodes. }
  assert (Hb : body_pos_n sig <> []).
  { intros E. rewrite E in Hl. destruct codes; [congruence|discriminate]. }
  destruct (position_shares sr sig r Hret ltac:(lia) Hb)
    as (H0 & H1 & H2 & H3 & Hother & Hlow).
  assert (Hcount : forall k,
             code_count k sig = count_if (fun c => (k =? collapsed_code lo hi c)%Z) codes).
  { intros k. unfold code_count. rewrite Hcodes. apply count_if_map. reflexivity. }
  assert (Hzero : forall k, k <> 0%Z -> k <> 1%Z -> code_count k sig = O).
  { intros k Hk0 Hk1. rewrite Hcount. apply count_if_zero. intros c _.
    apply Z.eqb_neq. unfold collapsed_code. destruct (reads_as_one lo hi c); lia. }
  assert (Hshare : forall k, k <> 0%Z -> k <> 1%Z -> code_share k sig == 0).
  { intros k Hk0 Hk1. unfold code_share. rewrite (Hzero k Hk0 Hk1).
    unfold Qdiv. change (Q_of_nat 0) with 0. rewrite !Qmult_0_l. reflexivity. }
  assert (Hlenc : length (position_codes sig) = length codes).
  { rewrite Hcodes. apply length_map. }
  split.
  { rewrite H0. unfold code_share, raw_share. rewrite Hlenc, Hcount.
    do 3 f_equal. unfold count_if. f_equal. apply filter_ext. intros c.
    unfold collapsed_code. destruct (reads_as_one lo hi c); reflexivity. }
  split.
  { rewrite H1. unfold code_share, raw_share. rewrite Hlenc, Hcount.
    do 3 f_equal. unfold count_if. f_equal. apply filter_ext. intros c.
    unfold collapsed_code. destruct (reads_as_one lo hi c); reflexivity. }
  split; [rewrite H2; apply Hshare; lia|].
  split; [rewrite H3; apply Hshare; lia|].
  apply map_eq. intros k. rewrite lookup_empty.
  destruct (Z.ltb_spec 3 k) as [Hk|Hk].
  - rewrite (Hother k Hk), (Hzero k) by lia. reflexivity.
  - apply Hlow. exact Hk.
Qed.

Lemma raw_position_codes_are_lost_witness :
  raw_positions <> [] /\
  small_codes raw_positions /\
  normalize (fun _ => NaN) (PySeries (IntSeries raw_positions))
    = Ok (map Fin (body_pos_n position_signals)) /\
  length (flow_n position_signals) = length raw_positions /\
  exists r,
    analyze_full_study 10 position_signals = Ok r /\
    exists lo hi,
      In lo raw_positions /\ In hi raw_positions /\
      (forall c, In c raw_positions -> (lo <= c <= hi)%Z) /\
      position_codes position_signals = map (collapsed_code lo hi) raw_positions /\
      Results.supine_percent r
        = raw_share (fun c => negb (reads_as_one lo hi c)) raw_positions /\
      Results.left_percent r = raw_share (reads_as_one lo hi) raw_positions /\
      Results.right_percent r == 0 /\ Results.prone_percent r == 0 /\
      Results.other_positions r = ∅.
Proof.
  assert (H1 : raw_positions <> []) by discriminate.
  assert (H2 : small_codes raw_positions).
  { repeat constructor; simpl; lia. }
  assert (H3 : normalize (fun _ => NaN) (PySeries (IntSeries raw_positions))
               = Ok (map Fin (body_pos_n position_signals)))
    by (vm_compute; reflexivity).
  assert (H4 : length (flow_n position_signals) = length raw_positions)
    by reflexivity.
  destruct (analyze_full_study_ok 10 position_signals) as [r Hr];
    [unfold Qeq; simpl; lia|apply boundedb_spec; vm_compute; reflexivity
    |simpl; discriminate|vm_compute; reflexivity|simpl; lia|].
  split; [exact H1|]. split; [exact H2|]. split; [exact H3|]. split; [exact H4|].
  exists r. split; [exact Hr|].
  exact (raw_position_codes_are_lost (fun _ => NaN) 10 position_signals
           raw_positions r H1 H2 H3 H4 Hr).
Defined.

(** On the raw codes 0, 1, 2, 3, 4, 4 the analysis reports two thirds of
    the samples as supine and one third as left: the samples with the raw
    codes 1, 2 and 3 count as supine, those with the raw code 4 as left,
    and no position 4 is tracked. *)
Remark raw_positions_report :
  map py_int (body_pos_n position_signals) = [0; 0; 0; 0; 1; 1]%Z /\
  exists r,
    analyze_full_study 10 position_signals = Ok r /\
    Results.supine_percent r == 200 # 3 /\
    Results.left_percent r == 100 # 3 /\
    Results.right_percent r == 0 /\ Results.prone_percent r == 0 /\
    Results.other_positions r !! 4%Z = None.
Proof.
  split; [reflexivity|].
  destruct (analyze_full_study_ok 10 position_signals) as [r Hr];
    [unfold Qeq; simpl; lia|apply boundedb_spec; vm_compute; reflexivity
    |simpl; discriminate|vm_compute; reflexivity|simpl; lia|].
  exists r. split; [exact Hr|].
  destruct (position_shares 10 position_signals r Hr eq_refl ltac:(discriminate))
    as (H0 & H1 & H2 & H3 & Hother & _).
  rewrite H0, H1, H2, H3, (Hother 4%Z ltac:(lia)).
  repeat split; vm_compute; reflexivity.
Qed.

(** * The sampling-rate estimate *)

Lemma quarter_twice : max_float / 4 + max_float / 4 == max_float / 2.
Proof. field. Qed.

(** Differences of stamps of at most a quarter of the largest float64 do
    not overflow. *)
Lemma np_diff_Fin (ts : list Q) :
  Forall (bounded (max_float / 4)) ts -> np_diff (map Fin ts) = map Fin (diff ts).
Proof.
  induction ts as [|x [|y ts] IH]; try reflexivity.
  intros H. pose proof H as Hall.
  apply Forall_cons in H as [Hx H]. pose proof H as Hy. apply Forall_cons in Hy as [Hy _].
  change (np_diff (map Fin (x :: y :: ts)))
    with (fsub (Fin y) (Fin x) :: np_diff (map Fin (y :: ts))).
  rewrite (IH H).
  assert (Hq : max_float / 4 <= max_float / 2).
  { pose proof quarter_twice as E. pose proof max_float_pos as Hp.
    assert (0 < max_float / 4) by (apply Qlt_shift_div_l; lra).
    set (q := max_float / 4) in *. set (h := max_float / 2) in *. lra. }
  rewrite fsub_bounded by (eapply bounded_mono; eassumption).
  reflexivity.
Qed.

Lemma has_nan_Fin (l : list Q) : has_nan (map Fin l) = false.
Proof. unfold has_nan. induction l as [|x l IH]; simpl; [reflexivity|exact IH]. Qed.

Lemma length_diff (ts : list Q) : length (diff ts) = (length ts - 1)%nat.
Proof.
  induction ts as [|x [|y ts] IH]; try reflexivity.
  change (length (diff (x :: y :: ts))) with (S (length (diff (y :: ts)))).
  rewrite IH. simpl. lia.
Qed.

Lemma in_diff (ts : list Q) (d : Q) :
  In d (diff ts) ->
  exists i x y, ts !! i = Some x /\ ts !! S i = Some y /\ d = y - x.
Proof.
  induction ts as [|x [|y ts] IH]; [intros []|intros []|].
  change (diff (x :: y :: ts)) with ((y - x) :: diff (y :: ts)).
  intros [<-|Hin].
  - exists 0%nat, x, y. repeat split.
  - destruct (IH Hin) as (i & a & b & Ha & Hb & ->).
    exists (S i), a, b. repeat split; assumption.
Qed.

Lemma diff_bounded (ts : list Q) :
  Forall (bounded (max_float / 4)) ts -> Forall (bounded (max_float / 2)) (diff ts).
Proof.
  intros H. apply Forall_forall. intros d Hd.
  apply list_elem_of_In, in_diff in Hd as (i & x & y & Hx & Hy & ->).
  rewrite Forall_forall in H.
  destruct (H x (list_elem_of_lookup_2 _ _ _ Hx)) as [Hx1 Hx2].
  destruct (H y (list_elem_of_lookup_2 _ _ _ Hy)) as [Hy1 Hy2].
  pose proof quarter_twice as E.
  set (q := max_float / 4) in *. set (h := max_float / 2) in *. split; lra.
Qed.

(** On numbers of at most half the largest float64 the median is the
    exact one. *)
Lemma fmedian_exact (l : list Q) :
  Forall (bounded (max_float / 2)) l -> fmedian (map Fin l) = median (map Fin l).
Proof.
  intros H. unfold fmedian, median. rewrite dropna_map_Fin.
  assert (Hs : Forall (bounded_float (max_float / 2)) (sort (map Fin l))).
  { apply sort_Forall, List.Forall_map. eapply Forall_impl; [exact H|].
    intros x Hx. exists x. split; [reflexivity|exact Hx]. }
  set (s := sort (map Fin l)) in *.
  destruct (length s) as [|n] eqn:Hn; [reflexivity|].
  assert (Hlt : (S n / 2 < length s)%nat).
  { rewrite Hn. apply Nat.div_lt; lia. }
  destruct (Nat.even (S n)); [|reflexivity].
  destruct (nth_Forall _ s (S n / 2 - 1) NaN Hs ltac:(lia)) as (a & -> & Ha).
  destruct (nth_Forall _ s (S n / 2) NaN Hs Hlt) as (b & -> & Hb).
  rewrite (fadd_bounded a b Ha Hb). simpl add.
  pose proof half_pos as Hpos. pose proof half_twice as Htw.
  destruct Ha as [Ha1 Ha2], Hb as [Hb1 Hb2].
  set (h := max_float / 2) in *.
  assert (Hq : bounded h ((a + b) / 2)).
  { split; [apply Qle_shift_div_l|apply Qle_shift_div_r]; try reflexivity; lra. }
  rewrite fdiv_bounded.
  - reflexivity.
  - intros E. revert E. unfold Qeq. simpl. lia.
  - apply (bounded_mono h); [lra|exact Hq].
Qed.

(** The median of finitely many numbers is a number between the least
    and the greatest of them. *)
Lemma np_median_between (lo hi : Q) (l : list Q) :
  l <> [] -> Forall (bounded (max_float / 2)) l ->
  Forall (fun x => lo <= x /\ x <= hi) l ->
  finite_between lo hi (np_median (map Fin l)).
Proof.
  intros Hne Hb H. unfold np_median. rewrite has_nan_Fin, (fmedian_exact l Hb).
  apply (median_between lo hi l Hne H).
Qed.

Lemma compute_sampling_rate_short self (ts : list Q) :
  (length ts < 3)%nat ->
  SignalProcessor.sample_rate (compute_sampling_rate self (Some (map Fin ts)))
  = Fin 10.
Proof.
  intros Hlt. unfold compute_sampling_rate, compute_sampling_rate_body.
  rewrite length_map. destruct (Nat.ltb_spec (length ts) 3); [reflexivity|lia].
Qed.

Lemma compute_sampling_rate_median self (ts : list Q) (lo hi : Q) :
  (3 <= length ts)%nat -> Forall (bounded (max_float / 4)) ts ->
  (forall d, In d (diff ts) -> lo <= d /\ d <= hi) ->
  exists dt,
    lo <= dt /\ dt <= hi /\
    SignalProcessor.sample_rate (compute_sampling_rate self (Some (map Fin ts)))
    = if Qle_bool dt 0 then Fin 10 else fdiv (Fin 1) (Fin dt).
Proof.
  intros Hlen Hb Hd. unfold compute_sampling_rate, compute_sampling_rate_body.
  rewrite length_map. destruct (Nat.ltb_spec (length ts) 3) as [Hlt|_]; [lia|].
  rewrite (np_diff_Fin ts Hb).
  assert (Hne : diff ts <> []).
  { intros E. apply (f_equal length) in E. rewrite length_diff in E. simpl in E. lia. }
  destruct (np_median_between lo hi (diff ts) Hne (diff_bounded ts Hb))
    as (dt & Hdt & H1 & H2).
  { apply Forall_forall. intros d Hin. apply Hd, list_elem_of_In, Hin. }
  exists dt. split; [exact H1|]. split; [exact H2|].
  rewrite Hdt. cbv zeta. simpl leb.
  destruct (Qle_bool dt 0); reflexivity.
Qed.

(** X11: on a time axis of numbers of at most a quarter of the largest
    float64 in magnitude: when every time step is at least
    [2 / max_float], the estimated sampling rate is a positive number;
    when no time step is positive, or the axis has fewer than 3 samples,
    it is 10.0; a missing time axis also gives 10.0. *)
Theorem sampling_rate_is_positive self (ts : list Q) :
  Forall (bounded (max_float / 4)) ts ->
  ((forall d, In d (diff ts) -> 2 / max_float <= d) ->
   exists r,
     SignalProcessor.sample_rate (compute_sampling_rate self (Some (map Fin ts)))
     = Fin r /\ 0 < r) /\
  ((forall d, In d (diff ts) -> d <= 0) ->
   SignalProcessor.sample_rate (compute_sampling_rate self (Some (map Fin ts)))
   = Fin 10) /\
  ((length ts < 3)%nat ->
   SignalProcessor.sample_rate (compute_sampling_rate self (Some (map Fin ts)))
   = Fin 10) /\
  SignalProcessor.sample_rate (compute_sampling_rate self None) = Fin 10.
Proof.
  intros Hb.
  pose proof max_float_pos as Hpos. pose proof max_float_large as Hlarge.
  assert (Hten : 10 <= max_float / 2).
  { apply Qle_shift_div_l; [reflexivity|].
    apply Qle_trans with (inject_Z (2 ^ 64)); [|exact Hlarge].
    apply Qle_bool_iff. reflexivity. }
  assert (Hlo : 0 < 2 / max_float) by (apply Qlt_shift_div_l; lra).
  split; [|split; [|split; [apply compute_sampling_rate_short|reflexivity]]].
  - intros Hstep.
    destruct (Nat.lt_ge_cases (length ts) 3) as [Hlt|Hge].
    { exists 10. split; [apply compute_sampling_rate_short, Hlt|reflexivity]. }
    destruct (compute_sampling_rate_median self ts (2 / max_float) (max_float / 2)
                Hge Hb) as (dt & H1 & H2 & ->).
    { intros d Hd. split; [apply Hstep, Hd|].
      pose proof (diff_bounded ts Hb) as Hdb. rewrite List.Forall_forall in Hdb.
      apply (Hdb d Hd). }
    assert (E : Qle_bool dt 0 = false) by (apply Qle_bool_gt; lra).
    rewrite E.
    assert (Hr : 0 < 1 / dt /\ 1 / dt <= max_float / 2).
    { split.
      - apply Qlt_shift_div_l; lra.
      - apply Qle_shift_div_r; [lra|].
        assert (E2 : max_float / 2 * (2 / max_float) == 1) by (field; lra).
        assert (H3 : max_float / 2 * (2 / max_float) <= max_float / 2 * dt).
        { rewrite (Qmult_comm _ (2 / max_float)), (Qmult_comm _ dt).
          apply Qmult_le_compat_r; [exact H1|]. lra. }
        lra. }
    exists (1 / dt). rewrite fdiv_bounded.
    + split; [reflexivity|apply Hr].
    + lra.
    + destruct Hr as [Hr1 Hr2]. pose proof half_twice. pose proof half_pos.
      set (h := max_float / 2) in *. split; lra.
  - intros Hstep.
    destruct (Nat.lt_ge_cases (length ts) 3) as [Hlt|Hge].
    { apply compute_sampling_rate_short, Hlt. }
    destruct (compute_sampling_rate_median self ts (- (max_float / 2)) 0
                Hge Hb) as (dt & H1 & H2 & ->).
    { intros d Hd. split; [|apply Hstep, Hd].
      pose proof (diff_bounded ts Hb) as Hdb. rewrite List.Forall_forall in Hdb.
      apply (Hdb d Hd). }
    assert (E : Qle_bool dt 0 = true) by (apply Qle_bool_iff; exact H2).
    rewrite E. reflexivity.
Qed.

Lemma sampling_rate_is_positive_witness :
  Forall (bounded (max_float / 4)) [0; 0.1; 0.2; 0.4] /\
  (forall d, In d (diff [0; 0.1; 0.2; 0.4]) -> 2 / max_float <= d) /\
  exists r,
    SignalProcessor.sample_rate
      (compute_sampling_rate new (Some (map Fin [0; 0.1; 0.2; 0.4])))
    = Fin r /\ 0 < r.
Proof.
  assert (H1 : Forall (bounded (max_float / 4)) [0; 0.1; 0.2; 0.4]).
  { repeat constructor; apply Qle_bool_iff; vm_compute; reflexivity. }
  assert (H2 : forall d, In d (diff [0; 0.1; 0.2; 0.4]) -> 2 / max_float <= d).
  { intros d Hd. simpl in Hd.
    destruct Hd as [<-|[<-|[<-|[]]]]; apply Qle_bool_iff; vm_compute; reflexivity. }
  split; [exact H1|]. split; [exact H2|].
  exact (proj1 (sampling_rate_is_positive new [0; 0.1; 0.2; 0.4] H1) H2).
Defined.

(** * The moving average *)

Lemma odd_window_spec (window_samples : Q) :
  (3 <= odd_window window_samples)%nat /\ Nat.odd (odd_window window_samples) = true.
Proof.
  unfold odd_window. cbv zeta.
  set (w0 := py_int window_samples).
  set (w1 := if (w0 <? 3)%Z then 3%Z else w0).
  assert (H1 : (3 <= w1)%Z) by (unfold w1; destruct (Z.ltb_spec w0 3); lia).
  set (w2 := if (w1 mod 2 =? 0)%Z then (w1 + 1)%Z else w1).
  assert (H2 : (3 <= w2)%Z /\ (w2 mod 2 = 1)%Z).
  { unfold w2. destruct (Z.eqb_spec (w1 mod 2) 0) as [E|E].
    - split; [lia|]. rewrite Z.add_mod by lia. rewrite E. reflexivity.
    - split; [lia|]. pose proof (Z.mod_pos_bound w1 2 ltac:(lia)). lia. }
  destruct H2 as [H2 H3]. split; [lia|].
  apply Nat.odd_spec. exists (Z.to_nat (w2 / 2)).
  pose proof (Z.div_mod w2 2 ltac:(lia)) as Hd. rewrite H3 in Hd.
  assert (0 <= w2 / 2)%Z by (apply Z.div_pos; lia). lia.
Qed.

Lemma np_convolve_same_inv arr kernel smoothed :
  np_convolve_same arr kernel = Some smoothed ->
  arr <> [] /\ kernel <> [] /\
  smoothed = map (convolve_full_at arr kernel)
               (seq ((Nat.min (length arr) (length kernel) - 1) / 2)
                    (Nat.max (length arr) (length kernel))).
Proof.
  unfold np_convolve_same. destruct arr as [|a arr]; [discriminate|].
  destruct kernel as [|k kernel]; [discriminate|].
  intros H. split; [discriminate|]. split; [discriminate|].
  injection H as <-. reflexivity.
Qed.

Lemma np_convolve_same_length arr kernel smoothed :
  np_convolve_same arr kernel = Some smoothed ->
  arr <> [] /\ length smoothed = Nat.max (length arr) (length kernel).
Proof.
  intros H. apply np_convolve_same_inv in H as (Ha & _ & ->).
  split; [exact Ha|]. rewrite length_map, length_seq. reflexivity.
Qed.

Lemma series_with_index_length values series out :
  series_with_index values series = Some out ->
  out = values /\ length values = length series.
Proof.
  unfold series_with_index. destruct (Nat.eqb_spec (length values) (length series));
    [|discriminate].
  intros [= <-]. split; [reflexivity|assumption].
Qed.

(** X13: smoothing always returns a series of the length of its input;
    the window is forced to an odd length of at least 3, and a series
    shorter than that window (an empty one included) comes back
    unchanged. *)
Theorem moving_average_keeps_length (series : list float64) (window_samples : Q) :
  length (apply_moving_average series window_samples) = length series /\
  (3 <= odd_window window_samples)%nat /\
  Nat.odd (odd_window window_samples) = true /\
  ((length series < odd_window window_samples)%nat ->
   apply_moving_average series window_samples = series).
Proof.
  destruct (odd_window_spec window_samples) as [Hw3 Hodd].
  split; [|split; [exact Hw3|split; [exact Hodd|]]].
  - unfold apply_moving_average, apply_moving_average_body. cbv zeta.
    destruct (np_convolve_same _ _) as [smoothed|]; [|reflexivity].
    destruct (leb _ _).
    + destruct (series_with_index _ series) as [out|] eqn:E; [|reflexivity].
      apply series_with_index_length in E as [-> E]. exact E.
    + destruct (series_with_index _ series) as [out|] eqn:E; [|reflexivity].
      apply series_with_index_length in E as [-> E]. exact E.
  - intros Hshort. unfold apply_moving_average, apply_moving_average_body. cbv zeta.
    destruct (np_convolve_same _ _) as [smoothed|] eqn:Ec; [|reflexivity].
    apply np_convolve_same_length in Ec as [_ Hlen].
    rewrite length_replicate in Hlen.
    assert (Hne : length smoothed <> length series) by lia.
    unfold series_with_index. rewrite length_replicate, length_map.
    destruct (Nat.eqb_spec (length smoothed) (length series)); [contradiction|].
    destruct (leb _ _); reflexivity.
Qed.

(** Every entry of the kernel is [1 / w]. *)
Lemma kernel_entry (w : nat) :
  (3 <= w)%nat -> fdiv (Fin 1) (Fin (Q_of_nat w)) = Fin (1 / Q_of_nat w).
Proof.
  intros Hw. pose proof (Q_of_nat_pos w ltac:(lia)) as Hp.
  assert (H1 : 1 <= Q_of_nat w).
  { unfold Q_of_nat. change 1 with (inject_Z 1). rewrite <- Zle_Qle. lia. }
  apply fdiv_bounded; [lra|].
  pose proof max_float_pos. pose proof max_float_large as Hl.
  assert (H64 : 1 <= inject_Z (2 ^ 64)) by (apply Qle_bool_iff; reflexivity).
  split.
  - apply Qle_trans with 0; [lra|]. apply Qle_shift_div_l; lra.
  - apply Qle_trans with 1; [|lra]. apply Qle_shift_div_r; lra.
Qed.

Lemma fsum_bounded (c : Q) (l : list float64) (a a0 : Q) :
  0 <= c -> Forall (bounded_float c) l -> bounded a0 a ->
  a0 + Q_of_nat (length l) * c <= max_float ->
  exists q, foldl fadd (Fin a) l = Fin q /\
            bounded (a0 + Q_of_nat (length l) * c) q.
Proof.
  intros Hc Hl. revert a a0. induction Hl as [|x l (q & -> & Hq) _ IH];
    intros a a0 Ha Hmax; cbn [foldl length] in *.
  - exists a. split; [reflexivity|].
    change (Q_of_nat 0) with 0. destruct Ha. split; lra.
  - assert (E : Q_of_nat (S (length l)) == Q_of_nat (length l) + 1).
    { unfold Q_of_nat. rewrite Nat2Z.inj_succ. unfold Qeq. simpl. lia. }
    rewrite E in Hmax.
    pose proof (Q_of_nat_nonneg (length l)) as Hn.
    assert (Hnc : 0 <= Q_of_nat (length l) * c) by (apply Qmult_le_0_compat; assumption).
    destruct Ha as [Ha1 Ha2], Hq as [Hq1 Hq2].
    assert (Hsum : fadd (Fin a) (Fin q) = Fin (a + q)).
    { unfold fadd. simpl add. apply overflow_Fin. split; lra. }
    rewrite Hsum.
    destruct (IH (a + q) (a0 + c)) as (r & Hr & Hb).
    { split; lra. }
    { lra. }
    exists r. split; [exact Hr|].
    destruct Hb as [Hb1 Hb2]. split; rewrite E; lra.
Qed.

Lemma imap_terms {A B : Type} (P : B -> Prop) (g : nat -> A -> list B) (l : list A) :
  (forall j x, In x l -> Forall P (g j x) /\ (length (g j x) <= 1)%nat) ->
  Forall P (concat (imap g l)) /\ (length (concat (imap g l)) <= length l)%nat.
Proof.
  revert g. induction l as [|x l IH]; intros g Hg; simpl.
  - split; [constructor|lia].
  - destruct (Hg 0%nat x (or_introl eq_refl)) as [H1 H2].
    destruct (IH (g ∘ S)) as [H3 H4].
    { intros j y Hy. apply (Hg (S j) y). right. exact Hy. }
    split; [apply Forall_app; split; assumption|].
    rewrite length_app. lia.
Qed.

(** An entry of the convolution of numbers of magnitude at most [b] with
    the kernel of [w] entries [1 / w] is a number of magnitude at most
    [b]. *)
Lemma convolve_full_at_bounded (b : Q) (arr : list float64) (w m : nat) :
  (3 <= w)%nat -> 0 <= b -> b <= max_float ->
  Forall (bounded_float b) arr ->
  bounded_float b
    (convolve_full_at arr (replicate w (Fin (1 / Q_of_nat w))) m).
Proof.
  intros Hw Hb0 Hb Ha. unfold convolve_full_at, fsum.
  pose proof (Q_of_nat_pos w ltac:(lia)) as Hp.
  set (c := 1 / Q_of_nat w).
  assert (Hc : 0 < c) by (apply Qlt_shift_div_l; lra).
  assert (Hwc : Q_of_nat w * c == 1) by (unfold c; field; lra).
  assert (Hc1 : c <= 1).
  { assert (H1 : 1 <= Q_of_nat w).
    { unfold Q_of_nat. change 1 with (inject_Z 1). rewrite <- Zle_Qle. lia. }
    apply Qle_shift_div_r; lra. }
  assert (Hbc : 0 <= b * c) by (apply Qmult_le_0_compat; lra).
  assert (Hbc1 : b * c <= b).
  { assert (H : 0 <= b * (1 - c)) by (apply Qmult_le_0_compat; lra).
    assert (E : b * (1 - c) == b - b * c) by ring. lra. }
  destruct (imap_terms (bounded_float (b * c)) (conv_term arr m) (replicate w (Fin c)))
    as [Hterms Hcount].
  { intros j x Hx. apply list_elem_of_In, elem_of_replicate_inv in Hx as ->.
    unfold conv_term. destruct (j <=? m)%nat; [|split; [constructor|simpl; lia]].
    destruct (arr !! (m - j)%nat) as [y|] eqn:E; [|split; [constructor|simpl; lia]].
    split; [|simpl; lia]. constructor; [|constructor].
    rewrite Forall_forall in Ha.
    destruct (Ha y (list_elem_of_lookup_2 _ _ _ E)) as (q & -> & Hq1 & Hq2).
    assert (Hqc : bounded (b * c) (q * c)).
    { assert (H1 : 0 <= (b - q) * c) by (apply Qmult_le_0_compat; lra).
      assert (H2 : 0 <= (q + b) * c) by (apply Qmult_le_0_compat; lra).
      assert (E1 : (b - q) * c == b * c - q * c) by ring.
      assert (E2 : (q + b) * c == q * c + b * c) by ring.
      split; lra. }
    exists (q * c). split; [|exact Hqc].
    unfold fmul. simpl mul. apply overflow_Fin.
    apply (bounded_mono (b * c)); [lra|exact Hqc]. }
  rewrite length_replicate in Hcount.
  set (terms := concat (imap (conv_term arr m) (replicate w (Fin c)))) in *.
  assert (Hn : Q_of_nat (length terms) * (b * c) <= b).
  { assert (H1 : Q_of_nat (length terms) <= Q_of_nat w).
    { unfold Q_of_nat. rewrite <- Zle_Qle. lia. }
    assert (H2 : 0 <= (Q_of_nat w - Q_of_nat (length terms)) * (b * c)).
    { apply Qmult_le_0_compat; lra. }
    assert (E : (Q_of_nat w - Q_of_nat (length terms)) * (b * c)
                == b * (Q_of_nat w * c) - Q_of_nat (length terms) * (b * c)) by ring.
    rewrite Hwc in E. lra. }
  destruct (fsum_bounded (b * c) terms 0 0 Hbc Hterms) as (q & Hq & Hqb).
  { split; lra. }
  { lra. }
  exists q. split; [exact Hq|].
  apply (bounded_mono (0 + Q_of_nat (length terms) * (b * c))); [lra|exact Hqb].
Qed.

Lemma np_min_max_Fin (vals : list Q) :
  vals <> [] ->
  exists mn mx,
    np_min (map Fin vals) = Fin mn /\ np_max (map Fin vals) = Fin mx /\
    In mn vals /\ In mx vals /\ forall x, In x vals -> mn <= x /\ x <= mx.
Proof.
  intros Hne. unfold np_min, np_max. rewrite has_nan_Fin.
  destruct (series_min_spec vals Hne) as (mn & Hmn & Hin & Hle).
  destruct (series_max_spec vals Hne) as (mx & Hmx & Hinx & Hge).
  exists mn, mx. repeat split; auto.
Qed.

(** What lines 71-74 return for smoothed values that are numbers of at
    most half the largest float64: no difference overflows. *)
Lemma renormalised (vals : list Q) (series : list float64) (w : Q) :
  np_convolve_same series
    (replicate (odd_window w) (fdiv (Fin 1) (Fin (Q_of_nat (odd_window w)))))
  = Some (map Fin vals) ->
  length vals = length series ->
  Forall (bounded (max_float / 2)) vals ->
  exists mn mx,
    In mn vals /\ In mx vals /\ (forall x, In x vals -> mn <= x /\ x <= mx) /\
    apply_moving_average series w
    = if Qle_bool (mx - mn) 0 then replicate (length vals) (Fin 0.5)
      else map (fun x => Fin ((x - mn) / (mx - mn))) vals.
Proof.
  intros Hc Hlen Hbd.
  assert (Hne : vals <> []).
  { apply np_convolve_same_length in Hc as [Hs _]. intros ->. simpl in Hlen.
    destruct series; [congruence|discriminate]. }
  destruct (np_min_max_Fin vals Hne) as (mn & mx & Hmn & Hmx & Hin & Hinx & Hb).
  exists mn, mx. split; [exact Hin|]. split; [exact Hinx|]. split; [exact Hb|].
  unfold apply_moving_average, apply_moving_average_body. cbv zeta.
  rewrite List.Forall_forall in Hbd.
  rewrite Hc, Hmn, Hmx, (fsub_bounded mx mn (Hbd mx Hinx) (Hbd mn Hin)).
  simpl leb.
  unfold series_with_index. rewrite length_replicate, !length_map.
  rewrite (proj2 (Nat.eqb_eq _ _) Hlen).
  destruct (Qle_bool (mx - mn) 0) eqn:E; [reflexivity|].
  rewrite map_map. apply map_ext_in. intros x Hx.
  rewrite (fsub_bounded x mn (Hbd x Hx) (Hbd mn Hin)).
  apply Qle_bool_gt in E. destruct (Hb x Hx) as [Hx1 Hx2].
  destruct (ratio_unit (x - mn) (mx - mn)) as [Hr1 Hr2]; [lra..|].
  apply fdiv_bounded; [lra|].
  pose proof max_float_pos. pose proof max_float_large as Hl.
  assert (H64 : 1 <= inject_Z (2 ^ 64)) by (apply Qle_bool_iff; reflexivity).
  split; lra.
Qed.

(** X14: smoothing a series of numbers of at most a quarter of the
    largest float64 in magnitude that is at least as long as the window
    returns
    values in [[0, 1]]: the constant 0.5 when the smoothed values are all
    equal, otherwise the smoothed values rescaled so that their least
    value becomes 0 and their greatest 1. *)
Theorem moving_average_is_renormalised (vals : list Q) (window_samples : Q) :
  (odd_window window_samples <= length vals)%nat ->
  Forall (bounded (max_float / 4)) vals ->
  Forall in_unit_interval (apply_moving_average (map Fin vals) window_samples) /\
  (apply_moving_average (map Fin vals) window_samples
   = replicate (length vals) (Fin 0.5) \/
   exists a b,
     In (Fin a) (apply_moving_average (map Fin vals) window_samples) /\ a == 0 /\
     In (Fin b) (apply_moving_average (map Fin vals) window_samples) /\ b == 1).
Proof.
  intros Hlen Hbd4.
  assert (Hbd : Forall (bounded (max_float / 2)) vals).
  { eapply Forall_impl; [exact Hbd4|]. intros x Hx.
    apply (bounded_mono (max_float / 4)); [|exact Hx].
    pose proof quarter_twice as E. pose proof max_float_pos as Hp.
    assert (0 < max_float / 4) by (apply Qlt_shift_div_l; lra).
    set (q := max_float / 4) in *. set (h := max_float / 2) in *. lra. }
  destruct (odd_window_spec window_samples) as [Hw3 _].
  set (w := odd_window window_samples) in *.
  set (kernel := replicate w (fdiv (Fin 1) (Fin (Q_of_nat w)))).
  assert (Ha : Forall (bounded_float (max_float / 2)) (map Fin vals)).
  { apply List.Forall_map. eapply Forall_impl; [exact Hbd|].
    intros x Hx. exists x. split; [reflexivity|exact Hx]. }
  destruct (np_convolve_same (map Fin vals) kernel) as [smoothed|] eqn:Ec.
  2: { unfold np_convolve_same, kernel in Ec.
       destruct vals; [simpl in Hlen; lia|].
       destruct w; [lia|]. discriminate Ec. }
  assert (Hsm : Forall (bounded_float (max_float / 2)) smoothed).
  { pose proof (np_convolve_same_inv _ _ _ Ec) as (_ & _ & ->).
    apply List.Forall_forall. intros x Hx.
    apply in_map_iff in Hx as (m & <- & _).
    unfold kernel. rewrite (kernel_entry w Hw3).
    pose proof half_pos. pose proof half_twice.
    apply convolve_full_at_bounded; try assumption;
      set (h := max_float / 2) in *; lra. }
  destruct (Forall_bounded_map _ smoothed Hsm) as (svals & -> & Hsb).
  pose proof (np_convolve_same_length _ _ _ Ec) as [_ Hl].
  unfold kernel in Hl. rewrite length_replicate, !length_map in Hl.
  assert (Hl' : length svals = length (map Fin vals)) by (rewrite length_map; lia).
  destruct (renormalised svals (map Fin vals) window_samples Ec Hl' Hsb)
    as (mn & mx & Hin & Hinx & Hb & ->).
  rewrite length_map in Hl'.
  destruct (Qle_bool (mx - mn) 0) eqn:E.
  - split; [apply in_unit_replicate|]. left. rewrite Hl'. reflexivity.
  - apply Qle_bool_gt in E. split.
    + apply List.Forall_forall. intros y Hy. apply in_map_iff in Hy as (x & <- & Hx).
      apply Hb in Hx as [H1 H2].
      eexists. split; [reflexivity|].
      split; [apply Qle_shift_div_l|apply Qle_shift_div_r]; lra.
    + right. exists ((mn - mn) / (mx - mn)), ((mx - mn) / (mx - mn)).
      split; [apply in_map_iff; exists mn; split; [reflexivity|exact Hin]|].
      split; [field; lra|].
      split; [apply in_map_iff; exists mx; split; [reflexivity|exact Hinx]|].
      field. lra.
Qed.

Lemma moving_average_is_renormalised_witness :
  (odd_window 3 <= length pulse_series)%nat /\
  Forall (bounded (max_float / 4)) pulse_series /\
  Forall in_unit_interval (apply_moving_average (map Fin pulse_series) 3) /\
  (apply_moving_average (map Fin pulse_series) 3
   = replicate (length pulse_series) (Fin 0.5) \/
   exists a b,
     In (Fin a) (apply_moving_average (map Fin pulse_series) 3) /\ a == 0 /\
     In (Fin b) (apply_moving_average (map Fin pulse_series) 3) /\ b == 1).
Proof.
  assert (H : (odd_window 3 <= length pulse_series)%nat) by (vm_compute; lia).
  assert (Hb : Forall (bounded (max_float / 4)) pulse_series).
  { repeat constructor; apply Qle_bool_iff; vm_compute; reflexivity. }
  split; [exact H|]. split; [exact Hb|].
  exact (moving_average_is_renormalised pulse_series 3 H Hb).
Defined.

(** * Normalising the dictionary of signals *)

(** ** Dictionaries *)

Lemma dict_get_set_eq {V : Type} (k : string) (v : V) (d : dict V) :
  dict_get k (dict_set k v d) = Some v.
Proof.
  induction d as [|[k' x] d IH]; simpl.
  - rewrite String.eqb_refl. reflexivity.
  - destruct (String.eqb k' k) eqn:E; simpl; rewrite E; [reflexivity|exact IH].
Qed.

Lemma dict_get_set_ne {V : Type} (k k' : string) (v : V) (d : dict V) :
  k <> k' -> dict_get k' (dict_set k v d) = dict_get k' d.
Proof.
  intros Hne. induction d as [|[k0 x] d IH]; simpl.
  - destruct (String.eqb_spec k k'); [contradiction|reflexivity].
  - destruct (String.eqb_spec k0 k) as [->|Hk]; simpl.
    + destruct (String.eqb_spec k k'); [contradiction|reflexivity].
    + destruct (String.eqb_spec k0 k'); [reflexivity|exact IH].
Qed.

Lemma dict_get_None {V : Type} (k : string) (d : dict V) :
  dict_get k d = None <-> ~ In k (dict_keys d).
Proof.
  induction d as [|[k' x] d IH]; simpl.
  - split; [intros _ []|reflexivity].
  - destruct (String.eqb_spec k' k) as [->|Hk].
    + split; [discriminate|]. intros H. exfalso. apply H. left. reflexivity.
    + rewrite IH. split.
      * intros H [E|Hin]; [contradiction|]. exact (H Hin).
      * intros H Hin. apply H. right. exact Hin.
Qed.

Lemma dict_get_In {V : Type} (k : string) (v : V) (d : dict V) :
  dict_get k d = Some v -> In (k, v) d.
Proof.
  induction d as [|[k' x] d IH]; simpl; [discriminate|].
  destruct (String.eqb_spec k' k) as [->|Hk].
  - intros [= ->]. left. reflexivity.
  - intros H. right. apply IH, H.
Qed.

Lemma dict_get_app {V : Type} (k : string) (d1 d2 : dict V) :
  dict_get k (d1 ++ d2)
  = match dict_get k d1 with Some v => Some v | None => dict_get k d2 end.
Proof.
  induction d1 as [|[k' x] d1 IH]; simpl; [reflexivity|].
  destruct (String.eqb k' k); [reflexivity|exact IH].
Qed.

Lemma dict_set_fresh {V : Type} (k : string) (v : V) (d : dict V) :
  ~ In k (dict_keys d) -> dict_set k v d = d ++ [(k, v)].
Proof.
  induction d as [|[k' x] d IH]; simpl; intros H; [reflexivity|].
  destruct (String.eqb_spec k' k) as [->|Hk].
  - exfalso. apply H. left. reflexivity.
  - rewrite IH; [reflexivity|]. intros Hin. apply H. right. exact Hin.
Qed.

(** Assigning the images of distinct fresh keys appends them in order. *)
Lemma foldl_dict_set_fresh {A V : Type} (f : A -> string * V) (items : list A)
    (acc : dict V) :
  List.NoDup (map (fun it => (f it).1) items) ->
  (forall it, In it items -> ~ In (f it).1 (dict_keys acc)) ->
  foldl (fun d it => dict_set (f it).1 (f it).2 d) acc items = acc ++ map f items.
Proof.
  revert acc. induction items as [|it items IH]; intros acc Hnd Hfresh; simpl.
  - rewrite app_nil_r. reflexivity.
  - inversion Hnd as [|? ? Hnotin Hnd']; subst.
    rewrite dict_set_fresh by (apply Hfresh; left; reflexivity).
    rewrite IH.
    + rewrite <- app_assoc. simpl. rewrite <- surjective_pairing. reflexivity.
    + exact Hnd'.
    + intros it' Hin Hk. unfold dict_keys in Hk.
      rewrite map_app, in_app_iff in Hk. destruct Hk as [Hk|[Hk|[]]].
      * apply (Hfresh it'); [right; exact Hin|exact Hk].
      * simpl in Hk. apply Hnotin. rewrite Hk.
        apply (in_map (fun it => (f it).1)), Hin.
Qed.

(** Looking up the image of an item in the mapped dictionary. *)
Lemma dict_get_map {A V : Type} (f : A -> string * V) (items : list A) (it : A) :
  List.NoDup (map (fun it => (f it).1) items) -> In it items ->
  dict_get (f it).1 (map f items) = Some (f it).2.
Proof.
  induction items as [|it' items IH]; intros Hnd Hin; [destruct Hin|].
  inversion Hnd as [|? ? Hnotin Hnd']; subst. simpl.
  destruct (f it') as [k' v'] eqn:E'. simpl in Hnotin.
  destruct Hin as [->|Hin].
  - rewrite E'. simpl. rewrite String.eqb_refl. reflexivity.
  - destruct (String.eqb_spec k' (f it).1) as [Hk|Hk].
    + exfalso. apply Hnotin. rewrite Hk. apply (in_map (fun it => (f it).1)), Hin.
    + apply IH; assumption.
Qed.

(** ** Keys *)

Lemma length_append (a b : string) :
  String.length (String.append a b) = (String.length a + String.length b)%nat.
Proof. induction a as [|c a IH]; simpl; [reflexivity|]. rewrite IH. reflexivity. Qed.

Lemma append_inj_l (s k1 k2 : string) :
  String.append k1 s = String.append k2 s -> k1 = k2.
Proof.
  revert k2. induction k1 as [|c k1 IH]; intros [|c2 k2] H; simpl in H.
  - reflexivity.
  - apply (f_equal String.length) in H. simpl in H. rewrite !length_append in H.
    simpl in H. lia.
  - apply (f_equal String.length) in H. simpl in H. rewrite !length_append in H.
    simpl in H. lia.
  - injection H as -> H. f_equal. apply IH, H.
Qed.

Lemma suffixed_last (k : string) :
  String.get (S (String.length k)) (String.append k "_n") = String.get 1 "_n".
Proof. symmetry. exact (append_correct2 k "_n" 1). Qed.

Lemma suffixed_ne_time (k : string) : String.append k "_n" <> "time"%string.
Proof.
  intros H. pose proof (suffixed_last k) as Hl. rewrite H in Hl.
  apply (f_equal String.length) in H. rewrite length_append in H. simpl in H.
  replace (String.length k) with 2%nat in Hl by lia. discriminate Hl.
Qed.

Lemma suffixed_ne_flow_plot (k : string) : String.append k "_n" <> "flow_plot"%string.
Proof.
  intros H. pose proof (suffixed_last k) as Hl. rewrite H in Hl.
  apply (f_equal String.length) in H. rewrite length_append in H. simpl in H.
  replace (String.length k) with 7%nat in Hl by lia. discriminate Hl.
Qed.

Lemma normalized_key_inj (a b : string) :
  normalized_key a = normalized_key b -> a = b.
Proof.
  unfold normalized_key.
  destruct (String.eqb_spec a "time") as [->|Ha], (String.eqb_spec b "time") as [->|Hb];
    intros H.
  - reflexivity.
  - symmetry in H. destruct (suffixed_ne_time _ H).
  - destruct (suffixed_ne_time _ H).
  - exact (append_inj_l _ _ _ H).
Qed.

Lemma normalized_key_ne_flow_plot (k : string) : normalized_key k <> "flow_plot"%string.
Proof.
  unfold normalized_key. destruct (String.eqb_spec k "time") as [->|Hk].
  - discriminate.
  - apply suffixed_ne_flow_plot.
Qed.

Lemma normalized_key_flow (k : string) :
  normalized_key k = "flow_n"%string <-> k = "flow"%string.
Proof.
  split; [|intros ->; reflexivity].
  unfold normalized_key. destruct (String.eqb_spec k "time") as [->|Hk].
  - discriminate.
  - intros H. apply (append_inj_l "_n"). exact H.
Qed.

Lemma normalized_keys_NoDup {V : Type} (f : string * V -> string * V) (d : dict V) :
  (forall it, (f it).1 = normalized_key it.1) ->
  is_dict d -> List.NoDup (map (fun it => (f it).1) d).
Proof.
  intros Hf Hd. unfold is_dict, dict_keys in Hd.
  induction d as [|it d IH]; simpl; [constructor|].
  inversion Hd as [|? ? Hnotin Hd']; subst. constructor; [|apply IH, Hd'].
  intros Hin. apply in_map_iff in Hin as (it' & E & Hin').
  rewrite !Hf in E. apply normalized_key_inj in E.
  apply Hnotin. rewrite <- E. apply in_map, Hin'.
Qed.

Lemma dict_keys_map {V : Type} (f : string * V -> string * V) (d : dict V) :
  (forall it, (f it).1 = normalized_key it.1) ->
  dict_keys (map f d) = map normalized_key (dict_keys d).
Proof.
  intros Hf. unfold dict_keys. rewrite !map_map. apply map_ext. exact Hf.
Qed.

(** ** The loop of lines 84-88 *)

Lemma normalize_entries_fold parse (items acc : dict pyvalue) :
  normalize_entries parse items acc
  = Some (foldl (fun d it => dict_set (normalized_item parse it).1
                               (normalized_item parse it).2 d) acc items).
Proof.
  revert acc. induction items as [|[k v] items IH]; intros acc; [reflexivity|].
  change (normalize_entries parse ((k, v) :: items) acc)
    with (match normalize_entry parse acc (k, v) with
          | Some acc' => normalize_entries parse items acc'
          | None => None
          end).
  assert (E : normalize_entry parse acc (k, v)
              = Some (dict_set (normalized_item parse (k, v)).1
                        (normalized_item parse (k, v)).2 acc)).
  { unfold normalize_entry, normalized_item, normalized_key. simpl.
    destruct (String.eqb k "time"); simpl; [reflexivity|].
    destruct (normalize_returns parse v) as (out & ->). reflexivity. }
  rewrite E. apply IH.
Qed.

Lemma normalize_entries_dict parse (signals : dict pyvalue) :
  is_dict signals ->
  normalize_entries parse signals [] = Some (map (normalized_item parse) signals).
Proof.
  intros Hd. rewrite normalize_entries_fold. f_equal.
  rewrite foldl_dict_set_fresh; [reflexivity| |intros it _ []].
  apply normalized_keys_NoDup; [reflexivity|exact Hd].
Qed.

Lemma fallback_dict (n : nat) (signals : dict pyvalue) :
  is_dict signals ->
  foldl (fallback_entry (series_value (replicate n (Fin 0)))) [] signals
  = map (fallback_item n) signals.
Proof.
  intros Hd.
  rewrite <- (app_nil_l (map (fallback_item n) signals)).
  rewrite <- (foldl_dict_set_fresh (fallback_item n) signals []);
    [|apply normalized_keys_NoDup; [reflexivity|exact Hd]|intros it _ []].
  generalize (@nil (string * pyvalue)).
  induction signals as [|[k v] signals IH]; intros acc; simpl; [reflexivity|].
  inversion Hd; subst.
  rewrite <- IH by assumption. f_equal.
  unfold fallback_entry, normalized_key. simpl.
  destruct (String.eqb k "time"); reflexivity.
Qed.

Lemma dict_get_dict {V : Type} (k : string) (v : V) (d : dict V) :
  is_dict d -> In (k, v) d -> dict_get k d = Some v.
Proof.
  intros Hd Hin. unfold is_dict, dict_keys in Hd.
  induction d as [|[k' x] d IH]; [destruct Hin|].
  inversion Hd as [|? ? Hnotin Hd']; subst. simpl in *.
  destruct Hin as [[= -> ->]|Hin].
  - rewrite String.eqb_refl. reflexivity.
  - destruct (String.eqb_spec k' k) as [->|Hk].
    + exfalso. apply Hnotin. apply (in_map fst _ (k, v)), Hin.
    + apply IH; assumption.
Qed.

(** The entry stored under the new key of a signal. *)
Lemma dict_get_normalized {V : Type} (f : string * V -> string * V) (d : dict V)
    (k : string) (v : V) :
  (forall it, (f it).1 = normalized_key it.1) ->
  is_dict d -> dict_get k d = Some v ->
  dict_get (normalized_key k) (map f d) = Some (f (k, v)).2.
Proof.
  intros Hf Hd Hg. apply dict_get_In in Hg.
  change (normalized_key k) with (normalized_key (k, v).1).
  rewrite <- (Hf (k, v)). apply dict_get_map; [|exact Hg].
  apply normalized_keys_NoDup; assumption.
Qed.

Lemma dict_get_normalized_None {V : Type} (f : string * V -> string * V) (d : dict V)
    (k : string) :
  (forall it, (f it).1 = normalized_key it.1) ->
  dict_get k d = None -> dict_get (normalized_key k) (map f d) = None.
Proof.
  intros Hf Hg. apply dict_get_None. rewrite dict_get_None in Hg.
  rewrite dict_keys_map by exact Hf. intros Hin.
  apply in_map_iff in Hin as (k' & E & Hin). apply normalized_key_inj in E.
  subst k'. exact (Hg Hin).
Qed.

Lemma no_flow_plot {V : Type} (f : string * V -> string * V) (d : dict V) :
  (forall it, (f it).1 = normalized_key it.1) ->
  ~ In "flow_plot"%string (dict_keys (map f d)).
Proof.
  intros Hf. rewrite dict_keys_map by exact Hf. intros Hin.
  apply in_map_iff in Hin as (k & E & _). exact (normalized_key_ne_flow_plot k E).
Qed.

(** ** The normalised dictionary *)

Lemma normalized_item_key parse (it : string * pyvalue) :
  (normalized_item parse it).1 = normalized_key it.1.
Proof. reflexivity. Qed.

Lemma fallback_item_key n (it : string * pyvalue) :
  (fallback_item n it).1 = normalized_key it.1.
Proof. reflexivity. Qed.

Lemma suffixed_key (key : string) :
  key <> "time"%string -> normalized_key key = String.append key "_n".
Proof.
  intros H. unfold normalized_key.
  destruct (String.eqb_spec key "time"); [contradiction|reflexivity].
Qed.

(** What the body of the [try] returns. *)
Lemma normalize_all_signals_body_dict parse astype self (signals : dict pyvalue) :
  is_dict signals ->
  normalize_all_signals_body parse astype self signals
  = match dict_get "flow" signals with
    | None => Some (map (normalized_item parse) signals)
    | Some flow =>
        match py_int_float (mul (sample_rate self) (Fin 0.5)) with
        | Some n =>
            Some (map (normalized_item parse) signals
                  ++ [("flow_plot"%string,
                       apply_moving_average_value astype
                         (normalized_item parse ("flow"%string, flow)).2
                         (inject_Z (Z.max 3 n)))])
        | None => None
        end
    end.
Proof.
  intros Hd. unfold normalize_all_signals_body.
  rewrite (normalize_entries_dict parse signals Hd).
  destruct (dict_get "flow" signals) as [flow|] eqn:Ef.
  - change "flow_n"%string with (normalized_key "flow").
    rewrite (dict_get_normalized (normalized_item parse) signals "flow" flow
               (normalized_item_key parse) Hd Ef).
    destruct (py_int_float _); [|reflexivity].
    rewrite dict_set_fresh; [reflexivity|].
    apply no_flow_plot, normalized_item_key.
  - change "flow_n"%string with (normalized_key "flow").
    rewrite (dict_get_normalized_None (normalized_item parse) signals "flow"
               (normalized_item_key parse) Ef).
    reflexivity.
Qed.

(** X15: with a sample rate that is a number, [normalize_all_signals]
    loses and overwrites nothing: the result has one entry per signal, in
    the order of the input, the time axis under its own key and
    untouched, every other signal normalised under its key with the
    suffix [_n] (into [[0, 1]] when its values are within range), and -
    exactly when there is a [flow] signal - one more entry [flow_plot],
    the normalised airflow smoothed over [max(3, int(sample_rate / 2))]
    samples. *)
Theorem normalized_signals_entries parse astype self (signals : dict pyvalue)
    (rate : Q) :
  is_dict signals ->
  sample_rate self = Fin rate ->
  exists out,
    normalize_all_signals parse astype self signals = Ok out /\
    dict_keys out
    = map normalized_key (dict_keys signals)
      ++ match dict_get "flow" signals with
         | Some _ => ["flow_plot"%string]
         | None => []
         end /\
    (forall v, dict_get "time" signals = Some v -> dict_get "time" out = Some v) /\
    (forall key v,
        key <> "time"%string -> dict_get key signals = Some v ->
        exists l,
          normalize parse v = Ok l /\
          (value_within_range parse v -> Forall in_unit_interval l) /\
          dict_get (String.append key "_n") out = Some (series_value l)) /\
    (forall v,
        dict_get "flow" signals = Some v ->
        exists l,
          normalize parse v = Ok l /\
          dict_get "flow_plot" out
          = Some (series_value
                    (apply_moving_average l
                       (inject_Z (Z.max 3 (py_int (rate * 0.5))))))).
Proof.
  intros Hd Hrate. unfold normalize_all_signals.
  rewrite (normalize_all_signals_body_dict parse astype self signals Hd), Hrate.
  simpl py_int_float.
  set (d := map (normalized_item parse) signals).
  assert (Htime : forall v, dict_get "time" signals = Some v ->
                            dict_get "time" d = Some v).
  { intros v Hv.
    exact (dict_get_normalized (normalized_item parse) signals "time" v
             (normalized_item_key parse) Hd Hv). }
  assert (Hkey : forall key v,
             key <> "time"%string -> dict_get key signals = Some v ->
             exists l,
               normalize parse v = Ok l /\
               (value_within_range parse v -> Forall in_unit_interval l) /\
               dict_get (String.append key "_n") d = Some (series_value l)).
  { intros key v Hne Hv.
    destruct (normalize_returns parse v) as (l & Hl). exists l.
    split; [exact Hl|]. split.
    { intros Hr. destruct (normalize_unit parse v Hr) as (l' & Hl' & Hu).
      rewrite Hl in Hl'. injection Hl' as <-. exact Hu. }
    rewrite <- (suffixed_key key Hne). unfold d.
    rewrite (dict_get_normalized (normalized_item parse) signals key v
               (normalized_item_key parse) Hd Hv).
    unfold normalized_item. simpl.
    destruct (String.eqb_spec key "time"); [contradiction|].
    rewrite Hl. reflexivity. }
  destruct (dict_get "flow" signals) as [flow|] eqn:Ef.
  - eexists. split; [reflexivity|]. split.
    { unfold dict_keys. rewrite map_app. simpl. f_equal.
      apply (dict_keys_map (normalized_item parse)), normalized_item_key. }
    split.
    { intros v Hv. rewrite dict_get_app, (Htime v Hv). reflexivity. }
    split.
    { intros key v Hne Hv. destruct (Hkey key v Hne Hv) as (l & Hl & Hu & Hg).
      exists l. split; [exact Hl|]. split; [exact Hu|].
      rewrite dict_get_app, Hg. reflexivity. }
    intros v [= <-].
    destruct (normalize_returns parse flow) as (l & Hl). exists l.
    split; [exact Hl|].
    rewrite dict_get_app.
    assert (Hnone : dict_get "flow_plot" d = None).
    { apply dict_get_None, no_flow_plot, normalized_item_key. }
    rewrite Hnone. unfold normalized_item. simpl. rewrite Hl. reflexivity.
  - exists d. split; [reflexivity|]. split.
    { rewrite app_nil_r.
      apply (dict_keys_map (normalized_item parse)), normalized_item_key. }
    split; [exact Htime|]. split; [exact Hkey|]. intros v Hv. discriminate Hv.
Qed.

(** The fallback dictionary. *)
Lemma fallback_result parse astype self (signals : dict pyvalue) (flow : pyvalue)
    (n : nat) :
  is_dict signals ->
  ~ finite (sample_rate self) ->
  dict_get "flow" signals = Some flow ->
  zero_series_length signals = Ok n ->
  normalize_all_signals parse astype self signals
  = Ok (map (fallback_item n) signals).
Proof.
  intros Hd Hrate Hflow Hn. unfold normalize_all_signals.
  rewrite (normalize_all_signals_body_dict parse astype self signals Hd), Hflow.
  assert (E : py_int_float (mul (sample_rate self) (Fin 0.5)) = None).
  { destruct (sample_rate self) as [q| | |]; try reflexivity.
    exfalso. apply Hrate. exists q. reflexivity. }
  rewrite E. unfold create_normalized_fallback_signals. rewrite Hn. simpl.
  rewrite (fallback_dict n signals Hd). reflexivity.
Qed.

Lemma fallback_entries (signals : dict pyvalue) (n : nat) :
  is_dict signals ->
  dict_keys (map (fallback_item n) signals) = map normalized_key (dict_keys signals) /\
  (forall v, dict_get "time" signals = Some v ->
             dict_get "time" (map (fallback_item n) signals) = Some v) /\
  (forall key v,
      key <> "time"%string -> dict_get key signals = Some v ->
      dict_get (String.append key "_n") (map (fallback_item n) signals)
      = Some (series_value (replicate n (Fin 0)))) /\
  dict_get "flow_plot" (map (fallback_item n) signals) = None.
Proof.
  intros Hd. split; [apply (dict_keys_map (fallback_item n)), fallback_item_key|].
  split.
  { intros v Hv.
    exact (dict_get_normalized (fallback_item n) signals "time" v
             (fallback_item_key n) Hd Hv). }
  split.
  { intros key v Hne Hv. rewrite <- (suffixed_key key Hne).
    rewrite (dict_get_normalized (fallback_item n) signals key v
               (fallback_item_key n) Hd Hv).
    unfold fallback_item. simpl.
    destruct (String.eqb_spec key "time"); [contradiction|reflexivity]. }
  apply dict_get_None, no_flow_plot, fallback_item_key.
Qed.

(** X16: with a sample rate that is no number ([nan] or infinite) and a
    [flow] signal present, line 94 raises and [normalize_all_signals]
    returns the fallback: the time axis untouched, every other signal
    replaced by zeros of the length of the time axis, and no
    [flow_plot]. *)
Theorem non_finite_rate_falls_back parse astype self (signals : dict pyvalue)
    (flow : pyvalue) (n : nat) :
  is_dict signals ->
  ~ finite (sample_rate self) ->
  dict_get "flow" signals = Some flow ->
  zero_series_length signals = Ok n ->
  exists out,
    normalize_all_signals parse astype self signals = Ok out /\
    dict_keys out = map normalized_key (dict_keys signals) /\
    (forall v, dict_get "time" signals = Some v -> dict_get "time" out = Some v) /\
    (forall key v,
        key <> "time"%string -> dict_get key signals = Some v ->
        dict_get (String.append key "_n") out
        = Some (series_value (replicate n (Fin 0)))) /\
    dict_get "flow_plot" out = None.
Proof.
  intros Hd Hrate Hflow Hn. exists (map (fallback_item n) signals).
  split; [exact (fallback_result parse astype self signals flow n Hd Hrate Hflow Hn)|].
  exact (fallback_entries signals n Hd).
Qed.

Lemma raw_signals_dict : is_dict raw_signals.
Proof.
  unfold is_dict. simpl. repeat constructor; simpl; intuition discriminate.
Qed.

Lemma nan_not_finite : ~ finite NaN.
Proof. intros [q Hq]. discriminate Hq. Qed.

Lemma non_finite_rate_falls_back_witness :
  exists out,
    normalize_all_signals (fun _ => NaN) (fun _ => None) nan_rate raw_signals = Ok out /\
    dict_keys out = map normalized_key (dict_keys raw_signals) /\
    (forall v, dict_get "time" raw_signals = Some v -> dict_get "time" out = Some v) /\
    (forall key v,
        key <> "time"%string -> dict_get key raw_signals = Some v ->
        dict_get (String.append key "_n") out
        = Some (series_value (replicate 4 (Fin 0)))) /\
    dict_get "flow_plot" out = None.
Proof.
  exact (non_finite_rate_falls_back (fun _ => NaN) (fun _ => None) nan_rate raw_signals
           (series_value [Fin 2; Fin 4; Fin 6; Fin 8]) 4
           raw_signals_dict nan_not_finite eq_refl eq_refl).
Defined.

Lemma normalized_signals_entries_witness :
  exists out,
    normalize_all_signals (fun _ => NaN) (fun _ => None) new raw_signals = Ok out /\
    dict_keys out
    = map normalized_key (dict_keys raw_signals)
      ++ match dict_get "flow" raw_signals with
         | Some _ => ["flow_plot"%string]
         | None => []
         end /\
    (forall v, dict_get "time" raw_signals = Some v -> dict_get "time" out = Some v) /\
    (forall key v,
        key <> "time"%string -> dict_get key raw_signals = Some v ->
        exists l,
          normalize (fun _ => NaN) v = Ok l /\
          (value_within_range (fun _ => NaN) v -> Forall in_unit_interval l) /\
          dict_get (String.append key "_n") out = Some (series_value l)) /\
    (forall v,
        dict_get "flow" raw_signals = Some v ->
        exists l,
          normalize (fun _ => NaN) v = Ok l /\
          dict_get "flow_plot" out
          = Some (series_value
                    (apply_moving_average l
                       (inject_Z (Z.max 3 (py_int (10 * 0.5))))))).
Proof.
  exact (normalized_signals_entries (fun _ => NaN) (fun _ => None) new raw_signals 10
           raw_signals_dict eq_refl).
Defined.

(** ** A time axis with a missing stamp *)

Lemma sub_nan_l (x : float64) : fsub NaN x = NaN.
Proof. destruct x; reflexivity. Qed.

Lemma sub_nan_r (x : float64) : fsub x NaN = NaN.
Proof. destruct x; reflexivity. Qed.

Lemma np_diff_has_nan (ts : list float64) :
  has_nan ts = true -> (2 <= length ts)%nat -> has_nan (np_diff ts) = true.
Proof.
  unfold has_nan.
  induction ts as [|x [|y ts] IH]; intros Hn Hlen; simpl in Hlen; try lia.
  change (np_diff (x :: y :: ts)) with (fsub y x :: np_diff (y :: ts)).
  change (existsb isna (x :: y :: ts)) with (isna x || existsb isna (y :: ts)) in Hn.
  change (existsb isna (fsub y x :: np_diff (y :: ts)))
    with (isna (fsub y x) || existsb isna (np_diff (y :: ts))).
  destruct x as [q| | |]; try (rewrite sub_nan_r; reflexivity).
  all: simpl in Hn.
  all: destruct y as [p| | |]; try (rewrite sub_nan_l; reflexivity).
  all: destruct ts as [|z ts]; [discriminate Hn|].
  all: rewrite IH; [apply orb_true_r|exact Hn|simpl; lia].
Qed.

Lemma nan_stamp_rate self (ts : list float64) :
  has_nan ts = true -> (3 <= length ts)%nat ->
  sample_rate (compute_sampling_rate self (Some ts)) = NaN.
Proof.
  intros Hn Hlen. unfold compute_sampling_rate, compute_sampling_rate_body.
  destruct (Nat.ltb_spec (length ts) 3); [lia|]. cbv zeta.
  unfold np_median. rewrite (np_diff_has_nan ts Hn ltac:(lia)). reflexivity.
Qed.

(** X17: one missing stamp in a time axis of three or more samples
    makes [compute_sampling_rate] store [nan] as the sample rate; when the
    signals then go through [normalize_all_signals] (as [load_data] does),
    every signal of a study with an airflow channel comes back as zeros:
    the fallback replaces all channels, and [flow_plot] is missing. *)
Theorem missing_stamp_zeroes_signals parse astype self (signals : dict pyvalue)
    (ts : list float64) (flow : pyvalue) :
  is_dict signals ->
  dict_get "time" signals = Some (series_value ts) ->
  dict_get "flow" signals = Some flow ->
  has_nan ts = true -> (3 <= length ts)%nat ->
  sample_rate (compute_sampling_rate self (Some ts)) = NaN /\
  exists out,
    normalize_all_signals parse astype (compute_sampling_rate self (Some ts)) signals
    = Ok out /\
    dict_get "time" out = Some (series_value ts) /\
    (forall key v,
        key <> "time"%string -> dict_get key signals = Some v ->
        dict_get (String.append key "_n") out
        = Some (series_value (replicate (length ts) (Fin 0)))) /\
    dict_get "flow_plot" out = None.
Proof.
  intros Hd Htime Hflow Hn Hlen.
  pose proof (nan_stamp_rate self ts Hn Hlen) as Hrate.
  split; [exact Hrate|].
  assert (Hfin : ~ finite (sample_rate (compute_sampling_rate self (Some ts)))).
  { rewrite Hrate. exact nan_not_finite. }
  assert (Hz : zero_series_length signals = Ok (length ts)).
  { unfold zero_series_length. rewrite Htime. reflexivity. }
  exists (map (fallback_item (length ts)) signals).
  split; [exact (fallback_result parse astype _ signals flow _ Hd Hfin Hflow Hz)|].
  destruct (fallback_entries signals (length ts) Hd) as (_ & Ht & Hk & Hp).
  split; [exact (Ht _ Htime)|]. split; [exact Hk|exact Hp].
Qed.

Lemma missing_stamp_zeroes_signals_witness :
  sample_rate (compute_sampling_rate new (Some [Fin 0; Fin 1; NaN; Fin 3])) = NaN /\
  exists out,
    normalize_all_signals (fun _ => NaN) (fun _ => None)
      (compute_sampling_rate new (Some [Fin 0; Fin 1; NaN; Fin 3])) raw_signals
    = Ok out /\
    dict_get "time" out = Some (series_value [Fin 0; Fin 1; NaN; Fin 3]) /\
    (forall key v,
        key <> "time"%string -> dict_get key raw_signals = Some v ->
        dict_get (String.append key "_n") out
        = Some (series_value (replicate (length [Fin 0; Fin 1; NaN; Fin 3]) (Fin 0)))) /\
    dict_get "flow_plot" out = None.
Proof.
  exact (missing_stamp_zeroes_signals (fun _ => NaN) (fun _ => None) new raw_signals
           [Fin 0; Fin 1; NaN; Fin 3] (series_value [Fin 2; Fin 4; Fin 6; Fin 8])
           raw_signals_dict eq_refl eq_refl eq_refl ltac:(simpl; lia)).
Defined.

(** * Durations of the counted events *)













(** * When the whole-study analysis raises *)











(** * Thresholds of the oximetry and artifact figures *)






(** * Indices per sleep stage *)

Lemma ltb_pos (p : Q) : 0 < p -> ltb (Fin 0) (Fin p) = true.
Proof.
  intros H. unfold ltb, leb, eqb.
  assert (E1 : Qle_bool 0 p = true) by (apply Qle_bool_iff; lra).
  assert (E2 : Qeq_bool 0 p = false).
  { apply not_true_iff_false. intros E. apply Qeq_bool_iff in E. lra. }
  rewrite E1, E2. reflexivity.
Qed.

Lemma stage_ahi_pos (events : nat) (tib p : Q) :
  0 < p -> ~ tib == 0 ->
  exists a, stage_ahi events tib (Fin p) = Fin a /\
            a * (tib * (p / 100)) == Q_of_nat events.
Proof.
  intros Hp Ht. unfold stage_ahi. rewrite (ltb_pos p Hp). simpl.
  change (Qeq_bool 100 0) with false. cbv iota.
  assert (Hnz : ~ tib * p / 100 == 0).
  { intros E. apply Ht. 
    assert (E' : tib * p == 0).
    { assert (E2 : tib * p == tib * p / 100 * 100) by field.
      rewrite E2, E. reflexivity. }
    destruct (Qmult_integral _ _ E') as [E1|E1]; [exact E1|lra]. }
  assert (E : Qeq_bool (tib * p / 100) 0 = false).
  { apply not_true_iff_false. intros E. apply Hnz, Qeq_bool_iff, E. }
  rewrite E. eexists. split; [reflexivity|]. field. split; [lra|exact Ht].
Qed.

Lemma stage_ahi_zero_hours (events : nat) (tib p : Q) :
  0 < p -> tib == 0 ->
  stage_ahi events tib (Fin p) = if Nat.eqb events 0 then NaN else PInf.
Proof.
  intros Hp Ht. unfold stage_ahi. rewrite (ltb_pos p Hp). simpl.
  change (Qeq_bool 100 0) with false. cbv iota.
  assert (E : Qeq_bool (tib * p / 100) 0 = true).
  { apply Qeq_bool_iff. rewrite Ht. field. }
  rewrite E. unfold sign, Q_of_nat. simpl.
  destruct events; reflexivity.
Qed.

(** X21: the indices per sleep stage.  With both stages present and a
    recording of positive length, the REM and NREM indices are numbers
    and their average, weighted by the shares of the stages, is the AHI.
    A recording of zero length is not guarded as it is for the AHI: the
    index of a stage is then [nan] without events of that stage and
    infinite with some. *)
Theorem stage_indices sr sig r (p q : Q) :
  analyze_full_study sr sig = Ok r ->
  Results.rem_percent r = Fin p -> Results.nrem_percent r = Fin q ->
  0 < p -> 0 < q ->
  (0 < Results.tib_hours r ->
   exists a b,
     Results.rem_ahi r = Fin a /\ Results.nrem_ahi r = Fin b /\
     a * (p / 100) + b * (q / 100) == Results.ahi r) /\
  (Results.tib_hours r == 0 ->
   Results.ahi r = 0 /\
   Results.rem_ahi r
   = (if Nat.eqb (Results.rem_apneas r + Results.rem_hypopneas r) 0
      then NaN else PInf) /\
   Results.nrem_ahi r
   = (if Nat.eqb (Results.nrem_apneas r + Results.nrem_hypopneas r) 0
      then NaN else PInf)).
Proof.
  intros H Hp Hq Hp0 Hq0. analyze_inv H s Hloop. subst r. simpl in *.
  destruct (loop_buckets _ _ _ _ _ _ Hloop) as (_ & Hra & _ & Hrh).
  { repeat split. }
  rewrite Hp in *. rewrite Hq.
  set (tib := (t_last - t_first) / 3600) in *.
  split.
  - intros Htib.
    destruct (stage_ahi_pos (rem_apneas s + rem_hypopneas s) tib p Hp0) as (a & Ha & Ea);
      [lra|].
    destruct (stage_ahi_pos (nrem_apneas s + nrem_hypopneas s) tib q Hq0) as (b & Hb & Eb);
      [lra|].
    exists a, b. split; [exact Ha|]. split; [exact Hb|].
    unfold per_hour. apply Qltb_lt in Htib as Htb. rewrite Htb.
    rewrite <- Hra, <- Hrh.
    assert (En : Q_of_nat (rem_apneas s + nrem_apneas s
                           + (rem_hypopneas s + nrem_hypopneas s))
                 == Q_of_nat (rem_apneas s + rem_hypopneas s)
                    + Q_of_nat (nrem_apneas s + nrem_hypopneas s)).
    { rewrite <- Q_of_nat_add.
      replace (rem_apneas s + nrem_apneas s + (rem_hypopneas s + nrem_hypopneas s))%nat
        with (rem_apneas s + rem_hypopneas s + (nrem_apneas s + nrem_hypopneas s))%nat
        by lia.
      reflexivity. }
    rewrite En, <- Ea, <- Eb. field. lra.
  - intros Htib. split.
    + unfold per_hour.
      assert (E : Qltb 0 tib = false) by (apply Qltb_ge; lra).
      rewrite E. reflexivity.
    + split; apply stage_ahi_zero_hours; assumption.
Qed.

Lemma analyze_stage_percent sr sig r :
  analyze_full_study sr sig = Ok r ->
  Results.rem_percent r
  = np_percent (count_if id (rem_periods sig)) (length (rem_periods sig)) /\
  Results.nrem_percent r
  = sub (Fin 100)
      (np_percent (count_if id (rem_periods sig)) (length (rem_periods sig))).
Proof. intros H. analyze_inv H s Hloop. subst r. split; reflexivity. Qed.

Lemma stage_indices_witness :
  exists r p q,
    analyze_full_study 0.25 staged_signals = Ok r /\
    Results.rem_percent r = Fin p /\ Results.nrem_percent r = Fin q /\
    0 < p /\ 0 < q /\
    (0 < Results.tib_hours r ->
     exists a b,
       Results.rem_ahi r = Fin a /\ Results.nrem_ahi r = Fin b /\
       a * (p / 100) + b * (q / 100) == Results.ahi r) /\
    (Results.tib_hours r == 0 ->
     Results.ahi r = 0 /\
     Results.rem_ahi r
     = (if Nat.eqb (Results.rem_apneas r + Results.rem_hypopneas r) 0
        then NaN else PInf) /\
     Results.nrem_ahi r
     = (if Nat.eqb (Results.nrem_apneas r + Results.nrem_hypopneas r) 0
        then NaN else PInf)).
Proof.
  destruct (analyze_full_study_ok 0.25 staged_signals) as [r Hr];
    [unfold Qeq; simpl; lia|apply boundedb_spec; vm_compute; reflexivity
    |simpl; discriminate|vm_compute; reflexivity|simpl; lia|].
  destruct (analyze_stage_percent 0.25 staged_signals r Hr) as [Hp Hq].
  assert (Ep : np_percent (count_if id (rem_periods staged_signals))
                 (length (rem_periods staged_signals)) = Fin (200 # 4))
    by (vm_compute; reflexivity).
  rewrite Ep in Hp, Hq.
  change (sub (Fin 100) (Fin (200 # 4))) with (Fin (200 # 4)) in Hq.
  assert (H0 : 0 < 200 # 4) by reflexivity.
  exists r, (200 # 4), (200 # 4).
  split; [exact Hr|]. split; [exact Hp|]. split; [exact Hq|].
  split; [exact H0|]. split; [exact H0|].
  exact (stage_indices 0.25 staged_signals r (200 # 4) (200 # 4) Hr Hp Hq H0 H0).
Defined.

(** * More on [normalize] *)

Lemma clamp_mono (lo hi a b : Q) : lo <= hi -> a <= b -> clamp lo hi a <= clamp lo hi b.
Proof.
  intros Hlh Hab. unfold clamp.
  destruct (Qltb a lo) eqn:E1, (Qltb b lo) eqn:E2;
    rewrite ?Qltb_lt, ?Qltb_ge in *;
    destruct (Qltb hi a) eqn:E3, (Qltb hi b) eqn:E4;
    rewrite ?Qltb_lt, ?Qltb_ge in *; lra.
Qed.

Lemma rescaled_mono (mn mx a b : Q) :
  mn < mx -> a <= b -> rescaled mn mx a <= rescaled mn mx b.
Proof.
  intros Hd Hab. unfold rescaled. apply clamp_mono; [lra|].
  apply Qle_shift_div_l; [lra|].
  assert (E : (a - mn) / (mx - mn) * (mx - mn) == a - mn) by (field; lra). lra.
Qed.

Lemma lookup_map_Fin (vals : list Q) (i : nat) (a : Q) :
  map Fin vals !! i = Some (Fin a) -> vals !! i = Some a.
Proof.
  change (map Fin vals) with (Fin <$> vals). rewrite list_lookup_fmap.
  destruct (vals !! i); simpl; [intros [= ->]; reflexivity|discriminate].
Qed.

(** A channel that holds the same numbers as [f] of [vals]. *)
Lemma same_values_inv (out : list float64) (f : Q -> Q) (vals : list Q) :
  same_values out (map (fun x => Fin (f x)) vals) ->
  exists vals', out = map Fin vals' /\ Forall2 (fun a x => a == f x) vals' vals.
Proof.
  intros H. remember (map (fun x => Fin (f x)) vals) as k eqn:Hk.
  revert vals Hk. induction H as [|x y l k (a & b & -> & -> & Hab) _ IH];
    intros vals Hk.
  - destruct vals; [|discriminate]. exists []. split; [reflexivity|constructor].
  - destruct vals as [|v vals]; [discriminate|]. injection Hk as -> ->.
    destruct (IH vals eq_refl) as (vals' & -> & HF).
    exists (a :: vals'). split; [reflexivity|]. constructor; assumption.
Qed.

(** X22: on a series with at least one entry, and valid values within
    range, [normalize] returns a channel of the same length, entry by
    entry, and keeps the order of the valid entries: where one valid input
    is at most another, so are their outputs. *)
Theorem normalize_keeps_length_and_order parse (s : Series) (out : list float64) :
  to_numeric parse s <> [] ->
  within_range parse s ->
  normalize parse (PySeries s) = Ok out ->
  length out = length (to_numeric parse s) /\
  forall i j a b,
    to_numeric parse s !! i = Some (Fin a) ->
    to_numeric parse s !! j = Some (Fin b) ->
    a <= b ->
    exists a' b', out !! i = Some (Fin a') /\ out !! j = Some (Fin b') /\ a' <= b'.
Proof.
  intros Hne Hr Hout.
  destruct (normalize_formula parse s Hne Hr)
    as (vals & mn & mx & out' & Hvals & _ & Hmnin & Hmxin & Hle & Hn & Heq & Hneq).
  rewrite Hout in Hn. injection Hn as <-.
  assert (Hlen : length vals = length (to_numeric parse s)).
  { rewrite <- clean_length, Hvals, length_map. reflexivity. }
  assert (Hlook : forall i a, to_numeric parse s !! i = Some (Fin a) ->
                              vals !! i = Some a).
  { intros i a Hi. apply lookup_map_Fin. rewrite <- Hvals.
    rewrite (clean_lookup parse s i (Fin a) Hi). reflexivity. }
  destruct (Qeq_dec mn mx) as [E|E].
  - rewrite (Heq E). split; [rewrite length_replicate; exact Hlen|].
    intros i j a b Hi Hj _.
    apply Hlook, lookup_lt_Some in Hi. apply Hlook, lookup_lt_Some in Hj.
    exists 0.5, 0.5.
    split; [apply lookup_replicate_2; exact Hi|].
    split; [apply lookup_replicate_2; exact Hj|lra].
  - destruct (same_values_inv out (rescaled mn mx) vals (Hneq E))
      as (vals' & -> & HF).
    split; [rewrite length_map, (Forall2_length _ _ _ HF); exact Hlen|].
    intros i j a b Hi Hj Hab. apply Hlook in Hi. apply Hlook in Hj.
    destruct (Forall2_lookup_r _ _ _ _ _ HF Hi) as (a' & Ha' & Ea).
    destruct (Forall2_lookup_r _ _ _ _ _ HF Hj) as (b' & Hb' & Eb).
    exists a', b'.
    change (map Fin vals') with (Fin <$> vals'). rewrite !list_lookup_fmap, Ha', Hb'.
    split; [reflexivity|]. split; [reflexivity|].
    rewrite Ea, Eb. apply rescaled_mono; [|exact Hab].
    destruct (Hle mx Hmxin) as [Hmm _]. lra.
Qed.

Lemma normalize_keeps_length_and_order_witness :
  to_numeric (fun _ => NaN) (NumericSeries [Fin 2; PInf; Fin 6; Fin 4]) <> [] /\
  within_range (fun _ => NaN) (NumericSeries [Fin 2; PInf; Fin 6; Fin 4]) /\
  normalize (fun _ => NaN) (PySeries (NumericSeries [Fin 2; PInf; Fin 6; Fin 4]))
  = Ok [Fin (0 # 4); Fin (2 # 4); Fin (4 # 4); Fin (2 # 4)] /\
  length [Fin (0 # 4); Fin (2 # 4); Fin (4 # 4); Fin (2 # 4)]
  = length (to_numeric (fun _ => NaN) (NumericSeries [Fin 2; PInf; Fin 6; Fin 4])) /\
  forall i j a b,
    to_numeric (fun _ => NaN) (NumericSeries [Fin 2; PInf; Fin 6; Fin 4]) !! i
    = Some (Fin a) ->
    to_numeric (fun _ => NaN) (NumericSeries [Fin 2; PInf; Fin 6; Fin 4]) !! j
    = Some (Fin b) ->
    a <= b ->
    exists a' b',
      [Fin (0 # 4); Fin (2 # 4); Fin (4 # 4); Fin (2 # 4)] !! i = Some (Fin a') /\
      [Fin (0 # 4); Fin (2 # 4); Fin (4 # 4); Fin (2 # 4)] !! j = Some (Fin b') /\
      a' <= b'.
Proof.
  assert (Hne : to_numeric (fun _ => NaN) (NumericSeries [Fin 2; PInf; Fin 6; Fin 4])
                <> []) by discriminate.
  assert (Hr : within_range (fun _ => NaN) (NumericSeries [Fin 2; PInf; Fin 6; Fin 4])).
  { apply within_rangeb_spec. vm_compute. reflexivity. }
  assert (Hout : normalize (fun _ => NaN)
                   (PySeries (NumericSeries [Fin 2; PInf; Fin 6; Fin 4]))
                 = Ok [Fin (0 # 4); Fin (2 # 4); Fin (4 # 4); Fin (2 # 4)])
    by (vm_compute; reflexivity).
  split; [exact Hne|]. split; [exact Hr|]. split; [exact Hout|].
  exact (normalize_keeps_length_and_order (fun _ => NaN)
           (NumericSeries [Fin 2; PInf; Fin 6; Fin 4]) _ Hne Hr Hout).
Defined.

(** ** Normalising twice *)

(** Within range a normalised channel is not empty, lies in [[0, 1]], and
    is either constant 0.5 or attains both 0 and 1. *)
Lemma normalize_shape parse (v : pyvalue) (out : list float64) :
  value_within_range parse v ->
  normalize parse v = Ok out ->
  exists vals,
    out = map Fin vals /\ vals <> [] /\
    Forall (fun x => 0 <= x /\ x <= 1) vals /\
    ((exists n, vals = replicate n 0.5) \/
     (exists a b, In a vals /\ a == 0 /\ In b vals /\ b == 1)).
Proof.
  intros Hr Hout.
  assert (Hhalf : forall n, n <> O ->
             exists vals,
               replicate n (Fin 0.5) = map Fin vals /\ vals <> [] /\
               Forall (fun x => 0 <= x /\ x <= 1) vals /\
               ((exists n, vals = replicate n 0.5) \/
                (exists a b, In a vals /\ a == 0 /\ In b vals /\ b == 1))).
  { intros n Hn. exists (replicate n 0.5). split; [apply map_Fin_replicate|].
    split; [destruct n; [congruence|discriminate]|].
    split; [|left; eexists; reflexivity].
    apply Forall_forall. intros x Hx. apply elem_of_replicate_inv in Hx as ->. lra. }
  destruct v as [|x|s].
  - injection Hout as <-. apply (Hhalf 100%nat). discriminate.
  - injection Hout as <-. apply (Hhalf 100%nat). discriminate.
  - destruct (to_numeric parse s) as [|y ys] eqn:Ec.
    + rewrite (normalize_empty parse s Ec) in Hout. injection Hout as <-.
      apply (Hhalf 100%nat). discriminate.
    + destruct (normalize_formula parse s) as
        (vals & mn & mx & out' & Hvals & _ & Hmnin & Hmxin & Hle & Hn & Heq & Hneq).
      { rewrite Ec. discriminate. }
      { exact Hr. }
      rewrite Hout in Hn. injection Hn as <-.
      assert (Hvne : vals <> []) by (intros ->; contradiction).
      destruct (Qeq_dec mn mx) as [E|E].
      * rewrite (Heq E). apply Hhalf. destruct vals; [congruence|discriminate].
      * destruct (same_values_inv out (rescaled mn mx) vals (Hneq E))
          as (vals' & -> & HF).
        exists vals'. split; [reflexivity|].
        split.
        { intros ->. apply Forall2_length in HF. destruct vals; [congruence|discriminate]. }
        split.
        { apply Forall_forall. intros a Ha.
          apply list_elem_of_lookup in Ha as [i Hi].
          destruct (Forall2_lookup_l _ _ _ _ _ HF Hi) as (x & _ & Ea).
          pose proof (rescaled_unit mn mx x). lra. }
        right.
        apply list_elem_of_In, list_elem_of_lookup in Hmnin as [i Hi].
        apply list_elem_of_In, list_elem_of_lookup in Hmxin as [j Hj].
        destruct (Forall2_lookup_r _ _ _ _ _ HF Hi) as (a & Ha & Ea).
        destruct (Forall2_lookup_r _ _ _ _ _ HF Hj) as (b & Hb & Eb).
        exists a, b.
        split; [eapply list_elem_of_In, list_elem_of_lookup_2, Ha|].
        split; [rewrite Ea; apply rescaled_min; reflexivity|].
        split; [eapply list_elem_of_In, list_elem_of_lookup_2, Hb|].
        rewrite Eb. apply rescaled_max; [exact E|reflexivity].
Qed.

Lemma unit_bounded (vals : list Q) :
  Forall (fun x => 0 <= x /\ x <= 1) vals -> Forall (bounded (max_float / 2)) vals.
Proof.
  intros H. eapply Forall_impl; [exact H|].
  intros x [H0 H1]. pose proof max_float_large as Hl.
  assert (H2 : 1 <= max_float / 2).
  { apply Qle_shift_div_l; [reflexivity|].
    apply Qle_trans with (inject_Z (2 ^ 64)); [|exact Hl].
    apply Qle_bool_iff. reflexivity. }
  set (h := max_float / 2) in *. split; lra.
Qed.

(** X23: normalising a channel that was normalised from values within
    range changes nothing: the second pass returns the same numbers,
    position by position. *)
Theorem normalize_idempotent parse parse' (v : pyvalue) (out : list float64) :
  value_within_range parse v ->
  normalize parse v = Ok out ->
  exists out',
    normalize parse' (PySeries (NumericSeries out)) = Ok out' /\
    same_values out out'.
Proof.
  intros Hr Hout.
  destruct (normalize_shape parse v out Hr Hout) as (vals & -> & Hne & Hunit & Hshape).
  assert (Hc : to_numeric parse' (NumericSeries (map Fin vals)) <> []).
  { simpl. destruct vals; [congruence|discriminate]. }
  rewrite (normalize_series parse' _ Hc) by discriminate.
  rewrite clean_numbers.
  destruct (series_min_spec vals Hne) as (mn & Hmn & Hmnin & Hmnle).
  destruct (series_max_spec vals Hne) as (mx & Hmx & Hmxin & Hmxle).
  assert (Hle : forall x, In x vals -> mn <= x <= mx).
  { intros x Hx. split; [apply Hmnle|apply Hmxle]; exact Hx. }
  rewrite (rescale_bounded vals mn mx (unit_bounded vals Hunit) Hmn Hmx Hmnin Hmxin Hle).
  eexists. split; [reflexivity|].
  rewrite List.Forall_forall in Hunit.
  destruct Hshape as [[n ->]|(a & b & Ha & Ha0 & Hb & Hb1)].
  - assert (Emn : mn = 0.5).
    { apply (elem_of_replicate_inv mn n 0.5), list_elem_of_In. exact Hmnin. }
    assert (Emx : mx = 0.5).
    { apply (elem_of_replicate_inv mx n 0.5), list_elem_of_In. exact Hmxin. }
    clear Hmnin Hmxin Hmnle Hmxle Hmn Hmx Hle. subst mn mx.
    change (Qeq_bool 0.5 0.5) with true. cbv iota.
    rewrite length_replicate.
    rewrite map_Fin_replicate. apply same_values_refl.
  - assert (Hmn0 : mn == 0).
    { pose proof (Hmnle a Ha). pose proof (Hunit mn Hmnin). lra. }
    assert (Hmx1 : mx == 1).
    { pose proof (Hmxle b Hb). pose proof (Hunit mx Hmxin). lra. }
    assert (E : Qeq_bool mn mx = false).
    { apply not_true_iff_false. intros E. apply Qeq_bool_iff in E. lra. }
    rewrite E.
    assert (Hid : forall x, In x vals -> rescaled mn mx x == x).
    { intros x Hx. pose proof (Hunit x Hx) as [H0 H1]. unfold rescaled, clamp.
      assert (Eu : (x - mn) / (mx - mn) == x).
      { rewrite Hmn0, Hmx1. field. }
      destruct (Qltb _ 0) eqn:E1; [apply Qltb_lt in E1; lra|].
      destruct (Qltb 1 _) eqn:E2; [apply Qltb_lt in E2; lra|exact Eu]. }
    clear - Hid. induction vals as [|x vals IH]; constructor.
    + exists x, (rescaled mn mx x). split; [reflexivity|]. split; [reflexivity|].
      symmetry. apply Hid. left. reflexivity.
    + apply IH. intros y Hy. apply Hid. right. exact Hy.
Qed.

Lemma normalize_idempotent_witness :
  value_within_range (fun _ => NaN)
    (PySeries (NumericSeries [Fin 2; PInf; Fin 6; Fin 4])) /\
  normalize (fun _ => NaN) (PySeries (NumericSeries [Fin 2; PInf; Fin 6; Fin 4]))
  = Ok [Fin (0 # 4); Fin (2 # 4); Fin (4 # 4); Fin (2 # 4)] /\
  exists out',
    normalize (fun _ => NaN)
      (PySeries (NumericSeries [Fin (0 # 4); Fin (2 # 4); Fin (4 # 4); Fin (2 # 4)]))
    = Ok out' /\
    same_values [Fin (0 # 4); Fin (2 # 4); Fin (4 # 4); Fin (2 # 4)] out'.
Proof.
  assert (Hr : value_within_range (fun _ => NaN)
                 (PySeries (NumericSeries [Fin 2; PInf; Fin 6; Fin 4]))).
  { apply within_rangeb_spec. vm_compute. reflexivity. }
  assert (Hout : normalize (fun _ => NaN)
                   (PySeries (NumericSeries [Fin 2; PInf; Fin 6; Fin 4]))
                 = Ok [Fin (0 # 4); Fin (2 # 4); Fin (4 # 4); Fin (2 # 4)])
    by (vm_compute; reflexivity).
  split; [exact Hr|]. split; [exact Hout|].
  exact (normalize_idempotent (fun _ => NaN) (fun _ => NaN) _ _ Hr Hout).
Defined.
